(** * router_monitor: a shallow embedding of the polling core

    The development follows the source tree:
    - [snmp/parsers.py], [snmp/client.py], [snmp/constants.py]
    - [main.py]
    - [db/connection.py], [db/interface_dao.py], [db/schema.py]

    Python text is modelled as sequences of 8-bit characters; the character
    classes used by [str.strip], [\s] and [\d] are the ASCII ones.  Python
    exceptions are explicit: a computation returns [Ret v] or [Raise e], and
    effectful code threads its state through a small state-and-exception
    monad. *)

From Stdlib Require Import ZArith QArith List String Ascii Lia Permutation Bool.
From Stdlib Require Import DecimalString.
Import ListNotations.

Local Open Scope string_scope.
Local Open Scope nat_scope.
Local Open Scope list_scope.

(** ** The Python runtime *)

Module py.

(** The exception classes the code meets.  [DbError] is
    [mysql.connector.Error]. *)
Inductive exn : Type :=
| ValueError
| TypeError
| OverflowError
| AttributeError
| RuntimeError
| KeyError
| OSError
| DbError.

Inductive result (A : Type) : Type :=
| Ret (a : A)
| Raise (e : exn).
Arguments Ret {A} a.
Arguments Raise {A} e.

Definition chars : Type := list ascii.

Definition chars_of (s : string) : chars := list_ascii_of_string s.
Definition str_of (cs : chars) : string := string_of_list_ascii cs.

Definition code (c : ascii) : nat := nat_of_ascii c.

(** [str.isspace] on the ASCII range: TAB, LF, VT, FF, CR, FS, GS, RS, US,
    SPACE. *)
Definition is_space (c : ascii) : bool :=
  let n := code c in
  ((9 <=? n) && (n <=? 13)) || ((28 <=? n) && (n <=? 31)) || (n =? 32).

Definition is_digit (c : ascii) : bool :=
  let n := code c in (48 <=? n) && (n <=? 57).

Definition is_hex (c : ascii) : bool :=
  let n := code c in
  is_digit c || ((65 <=? n) && (n <=? 70)) || ((97 <=? n) && (n <=? 102)).

Definition digit_value (c : ascii) : Z := Z.of_nat (code c - 48).

Definition ascii_eqb (a b : ascii) : bool := Ascii.eqb a b.

Definition lower_char (c : ascii) : ascii :=
  let n := code c in
  if (65 <=? n) && (n <=? 90) then ascii_of_nat (n + 32) else c.

Definition lower (cs : chars) : chars := map lower_char cs.

Fixpoint chars_eqb (a b : chars) : bool :=
  match a, b with
  | [], [] => true
  | x :: a', y :: b' => ascii_eqb x y && chars_eqb a' b'
  | _, _ => false
  end.

(** [span p cs]: the longest prefix whose characters satisfy [p], and the
    rest. *)
Fixpoint span (p : ascii -> bool) (cs : chars) : chars * chars :=
  match cs with
  | [] => ([], [])
  | c :: r => if p c then let '(a, b) := span p r in (c :: a, b) else ([], cs)
  end.

Fixpoint lstrip (cs : chars) : chars :=
  match cs with
  | [] => []
  | c :: r => if is_space c then lstrip r else cs
  end.

Definition rstrip (cs : chars) : chars := rev (lstrip (rev cs)).

(** [str.strip()] *)
Definition strip (cs : chars) : chars := rstrip (lstrip cs).

(** [s.startswith(p)], returning what follows the prefix. *)
Fixpoint strip_prefix (p cs : chars) : option chars :=
  match p, cs with
  | [], _ => Some cs
  | a :: p', c :: r => if ascii_eqb a c then strip_prefix p' r else None
  | _ :: _, [] => None
  end.

Definition startswith (p cs : chars) : bool :=
  match strip_prefix p cs with Some _ => true | None => false end.

Definition endswith (p cs : chars) : bool := startswith (rev p) (rev cs).

(** [p in s] on strings *)
Fixpoint contains (p cs : chars) : bool :=
  startswith p cs ||
  match cs with
  | [] => false
  | _ :: r => contains p r
  end.

(** [s.split(sep)] for a one-character separator: never empty. *)
Fixpoint split_on (sep : ascii) (cs : chars) : list chars :=
  match cs with
  | [] => [[]]
  | c :: r =>
      if ascii_eqb c sep then [] :: split_on sep r
      else match split_on sep r with
           | [] => [[c]]
           | w :: ws => (c :: w) :: ws
           end
  end.

(** [s.split(sep, 1)] *)
Fixpoint split_once (sep : ascii) (cs : chars) : list chars :=
  match cs with
  | [] => [[]]
  | c :: r =>
      if ascii_eqb c sep then [[]; r]
      else match split_once sep r with
           | [] => [[c]]
           | w :: ws => (c :: w) :: ws
           end
  end.

(** [s.split()]: the maximal runs of non-space characters. *)
Fixpoint split_ws_aux (cur : chars) (cs : chars) : list chars :=
  match cs with
  | [] => match cur with [] => [] | _ => [rev cur] end
  | c :: r =>
      if is_space c
      then match cur with
           | [] => split_ws_aux [] r
           | _ => rev cur :: split_ws_aux [] r
           end
      else split_ws_aux (c :: cur) r
  end.

Definition split_ws (cs : chars) : list chars := split_ws_aux [] cs.

(** [sep.join(parts)] *)
Fixpoint join (sep : chars) (parts : list chars) : chars :=
  match parts with
  | [] => []
  | [w] => w
  | w :: ws => w ++ sep ++ join sep ws
  end.

(** Digits with single underscores between them, as [int] and [float]
    accept them: [acc] is the value read so far, [after_digit] tells whether
    the previous character was a digit. *)
Fixpoint digits_value (acc : Z) (after_digit : bool) (cs : chars) : option Z :=
  match cs with
  | [] => if after_digit then Some acc else None
  | c :: r =>
      if is_digit c then digits_value (10 * acc + digit_value c) true r
      else if ascii_eqb c "_" && after_digit then digits_value acc false r
      else None
  end.

Definition split_sign (cs : chars) : bool * chars :=
  match cs with
  | c :: r =>
      if ascii_eqb c "-" then (true, r)
      else if ascii_eqb c "+" then (false, r)
      else (false, cs)
  | [] => (false, [])
  end.

(** The white space [int] and [float] skip around a numeral: TAB to CR and
    SPACE.  [str.strip] also takes FS, GS, RS and US for white space; the two
    conversions do not. *)
Definition is_numeral_space (c : ascii) : bool :=
  let n := code c in ((9 <=? n) && (n <=? 13)) || (n =? 32).

Fixpoint lstrip_numeral (cs : chars) : chars :=
  match cs with
  | [] => []
  | c :: r => if is_numeral_space c then lstrip_numeral r else cs
  end.

Definition strip_numeral (cs : chars) : chars :=
  rev (lstrip_numeral (rev (lstrip_numeral cs))).

(** [sys.get_int_max_str_digits()], at its default: [int] refuses a decimal
    numeral with more digits. *)
Definition int_max_str_digits : nat := 4300.

(** The digits of a numeral, its underscores apart. *)
Definition digit_count (cs : chars) : nat := List.length (List.filter is_digit cs).

(** [int(s)] for a string [s], base 10. *)
Definition int_of_str (cs : chars) : result Z :=
  let '(neg, body) := split_sign (strip_numeral cs) in
  match digits_value 0 false body with
  | Some z =>
      if int_max_str_digits <? digit_count body then Raise ValueError
      else Ret (if neg then - z else z)%Z
  | None => Raise ValueError
  end.

(** A Python [float]: a finite double [m * 2^e], an infinity or a NaN. *)
Inductive float : Type :=
| FFinite (m e : Z)
| FInf (negative : bool)
| FNaN.

(** [float(s)] on a decimal numeral rounds it to the nearest double, and
    [str(x)] prints the shortest numeral that reads back as [x]; both are the
    interpreter's, so they are an interface here.  The literal is handed over
    stripped and lower-cased; [None] stands for text that is no decimal
    numeral. *)
Class FloatOps : Type := {
  float_literal : chars -> option float;
  float_repr : float -> string
}.

(** [float(s)] for a string [s]. *)
Definition float_of_str `{FloatOps} (cs : chars) : result float :=
  let t := lower (strip_numeral cs) in
  let '(neg, body) := split_sign t in
  if chars_eqb body (chars_of "inf") || chars_eqb body (chars_of "infinity")
  then Ret (FInf neg)
  else if chars_eqb body (chars_of "nan") then Ret FNaN
  else match float_literal t with
       | Some f => Ret f
       | None => Raise ValueError
       end.

(** [int(x)] for a float [x]: truncation towards zero. *)
Definition int_of_float (f : float) : result Z :=
  match f with
  | FFinite m e =>
      Ret (if (0 <=? e)%Z then m * 2 ^ e else Z.quot m (2 ^ (- e)))%Z
  | FInf _ => Raise OverflowError
  | FNaN => Raise ValueError
  end.

(** The values that flow through the dictionaries of the program. *)
Inductive value : Type :=
| VNone
| VStr (s : string)
| VInt (z : Z)
| VFloat (f : float).

(** [int(v)] *)
Definition int_of_value (v : value) : result Z :=
  match v with
  | VNone => Raise TypeError
  | VStr s => int_of_str (chars_of s)
  | VInt z => Ret z
  | VFloat f => int_of_float f
  end.

(** Truth value of [v] in a condition. *)
Definition truthy (v : value) : bool :=
  match v with
  | VNone => false
  | VStr s => negb (String.eqb s "")
  | VInt z => negb (z =? 0)%Z
  | VFloat (FFinite m _) => negb (m =? 0)%Z
  | VFloat _ => true
  end.

(** [str(n)] for an integer [n]. *)
Definition str_of_int (z : Z) : string := NilZero.string_of_int (Z.to_int z).

(** [str(v)] *)
Definition str_of_value `{FloatOps} (v : value) : string :=
  match v with
  | VNone => "None"
  | VStr s => s
  | VInt z => str_of_int z
  | VFloat f => float_repr f
  end.

(** Insertion-ordered dictionaries with string keys: [set] overwrites in
    place or appends, so the keys are distinct and keep the order in which
    they were first bound. *)
Definition dict (V : Type) : Type := list (string * V).

Fixpoint get {V : Type} (k : string) (d : dict V) : option V :=
  match d with
  | [] => None
  | (k', v) :: r => if String.eqb k' k then Some v else get k r
  end.

Fixpoint set {V : Type} (k : string) (v : V) (d : dict V) : dict V :=
  match d with
  | [] => [(k, v)]
  | (k', v') :: r =>
      if String.eqb k' k then (k, v) :: r else (k', v') :: set k v r
  end.

(** [k in d] *)
Definition mem {V : Type} (k : string) (d : dict V) : bool :=
  match get k d with Some _ => true | None => false end.

Definition keys {V : Type} (d : dict V) : list string := map fst d.

(** [d.get(k, default)] *)
Definition get_default {V : Type} (k : string) (default : V) (d : dict V) : V :=
  match get k d with Some v => v | None => default end.

(** Dictionaries whose keys are integers, insertion-ordered like the
    others. *)
Definition int_dict (V : Type) : Type := list (Z * V).

Fixpoint int_get {V : Type} (k : Z) (d : int_dict V) : option V :=
  match d with
  | [] => None
  | (k', v) :: r => if (k' =? k)%Z then Some v else int_get k r
  end.

Fixpoint int_set {V : Type} (k : Z) (v : V) (d : int_dict V) : int_dict V :=
  match d with
  | [] => [(k, v)]
  | (k', v') :: r =>
      if (k' =? k)%Z then (k, v) :: r else (k', v') :: int_set k v r
  end.

Definition int_mem {V : Type} (k : Z) (d : int_dict V) : bool :=
  match int_get k d with Some _ => true | None => false end.

(** The integer a value is equal to, as a dictionary key: an integer is
    itself, a float with an integral value is that value ([1.0 == 1], with
    the same hash), and neither a string nor [None] equals any integer. *)
Definition int_key (v : value) : option Z :=
  match v with
  | VInt z => Some z
  | VFloat (FFinite m e) =>
      if (0 <=? e)%Z then Some (m * 2 ^ e)%Z
      else if (m mod 2 ^ (- e) =? 0)%Z then Some (m / 2 ^ (- e))%Z
      else None
  | _ => None
  end.

End py.

(** ** snmp/parsers.py *)

Module parsers.
Import py.

(** [re.search]: the pattern is tried at every position, left to right, and
    the first position where it matches wins. *)
Fixpoint search {A : Type} (pat : chars -> option A) (cs : chars) : option A :=
  match pat cs with
  | Some a => Some a
  | None =>
      match cs with
      | [] => None
      | _ :: r => search pat r
      end
  end.

(** [marker\s*(\d+)] at the head of [cs]; the group. *)
Definition digits_after (marker : string) (cs : chars) : option chars :=
  match strip_prefix (chars_of marker) cs with
  | None => None
  | Some r =>
      match fst (span is_digit (lstrip r)) with
      | [] => None
      | ds => Some ds
      end
  end.

(** [INTEGER:\s*(\d+)] *)
Definition int_re : chars -> option chars := digits_after "INTEGER:".

(** [(Counter32|Counter64|Gauge32):\s*(\d+)], group 2 *)
Definition counter_re (cs : chars) : option chars :=
  match digits_after "Counter32:" cs with
  | Some ds => Some ds
  | None =>
      match digits_after "Counter64:" cs with
      | Some ds => Some ds
      | None => digits_after "Gauge32:" cs
      end
  end.

(** [Timeticks:\s*\((\d+)\)] *)
Definition timeticks_re (cs : chars) : option chars :=
  match strip_prefix (chars_of "Timeticks:") cs with
  | None => None
  | Some r =>
      match lstrip r with
      | c :: r' =>
          if ascii_eqb c "(" then
            match span is_digit r' with
            | (d :: ds, c' :: _) => if ascii_eqb c' ")" then Some (d :: ds) else None
            | _ => None
            end
          else None
      | [] => None
      end
  end.

(** [Hex-STRING:\s*([0-9A-Fa-f\s]+)]: the greedy [\s*] gives its last
    character back to the group when nothing else is left for it. *)
Definition hex_re (cs : chars) : option chars :=
  match strip_prefix (chars_of "Hex-STRING:") cs with
  | None => None
  | Some r =>
      let '(ws, rest) := span is_space r in
      match fst (span (fun c => is_hex c || is_space c) rest) with
      | [] => match rev ws with
              | [] => None
              | w :: _ => Some [w]
              end
      | g => Some g
      end
  end.

(** [IpAddress:\s*(\d+\.\d+\.\d+\.\d+)] *)
Definition dotted_quad (cs : chars) : option chars :=
  let dot_then (k : chars -> option chars) (cs : chars) : option chars :=
    match span is_digit cs with
    | (d :: ds, c :: r) =>
        if ascii_eqb c "." then
          match k r with
          | Some g => Some ((d :: ds) ++ c :: g)
          | None => None
          end
        else None
    | _ => None
    end in
  let last (cs : chars) : option chars :=
    match fst (span is_digit cs) with
    | [] => None
    | ds => Some ds
    end in
  dot_then (dot_then (dot_then last)) cs.

Definition ip_re (cs : chars) : option chars :=
  match strip_prefix (chars_of "IpAddress:") cs with
  | None => None
  | Some r => dotted_quad (lstrip r)
  end.

Definition quote : ascii := "034"%char.

Definition parse_snmp_value `{FloatOps} (value_str : string) : result value :=
  let cs := chars_of value_str in
  (* Empty string handling *)
  if String.eqb value_str "" || String.eqb value_str "STRING:" then Ret (VStr "")
  (* String value (quoted) *)
  else if startswith [quote] cs && endswith [quote] cs
  then Ret (VStr (str_of (removelast (tl cs))))
  else
  (* INTEGER *)
  match search int_re cs with
  | Some g => match int_of_str g with Ret z => Ret (VInt z) | Raise e => Raise e end
  | None =>
  (* Counter32, Counter64, Gauge32 *)
  match search counter_re cs with
  | Some g => match int_of_str g with Ret z => Ret (VInt z) | Raise e => Raise e end
  | None =>
  (* Timeticks *)
  match search timeticks_re cs with
  | Some g => match int_of_str g with Ret z => Ret (VInt z) | Raise e => Raise e end
  | None =>
  (* Hex-STRING for MAC addresses *)
  match search hex_re cs with
  | Some g =>
      let hex_values := split_ws (strip g) in
      if List.length hex_values =? 6
      then Ret (VStr (str_of (join (chars_of ":") hex_values)))
      else Ret (VStr (str_of (strip g)))
  | None =>
  (* IpAddress *)
  match search ip_re cs with
  | Some g => Ret (VStr (str_of g))
  | None =>
  (* Try direct conversion to int or float *)
  match int_of_str cs with
  | Ret z => Ret (VInt z)
  | Raise ValueError =>
      match float_of_str cs with
      | Ret f => Ret (VFloat f)
      | Raise ValueError => Ret (VStr value_str)
      | Raise e => Raise e
      end
  | Raise e => Raise e
  end end end end end end.

Definition newline : ascii := "010"%char.

(** One line of a walk dump: the entry it adds to the result, if any. *)
Definition parse_walk_line `{FloatOps} (line : chars)
  : result (option (string * value)) :=
  match strip line with
  | [] => Ret None
  | _ =>
      match split_once "=" line with
      | [l; r] =>
          let full_oid := strip l in
          let value_part := strip r in
          let index := List.last (split_on "." full_oid) [] in
          match parse_snmp_value (str_of value_part) with
          | Ret v => Ret (Some (str_of index, v))
          | Raise e => Raise e
          end
      | _ => Ret None
      end
  end.

Fixpoint parse_walk_lines `{FloatOps} (lines : list chars)
         (result : dict value) : py.result (dict value) :=
  match lines with
  | [] => Ret result
  | line :: rest =>
      match parse_walk_line line with
      | Ret None => parse_walk_lines rest result
      | Ret (Some (index, v)) => parse_walk_lines rest (set index v result)
      | Raise e => Raise e
      end
  end.

Definition parse_snmp_walk_response `{FloatOps} (output : string)
  : result (dict value) :=
  parse_walk_lines (split_on newline (chars_of output)) [].

End parsers.

(** ** A reference [FloatOps]: decimal numerals rounded to the nearest
    IEEE-754 double, ties to even, as CPython's [float] does, and the
    shortest numeral that reads back. *)

Module cpython.
Import py.

(** The double nearest to [n / d] for positive [n] and [d]. *)
Definition nearest_double (neg : bool) (n d : Z) : float :=
  let e0 := (Z.log2 n - Z.log2 d - 52)%Z in
  let scaled (e : Z) : Z * Z :=
    if (0 <=? e)%Z then (n, d * 2 ^ e)%Z else (n * 2 ^ (- e), d)%Z in
  let quotient (e : Z) : Z := let '(a, b) := scaled e in (a / b)%Z in
  let e1 :=
    if (quotient e0 <? 2 ^ 52)%Z then (e0 - 1)%Z
    else if (2 ^ 53 <=? quotient e0)%Z then (e0 + 1)%Z
    else e0 in
  let e := Z.max e1 (-1074) in
  let '(a, b) := scaled e in
  let q := (a / b)%Z in
  let r := (a mod b)%Z in
  let q' :=
    if (b <? 2 * r)%Z then (q + 1)%Z
    else if (2 * r =? b)%Z && Z.odd q then (q + 1)%Z
    else q in
  let '(m, e') := if (q' =? 2 ^ 53)%Z then (2 ^ 52, e + 1)%Z else (q', e) in
  if (971 <? e')%Z then FInf neg
  else FFinite (if neg then - m else m)%Z e'.

Definition count_digits (cs : chars) : Z :=
  Z.of_nat (List.length (List.filter is_digit cs)).

(** An optional run of digits: the empty text counts as zero. *)
Definition digits_opt (cs : chars) : option Z :=
  match cs with
  | [] => Some 0%Z
  | _ => digits_value 0 false cs
  end.

(** [digits [. [digits]] | . digits], as mantissa and number of fraction
    digits *)
Definition mantissa (cs : chars) : option (Z * Z) :=
  match split_once "." cs with
  | [i] =>
      match digits_value 0 false i with
      | Some a => Some (a, 0%Z)
      | None => None
      end
  | [i; f] =>
      match i, f with
      | [], [] => None
      | _, _ =>
          match digits_opt i, digits_opt f with
          | Some a, Some b =>
              Some ((a * 10 ^ count_digits f + b)%Z, count_digits f)
          | _, _ => None
          end
      end
  | _ => None
  end.

Definition exponent (cs : chars) : option Z :=
  let '(neg, body) := split_sign cs in
  match digits_value 0 false body with
  | Some z => Some (if neg then - z else z)%Z
  | None => None
  end.

Definition decimal_literal (t : chars) : option float :=
  let '(neg, body) := split_sign t in
  let parts := split_once "e" body in
  match
    match parts with
    | [m] => match mantissa m with Some mf => Some (mf, 0%Z) | None => None end
    | [m; x] =>
        match mantissa m, exponent x with
        | Some mf, Some z => Some (mf, z)
        | _, _ => None
        end
    | _ => None
    end
  with
  | None => None
  | Some ((m, fraction_digits), x) =>
      if (m =? 0)%Z then Some (FFinite 0 0)
      else
        let e10 := (x - fraction_digits)%Z in
        Some (if (0 <=? e10)%Z then nearest_double neg (m * 10 ^ e10) 1
              else nearest_double neg m (10 ^ (- e10)))
  end.


Definition decimal_digits (z : Z) : Z := Z.of_nat (String.length (str_of_int z)).

(** The quotient [a / b] rounded to the nearest integer, ties to even. *)
Definition round_half_even (a b : Z) : Z :=
  let q := (a / b)%Z in
  let r := (a mod b)%Z in
  if (b <? 2 * r)%Z then (q + 1)%Z
  else if (2 * r =? b)%Z && Z.odd q then (q + 1)%Z
  else q.

(** [n / d] as [0.DIGITS * 10^decpt] with [p] significant digits. *)
Definition to_precision (n d : Z) (p : Z) : Z * Z :=
  let est := (decimal_digits n - decimal_digits d)%Z in
  let below (k : Z) : bool :=
    if (0 <=? k)%Z then (n <? d * 10 ^ k)%Z else (n * 10 ^ (- k) <? d)%Z in
  let decpt := if below est then est else (est + 1)%Z in
  let k := (decpt - p)%Z in
  let digits :=
    if (0 <=? k)%Z then round_half_even n (d * 10 ^ k)
    else round_half_even (n * 10 ^ (- k)) d in
  if (digits =? 10 ^ p)%Z then (10 ^ (p - 1), decpt + 1)%Z else (digits, decpt).

Definition float_eqb (a b : float) : bool :=
  match a, b with
  | FFinite m e, FFinite m' e' => (m =? m')%Z && (e =? e')%Z
  | FInf s, FInf s' => Bool.eqb s s'
  | _, _ => false
  end.

Definition of_decimal (digits k : Z) : float :=
  if (0 <=? k)%Z then nearest_double false (digits * 10 ^ k) 1
  else nearest_double false digits (10 ^ (- k)).

(** The fewest digits, between [p] and 17, that read back as [n / d]. *)
Fixpoint shortest (fuel : nat) (p : Z) (n d : Z) : Z * Z * Z :=
  let '(digits, decpt) := to_precision n d p in
  match fuel with
  | O => (digits, decpt, p)
  | S fuel' =>
      if float_eqb (of_decimal digits (decpt - p)) (nearest_double false n d)
      then (digits, decpt, p)
      else shortest fuel' (p + 1)%Z n d
  end.

Definition zeros (n : Z) : string := str_of (repeat "0"%char (Z.to_nat n)).

Definition two_digits (z : Z) : string :=
  if (z <? 10)%Z then String.append "0" (str_of_int z) else str_of_int z.

Definition format_short (neg : bool) (digits decpt p : Z) : string :=
  let ds := chars_of (str_of_int digits) in
  let body :=
    if (16 <? decpt)%Z || (decpt <? -3)%Z then
      let x := (decpt - 1)%Z in
      let mant :=
        match ds with
        | [c] => [c]
        | c :: r => c :: "."%char :: r
        | [] => []
        end in
      String.append (str_of mant)
        (String.append (if (x <? 0)%Z then "e-" else "e+") (two_digits (Z.abs x)))
    else if (decpt <=? 0)%Z then
      String.append "0." (String.append (zeros (- decpt)) (str_of ds))
    else if (p <=? decpt)%Z then
      String.append (str_of ds) (String.append (zeros (decpt - p)) ".0")
    else
      String.append (str_of (firstn (Z.to_nat decpt) ds))
        (String.append "." (str_of (skipn (Z.to_nat decpt) ds))) in
  if neg then String.append "-" body else body.

Definition repr (f : float) : string :=
  match f with
  | FInf false => "inf"
  | FInf true => "-inf"
  | FNaN => "nan"
  | FFinite m e =>
      if (m =? 0)%Z then "0.0"
      else
        let '(n, d) :=
          if (0 <=? e)%Z then (Z.abs m * 2 ^ e, 1)%Z else (Z.abs m, 2 ^ (- e))%Z in
        let '(digits, decpt, p) := shortest 16 1 n d in
        format_short (m <? 0)%Z digits decpt p
  end.

#[global] Instance float_ops : FloatOps := {
  float_literal := decimal_literal;
  float_repr := repr
}.

End cpython.

(** ** Effects: state and exceptions *)

Module monad.
Import py.

(** A computation over a state [S] that returns or raises. *)
Definition M (S A : Type) : Type := S -> result A * S.

Definition ret {S A : Type} (a : A) : M S A := fun s => (Ret a, s).

Definition raise {S A : Type} (e : exn) : M S A := fun s => (Raise e, s).

Definition bind {S A B : Type} (c : M S A) (k : A -> M S B) : M S B :=
  fun s =>
    match c s with
    | (Ret a, s') => k a s'
    | (Raise e, s') => (Raise e, s')
    end.

Definition lift {S A : Type} (r : result A) : M S A := fun s => (r, s).

Definition gets {S A : Type} (f : S -> A) : M S A := fun s => (Ret (f s), s).

Definition modify {S : Type} (f : S -> S) : M S unit := fun s => (Ret tt, f s).

(** [try: body  except <classes>: handler] *)
Definition try_except {S A : Type} (body : M S A) (classes : exn -> bool)
           (handler : exn -> M S A) : M S A :=
  fun s =>
    match body s with
    | (Raise e, s') => if classes e then handler e s' else (Raise e, s')
    | r => r
    end.

(** [except Exception] *)
Definition Exception (e : exn) : bool := true.

(** [except Error] with [mysql.connector.Error] *)
Definition Error (e : exn) : bool :=
  match e with DbError => true | _ => false end.

(** A [for] loop that threads an accumulator. *)
Fixpoint for_each {S A B : Type} (xs : list A) (body : A -> B -> M S B) (acc : B)
  : M S B :=
  match xs with
  | [] => ret acc
  | x :: rest => bind (body x acc) (for_each rest body)
  end.

Declare Scope monad_scope.
Delimit Scope monad_scope with monad.
Notation "x <- c ;; k" := (bind c (fun x => k))
  (at level 61, c at next level, right associativity) : monad_scope.
Notation "c ;;; k" := (bind c (fun _ => k))
  (at level 61, right associativity) : monad_scope.

End monad.

(** ** snmp/constants.py *)

Module constants.

(** [OID_CONSTANTS], in the order the dictionary literal lists them. *)
Definition OID_CONSTANTS : py.dict string := [
  (* System information *)
  ("sysName", "1.3.6.1.2.1.1.5.0");
  ("sysDescr", "1.3.6.1.2.1.1.1.0");
  ("sysUpTime", "1.3.6.1.2.1.1.3.0");
  ("sysLocation", "1.3.6.1.2.1.1.6.0");
  ("sysContact", "1.3.6.1.2.1.1.4.0");
  ("sysObjectID", "1.3.6.1.2.1.1.2.0");
  (* IP address information *)
  ("ipAddress", "1.3.6.1.2.1.4.20.1.1");
  ("ipAdEntIfIndex", "1.3.6.1.2.1.4.20.1.2");
  (* Interface information *)
  ("ifIndex", "1.3.6.1.2.1.2.2.1.1");
  ("ifDescr", "1.3.6.1.2.1.2.2.1.2");
  ("ifName", "1.3.6.1.2.1.31.1.1.1.1");
  ("ifType", "1.3.6.1.2.1.2.2.1.3");
  ("ifMTU", "1.3.6.1.2.1.2.2.1.4");
  ("ifSpeed", "1.3.6.1.2.1.2.2.1.5");
  ("ifPhysAddress", "1.3.6.1.2.1.2.2.1.6");
  ("ifAdminStatus", "1.3.6.1.2.1.2.2.1.7");
  ("ifOperStatus", "1.3.6.1.2.1.2.2.1.8");
  (* Traffic counters *)
  ("ifInOctets", "1.3.6.1.2.1.2.2.1.10");
  ("ifOutOctets", "1.3.6.1.2.1.2.2.1.16");
  ("ifHCInOctets", "1.3.6.1.2.1.31.1.1.1.6");
  ("ifHCOutOctets", "1.3.6.1.2.1.31.1.1.1.10");
  (* High-speed interfaces *)
  ("ifHighSpeed", "1.3.6.1.2.1.31.1.1.1.15");
  ("ifAlias", "1.3.6.1.2.1.31.1.1.1.18")
].

(** [OID_CONSTANTS[name]] for a name of the literal. *)
Definition oid (name : string) : string := py.get_default name "" OID_CONSTANTS.

End constants.

(** ** snmp/client.py *)

Module client.
Import py monad parsers constants.
Local Open Scope monad_scope.

(** What a finished child process hands back: its exit status and its two
    output streams, [None] for bytes that do not decode. *)
Record completed : Type := {
  returncode : Z;
  stdout : option string;
  stderr : option string
}.

Inductive spawn : Type :=
| Spawned (proc : completed)
| SpawnFailed (e : exn).

(** The transport: running a command line against the network, whatever
    state [W] the network is in. *)
Class Subprocess (W : Type) : Type :=
  create_subprocess_exec : list string -> W -> spawn * W.

(** What a poll does to the outside, in order. *)
Inductive event : Type :=
| Exec (argv : list string)
| Sleep (delay : Q).

Record world (W : Type) : Type := {
  network : W;
  events : list event
}.
Arguments network {W} w.
Arguments events {W} w.

(** [=\s*(.+)$] at the head of [cs]; the group.  [.] matches no newline and
    [$] also matches just before a final newline. *)
Definition value_re (cs : chars) : option chars :=
  match cs with
  | c :: r =>
      if ascii_eqb c "=" then
        let '(ws, rest) := span is_space r in
        match rest with
        | [] =>
            match rev ws with
            | w1 :: more =>
                if negb (ascii_eqb w1 newline) then Some [w1]
                else match more with
                     | w2 :: _ => if negb (ascii_eqb w2 newline) then Some [w2] else None
                     | [] => None
                     end
            | [] => None
            end
        | _ =>
            let '(g, after) := span (fun c => negb (ascii_eqb c newline)) rest in
            match after with
            | [] => Some g
            | [_] => Some g
            | _ => None
            end
        end
      else None
  | [] => None
  end.

(** A transport failure: the command could not be run, it exited with a
    non-zero status, or the stream that is read does not decode. *)
Definition transport_failure (r : spawn) : bool :=
  match r with
  | SpawnFailed _ => true
  | Spawned proc =>
      if negb (returncode proc =? 0)%Z
      then true
      else match stdout proc with None => true | Some _ => false end
  end.

(** A network that answers the commands from a script, one answer per
    command, and has nothing to run them on once the script is over. *)
#[global] Instance scripted : Subprocess (list spawn) :=
  fun argv script =>
    match script with
    | [] => (SpawnFailed OSError, [])
    | answer :: rest => (answer, rest)
    end.

Definition answers (rc : Z) (out : string) : spawn :=
  Spawned {| returncode := rc; stdout := Some out; stderr := Some "" |}.

Section Client.
Context {W : Type} `{Subprocess W} `{FloatOps}.

(** [INTERFACE_TYPES_TO_MONITOR] of [models/interface.py]: the allow-list,
    from type code to type name. *)
Variable INTERFACE_TYPES_TO_MONITOR : list (Z * string).

Definition io : Type -> Type := M (world W).

Definition communicate (argv : list string) : io completed :=
  fun w =>
    let '(r, n) := create_subprocess_exec argv (network w) in
    let w' := {| network := n; events := events w ++ [Exec argv] |} in
    match r with
    | Spawned proc => (Ret proc, w')
    | SpawnFailed e => (Raise e, w')
    end.

(** [bytes.decode()]: a [UnicodeDecodeError] is a [ValueError]. *)
Definition decode (b : option string) : io string :=
  match b with
  | Some s => ret s
  | None => raise ValueError
  end.

(** [asyncio.sleep] *)
Definition sleep (delay : Q) : io unit :=
  modify (fun w => {| network := network w; events := events w ++ [Sleep delay] |}).

Definition command (tool target oid community : string) (port timeout retries : Z)
  : list string :=
  [tool; "-v2c";
   "-c"; community;
   "-r"; str_of_int retries;
   "-t"; str_of_int timeout;
   String.append target (String.append ":" (str_of_int port));
   oid].

(** ["No Such Object" in output or "No Such Instance" in output] *)
Definition not_found (output : chars) : bool :=
  contains (chars_of "No Such Object") output
  || contains (chars_of "No Such Instance") output.

(** What [snmp_get] makes of the text a successful [snmpget] printed. *)
Definition read_response (out : string) : result value :=
  let output := strip (chars_of out) in
  if not_found output then Ret VNone
  else
    (* Extract the actual value using a regex to handle all cases *)
    match search value_re output with
    | Some g => parse_snmp_value (str_of (strip g))
    | None => Ret (VStr (str_of output))  (* Return raw output if parsing failed *)
    end.

Definition snmp_get (target oid community : string) (port timeout retries : Z)
  : io value :=
  let cmd := command "snmpget" target oid community port timeout retries in
  try_except
    (proc <- communicate cmd ;;
     if negb (returncode proc =? 0)%Z then
       error <- decode (stderr proc) ;;
       ret VNone
     else
       out <- decode (stdout proc) ;;
       lift (read_response out))
    Exception
    (fun _ => ret VNone).

Definition snmp_walk (target oid community : string) (port timeout retries : Z)
  : io (dict value) :=
  let cmd := command "snmpwalk" target oid community port timeout retries in
  try_except
    (proc <- communicate cmd ;;
     if negb (returncode proc =? 0)%Z then
       error <- decode (stderr proc) ;;
       ret []
     else
       out <- decode (stdout proc) ;;
       let output := str_of (strip (chars_of out)) in
       lift (parse_snmp_walk_response output))
    Exception
    (fun _ => ret []).

Definition sys_prefixed (name : string) : bool :=
  startswith (chars_of "sys") (chars_of name).

Definition sentinel : value := VStr "Error retrieving value".

Definition is_none (v : value) : bool :=
  match v with VNone => true | _ => false end.

(** The loop of [get_device_info] over the items of [OID_CONSTANTS]. *)
Fixpoint device_info_loop (items : list (string * string))
         (router_ip community : string) (port timeout retries : Z)
         (request_interval : Q) (device_info : dict value) : io (dict value) :=
  match items with
  | [] => ret device_info
  | (name, oid) :: rest =>
      if sys_prefixed name then
        (* Only get system info, not interface info *)
        v <- snmp_get router_ip oid community port timeout retries ;;
        let device_info := set name (if is_none v then sentinel else v) device_info in
        (* Rate limiting *)
        sleep request_interval ;;;
        device_info_loop rest router_ip community port timeout retries
                         request_interval device_info
      else
        device_info_loop rest router_ip community port timeout retries
                         request_interval device_info
  end.

Definition get_device_info (router_ip community : string) (port timeout retries : Z)
           (request_interval : Q) : io (dict value) :=
  device_info_loop OID_CONSTANTS router_ip community port timeout retries
                   request_interval [("ip_address", VStr router_ip)].

(** [mapping.setdefault(k, []).append(x)] *)
Definition setdefault_append (k x : string) (mapping : dict (list string))
  : dict (list string) :=
  set k (get_default k [] mapping ++ [x]) mapping.

Definition get_ip_to_interface_mapping (router_ip community : string)
           (port timeout retries : Z) (request_interval : Q)
  : io (dict (list string)) :=
  ip_addresses <- snmp_walk router_ip (oid "ipAddress") community port timeout retries ;;
  sleep request_interval ;;;
  ip_to_if_indices <-
    snmp_walk router_ip (oid "ipAdEntIfIndex") community port timeout retries ;;
  sleep request_interval ;;;
  ret (fold_left
         (fun mapping '(idx, address) =>
            match get idx ip_to_if_indices with
            | Some v => setdefault_append (str_of_value v) (str_of_value address) mapping
            | None => mapping
            end)
         ip_addresses []).

(** [n in INTERFACE_TYPES_TO_MONITOR] and [INTERFACE_TYPES_TO_MONITOR.get] *)
Fixpoint type_name (n : Z) (table : list (Z * string)) : option string :=
  match table with
  | [] => None
  | (k, name) :: rest => if (k =? n)%Z then Some name else type_name n rest
  end.

Definition monitored (n : Z) : bool :=
  match type_name n INTERFACE_TYPES_TO_MONITOR with Some _ => true | None => false end.

(** The loop that collects [monitored_indices]; its [try] catches
    [(ValueError, TypeError)]. *)
Fixpoint monitored_loop (items : list (string * value)) (monitored_indices : list string)
  : result (list string) :=
  match items with
  | [] => Ret monitored_indices
  | (index, if_type) :: rest =>
      match int_of_value if_type with
      | Ret if_type_int =>
          if monitored if_type_int
          then monitored_loop rest (monitored_indices ++ [index])
          else monitored_loop rest monitored_indices
      | Raise ValueError | Raise TypeError => monitored_loop rest monitored_indices
      | Raise e => Raise e
      end
  end.

(** [d[k]] *)
Definition item {V : Type} (k : string) (d : dict V) : result V :=
  match get k d with
  | Some v => Ret v
  | None => Raise KeyError
  end.

(** [f"{if_types[index]} ({INTERFACE_TYPES_TO_MONITOR.get(int(if_types[index]), 'Unknown')})"] *)
Definition if_type_label (index : string) (if_types : dict value) : result string :=
  match item index if_types with
  | Raise e => Raise e
  | Ret v =>
      match int_of_value v with
      | Raise e => Raise e
      | Ret n =>
          let name :=
            match type_name n INTERFACE_TYPES_TO_MONITOR with
            | Some name => name
            | None => "Unknown"
            end in
          Ret (String.append (str_of_value v)
                 (String.append " (" (String.append name ")")))
      end
  end.

(** [interfaces[index][name] = v] *)
Definition set_attribute (index name : string) (v : value)
           (interfaces : dict (dict value)) : result (dict (dict value)) :=
  match item index interfaces with
  | Raise e => Raise e
  | Ret record => Ret (set index (set name v record) interfaces)
  end.

Definition join_str (sep : string) (parts : list string) : string :=
  str_of (join (chars_of sep) (map chars_of parts)).

Definition get_monitored_interfaces (router_ip community : string)
           (port timeout retries : Z) (request_interval : Q)
  : io (dict (dict value)) :=
  if_types <- snmp_walk router_ip (oid "ifType") community port timeout retries ;;
  sleep request_interval ;;;
  match if_types with
  | [] => ret []
  | _ =>
      monitored_indices <- lift (monitored_loop if_types []) ;;
      match monitored_indices with
      | [] => ret []
      | _ =>
          interfaces <-
            for_each monitored_indices
              (fun index interfaces =>
                 label <- lift (if_type_label index if_types) ;;
                 ret (set index [("ifIndex", VStr index); ("ifType", VStr label)]
                          interfaces))
              [] ;;
          (* Get other interface attributes *)
          interfaces <-
            for_each OID_CONSTANTS
              (fun '(name, oid) interfaces =>
                 if String.eqb name "ifIndex" || String.eqb name "ifType"
                    || sys_prefixed name
                 then ret interfaces
                 else
                   values <- snmp_walk router_ip oid community port timeout retries ;;
                   sleep request_interval ;;;
                   for_each monitored_indices
                     (fun index interfaces =>
                        lift (set_attribute index name
                                (get_default index VNone values) interfaces))
                     interfaces)
              interfaces ;;
          (* Add IP addresses to interfaces *)
          ip_if_mapping <-
            get_ip_to_interface_mapping router_ip community port timeout retries
                                        request_interval ;;
          for_each (keys interfaces)
            (fun index interfaces =>
               lift (set_attribute index "ipAddresses"
                       (VStr (join_str ", " (get_default index [] ip_if_mapping)))
                       interfaces))
            interfaces
      end
  end.

End Client.
End client.

(** ** main.py *)

Module main.
Import py.

(** [str(ipaddress.ip_address(text))]: the canonical text of the address, or
    [None] where [ip_address] raises [ValueError].  The library is the
    interpreter's, so it is an interface here. *)
Class IpAddress : Type := ip_address : chars -> option string.

(** The lines of a text file as iterating over it yields them, or [None]
    where [open] raises [FileNotFoundError]. *)
Definition filesystem : Type := string -> option (list string).

Section Reader.
Context `{IpAddress}.

(** [line.split('#')[0].strip()] *)
Definition clean (line : string) : chars :=
  strip (hd [] (split_on "#" (chars_of line))).

(** The body of the loop of [read_router_ips] over the lines of the file. *)
Fixpoint read_lines (lines : list string) (router_ips : list string) : list string :=
  match lines with
  | [] => router_ips
  | line :: rest =>
      (* Remove comments and strip whitespace *)
      match clean line with
      | [] => read_lines rest router_ips
      | text =>
          (* Validate IP address *)
          match ip_address text with
          | Some ip => read_lines rest (router_ips ++ [ip])
          | None => read_lines rest router_ips
          end
      end
  end.

Definition read_router_ips (fs : filesystem) (filename : string) : list string :=
  match fs filename with
  | Some lines => read_lines lines []
  | None => []
  end.

End Reader.

(** [process_router] of [models/router.py], for a fixed configuration: one
    poll of one device, which changes the world [W] (network, store) and
    returns whether it succeeded, or raises. *)
Class Poller (W : Type) : Type := process_router : string -> W -> result bool * W.

(** The variables the tasks of [process_routers] share.  [counted] is not in
    the source: it remembers which addresses [successful_count] counted. *)
Record tally : Type := {
  successful_count : nat;
  failed_routers : list string;
  counted : list string
}.

Section Orchestrator.
Context {W : Type} `{Poller W}.

(** [asyncio.Semaphore(value)]: the counter, or [ValueError] for a negative
    initial value. *)
Definition Semaphore (value : Z) : result Z :=
  if (value <? 0)%Z then Raise ValueError else Ret value.

(** [process_router_with_semaphore].  [async with semaphore] lets the task
    in when the counter is positive and gives the unit back when the task
    leaves; the tasks are taken one after the other here, so each of them
    finds the counter as it was created.  With the counter at zero nothing
    ever releases it and the task waits for ever: [None].  Past the [await]
    the event loop runs the task without interruption, so each task updates
    the tally at once. *)
Definition process_router_with_semaphore (semaphore : Z) (router_ip : string)
           (t : tally) (w : W) : option (result tally * W) :=
  if (semaphore <=? 0)%Z then None
  else
    Some
      match process_router router_ip w with
      | (Ret true, w') =>
          (Ret {| successful_count := S (successful_count t);
                  failed_routers := failed_routers t;
                  counted := counted t ++ [router_ip] |}, w')
      | (Ret false, w') =>
          (Ret {| successful_count := successful_count t;
                  failed_routers := failed_routers t ++ [router_ip];
                  counted := counted t |}, w')
      | (Raise e, w') => (Raise e, w')
      end.

(** [asyncio.gather] over the tasks, taken in the order of the list; the
    first exception a task raises is the outcome, and [None] stands for a
    wait that never ends. *)
Fixpoint gather (semaphore : Z) (router_ips : list string) (t : tally) (w : W)
  : option (result tally * W) :=
  match router_ips with
  | [] => Some (Ret t, w)
  | router_ip :: rest =>
      match process_router_with_semaphore semaphore router_ip t w with
      | Some (Ret t', w') => gather semaphore rest t' w'
      | Some (Raise e, w') => Some (Raise e, w')
      | None => None
      end
  end.

(** What a run leaves behind: the world, and the failure file if it was
    written. *)
Record outcome : Type := {
  world_after : W;
  failed_routers_file : option (list string)
}.

(** [process_routers] for [config.max_concurrent_routers]; [None] when the
    call never returns. *)
Definition process_routers (max_concurrent_routers : Z) (router_ips : list string)
           (w : W) : option (result (nat * nat) * outcome) :=
  (* Use semaphore to limit concurrency *)
  match Semaphore max_concurrent_routers with
  | Raise e => Some (Raise e, {| world_after := w; failed_routers_file := None |})
  | Ret semaphore =>
      match gather semaphore router_ips
                   {| successful_count := 0; failed_routers := []; counted := [] |} w with
      | Some (Ret t, w') =>
          (* Save failed routers to file *)
          let saved :=
            match failed_routers t with
            | [] => None
            | failed => Some failed
            end in
          Some (Ret (successful_count t, List.length (failed_routers t)),
                {| world_after := w'; failed_routers_file := saved |})
      | Some (Raise e, w') =>
          Some (Raise e, {| world_after := w'; failed_routers_file := None |})
      | None => None
      end
  end.

End Orchestrator.

(** A poller that succeeds or fails as a script says, one entry per poll,
    and fails once the script is over. *)
#[global] Instance scripted_poller : Poller (list bool) :=
  fun router_ip script =>
    match script with
    | [] => (Ret false, [])
    | success :: rest => (Ret success, rest)
    end.

End main.

(** ** A reference [IpAddress]: the parsing and printing of CPython's
    [ipaddress] module (IPv4 dotted quads without leading zeros; IPv6 with
    [::] compression, an embedded IPv4 tail and a scope id). *)

Module ipaddress.
Import py.

Definition has (c : ascii) (cs : chars) : bool := existsb (ascii_eqb c) cs.

Definition nonempty (cs : chars) : bool :=
  match cs with [] => false | _ => true end.

(** [_parse_octet] *)
Definition parse_octet (cs : chars) : option Z :=
  if nonempty cs && forallb is_digit cs && (List.length cs <=? 3)
     && negb ((1 <? List.length cs) && startswith ["0"%char] cs)
  then
    match digits_value 0 false cs with
    | Some z => if (z <=? 255)%Z then Some z else None
    | None => None
    end
  else None.

(** [IPv4Address._ip_int_from_string], as the four octets *)
Definition ipv4_octets (cs : chars) : option (list Z) :=
  if has "/" cs then None
  else
    match map parse_octet (split_on "." cs) with
    | [Some a; Some b; Some c; Some d] => Some [a; b; c; d]
    | _ => None
    end.

Definition ipv4_str (octets : list Z) : string :=
  str_of (join ["."%char] (map (fun z => chars_of (str_of_int z)) octets)).

Definition hex_digit_value (c : ascii) : Z :=
  let n := code c in
  if is_digit c then Z.of_nat (n - 48)
  else if 97 <=? n then Z.of_nat (n - 87)
  else Z.of_nat (n - 55).

(** [_parse_hextet] *)
Definition parse_hextet (cs : chars) : option Z :=
  if nonempty cs && forallb is_hex cs && (List.length cs <=? 4)
  then Some (fold_left (fun acc c => 16 * acc + hex_digit_value c)%Z cs 0%Z)
  else None.

Fixpoint all_some {A : Type} (l : list (option A)) : option (list A) :=
  match l with
  | [] => Some []
  | None :: _ => None
  | Some a :: r =>
      match all_some r with
      | Some r' => Some (a :: r')
      | None => None
      end
  end.

Definition hex_char (z : Z) : ascii :=
  if (z <? 10)%Z then ascii_of_nat (48 + Z.to_nat z) else ascii_of_nat (87 + Z.to_nat z).

(** ['%x' % z] for [0 <= z < 65536] *)
Definition hex (z : Z) : chars :=
  let ds := [(z / 4096) mod 16; (z / 256) mod 16; (z / 16) mod 16; z mod 16]%Z in
  match snd (span (fun c => ascii_eqb c "0") (map hex_char ds)) with
  | [] => ["0"%char]
  | cs => cs
  end.

(** The positions, from [i] on, of the empty parts of [parts], first and last
    part left out. *)
Fixpoint empty_inside (i : nat) (parts : list chars) : list nat :=
  match parts with
  | [] => []
  | [_] => []
  | p :: rest =>
      if (0 <? i) && negb (nonempty p)
      then i :: empty_inside (S i) rest
      else empty_inside (S i) rest
  end.

(** [IPv6Address._ip_int_from_string], as the eight hextets *)
Definition ipv6_hextets (cs : chars) : option (list Z) :=
  let parts := split_on ":" cs in
  if negb (nonempty cs) || (List.length parts <? 3) then None
  else
    (* If the address has an IPv4-style suffix, convert it to hexadecimal. *)
    let parts' :=
      if has "." (List.last parts [])
      then
        match ipv4_octets (List.last parts []) with
        | Some [a; b; c; d] =>
            Some (removelast parts ++ [hex (a * 256 + b); hex (c * 256 + d)])%Z
        | _ => None
        end
      else Some parts in
    match parts' with
    | None => None
    | Some parts =>
        let n := List.length parts in
        if 9 <? n then None
        else
          let first_empty := negb (nonempty (hd [] parts)) in
          let last_empty := negb (nonempty (List.last parts [])) in
          match empty_inside 0 parts with
          | _ :: _ :: _ => None
          | [skip_index] =>
              let parts_hi := skip_index in
              let parts_lo := n - skip_index - 1 in
              if first_empty && negb (parts_hi - 1 =? 0) then None
              else if last_empty && negb (parts_lo - 1 =? 0) then None
              else
                let parts_hi := if first_empty then parts_hi - 1 else parts_hi in
                let parts_lo := if last_empty then parts_lo - 1 else parts_lo in
                if 8 <? parts_hi + parts_lo + 1 then None
                else
                  match all_some (map parse_hextet (firstn parts_hi parts)),
                        all_some (map parse_hextet (skipn (n - parts_lo) parts)) with
                  | Some hi, Some lo =>
                      Some (hi ++ repeat 0%Z (8 - (parts_hi + parts_lo)) ++ lo)
                  | _, _ => None
                  end
          | [] =>
              if negb (n =? 8) || first_empty || last_empty then None
              else all_some (map parse_hextet parts)
          end
    end.

(** The longest run of ["0"] hextets, the first one among equals: its start
    and its length.  [cur_start] and [cur_len] describe the run that ends
    just before position [i]. *)
Fixpoint best_run (i : nat) (hextets : list chars) (cur_start cur_len : nat)
         (best : nat * nat) : nat * nat :=
  match hextets with
  | [] => best
  | h :: rest =>
      if chars_eqb h ["0"%char] then
        let cur_start := if cur_len =? 0 then i else cur_start in
        let cur_len := S cur_len in
        best_run (S i) rest cur_start cur_len
                 (if snd best <? cur_len then (cur_start, cur_len) else best)
      else best_run (S i) rest 0 0 best
  end.

(** [_compress_hextets] *)
Definition compress_hextets (hextets : list chars) : list chars :=
  let '(start, len) := best_run 0 hextets 0 0 (0, 0) in
  if 1 <? len then
    let stop := start + len in
    let tail := if stop =? List.length hextets then [[]] else [] in
    let head := if start =? 0 then [[]] else [] in
    head ++ firstn start hextets ++ [[]] ++ skipn stop hextets ++ tail
  else hextets.

Definition ipv6_str (hextets : list Z) (scope : option chars) : string :=
  let text := join [":"%char] (compress_hextets (map hex hextets)) in
  str_of (match scope with
          | Some id => text ++ "%"%char :: id
          | None => text
          end).

(** [_split_scope_id] *)
Definition split_scope_id (cs : chars) : option (chars * option chars) :=
  match split_once "%" cs with
  | [addr] => Some (addr, None)
  | [addr; scope] =>
      if negb (nonempty scope) || has "%" scope then None
      else Some (addr, Some scope)
  | _ => None
  end.

(** [str(ipaddress.ip_address(text))]: IPv4 first, then IPv6. *)
Definition canonical (cs : chars) : option string :=
  match ipv4_octets cs with
  | Some octets => Some (ipv4_str octets)
  | None =>
      if has "/" cs then None
      else
        match split_scope_id cs with
        | None => None
        | Some (addr, scope) =>
            match ipv6_hextets addr with
            | Some hextets => Some (ipv6_str hextets scope)
            | None => None
            end
        end
  end.

#[global] Instance ip_address_impl : main.IpAddress := canonical.

End ipaddress.

(** ** db/connection.py *)

Module connection.
Import py monad.
Local Open Scope monad_scope.

(** A row of [interfaces], as far as the sample writer reads it; [ifIndex]
    is a [BIGINT] column, which the connector hands over as an integer. *)
Record interface_row : Type := {
  interface_id : Z;
  router_id : Z;
  ifIndex : Z
}.

(** A row of [interface_stats]. *)
Record stat_row : Type := {
  stat_interface_id : Z;
  timestamp : string;
  ifAdminStatus : Z;
  ifOperStatus : Z;
  ifInOctets : Z;
  ifOutOctets : Z;
  ifHCInOctets : Z;
  ifHCOutOctets : Z
}.

(** The store and the clock.  [faults] tells, for each coming exchange with
    the server (taking a connection, a statement, a commit), whether it
    raises [mysql.connector.Error]; past its end every exchange succeeds.
    [uncommitted] holds the rows inserted since the last commit; [slept] the
    pauses made by [time.sleep], in milliseconds. *)
Record store : Type := {
  interfaces : list interface_row;
  interface_stats : list stat_row;
  uncommitted : list stat_row;
  faults : list bool;
  slept : list Z;
  now : string
}.

Definition db : Type -> Type := M store.

Definition with_faults (f : list bool) (s : store) : store :=
  {| interfaces := interfaces s; interface_stats := interface_stats s;
     uncommitted := uncommitted s; faults := f; slept := slept s; now := now s |}.

Definition with_uncommitted (rows : list stat_row) (s : store) : store :=
  {| interfaces := interfaces s; interface_stats := interface_stats s;
     uncommitted := rows; faults := faults s; slept := slept s; now := now s |}.

(** One exchange with the server. *)
Definition exchange : db unit :=
  fun s =>
    match faults s with
    | [] => (Ret tt, s)
    | false :: rest => (Ret tt, with_faults rest s)
    | true :: rest => (Raise DbError, with_faults rest s)
    end.

(** [time.sleep(seconds)] of the module [time], in milliseconds *)
Definition time_sleep (ms : Z) : db unit :=
  modify (fun s =>
            {| interfaces := interfaces s; interface_stats := interface_stats s;
               uncommitted := uncommitted s; faults := faults s;
               slept := slept s ++ [ms]; now := now s |}).

(** [connection_pool.get_connection()] *)
Definition get_connection : db unit := exchange.

(** [connection.close()]: what was not committed is rolled back; an error
    while closing is caught and logged. *)
Definition close : db unit := modify (with_uncommitted []).

(** [connection.commit()] *)
Definition commit : db unit :=
  exchange ;;;
  modify (fun s =>
            {| interfaces := interfaces s;
               interface_stats := interface_stats s ++ uncommitted s;
               uncommitted := []; faults := faults s; slept := slept s;
               now := now s |}).

(** [with db_connection(config) as connection: body].

    [db_connection] is a generator under [@contextmanager], and its [yield]
    stands inside the [try] of the retry loop.  So an [Error] the body raises
    is thrown into the generator at the [yield], is caught by the loop's
    [except Error], and the loop goes round again unless the retry count is
    used up; a second [yield] then makes [contextlib] raise [RuntimeError]
    ("generator didn't stop after throw()").

    [attempts_left] is [max_retries - retry_count]; [connection] tells
    whether the variable [connection] is set; [thrown] whether the body has
    already run and raised. *)
Fixpoint db_connection_loop {A : Type} (body : db A) (max_retries : nat)
         (attempts_left retry_count : nat) (connection thrown : bool) : db A :=
  let finally : db unit := if connection then close else ret tt in
  match attempts_left with
  | O => raise RuntimeError
  | S n =>
      fun s =>
        match get_connection s with
        | (Raise e, s1) =>
            (* Error getting connection from pool *)
            let retry_count := S retry_count in
            if max_retries <=? retry_count
            then (finally ;;; raise e) s1
            else (time_sleep 500 ;;; finally ;;;
                  db_connection_loop body max_retries n retry_count connection thrown) s1
        | (Ret _, s1) =>
            if thrown then (close ;;; raise RuntimeError) s1
            else
              match body s1 with
              | (Ret a, s2) => (close ;;; ret a) s2
              | (Raise e, s2) =>
                  if Error e then
                    let retry_count := S retry_count in
                    if max_retries <=? retry_count
                    then (close ;;; raise e) s2
                    else (time_sleep 500 ;;; close ;;;
                          db_connection_loop body max_retries n retry_count true true) s2
                  else (close ;;; raise e) s2
              end
        end
  end.

Definition db_connection {A : Type} (body : db A) : db A :=
  db_connection_loop body 3 3 0 false false.

(** The loop of [execute_with_retry]; [execute] is [cursor.execute(query,
    params)] and [attempts_left] is [max_retries - retry_count]. *)
Fixpoint execute_loop (execute : db unit) (max_retries : nat)
         (attempts_left retry_count : nat) : db bool :=
  match attempts_left with
  | O => ret false
  | S n =>
      try_except
        (execute ;;; ret true)
        Error
        (fun e =>
           let retry_count := S retry_count in
           let backoff := (500 * 2 ^ Z.of_nat retry_count)%Z in  (* Exponential backoff *)
           if max_retries <=? retry_count then raise e
           else time_sleep backoff ;;; execute_loop execute max_retries n retry_count)
  end.

Definition execute_with_retry (execute : db unit) (max_retries : nat) : db bool :=
  execute_loop execute max_retries max_retries 0.

End connection.

(** ** db/interface_dao.py *)

Module interface_dao.
Import py monad connection.
Local Open Scope monad_scope.

(** [from datetime import datetime, time]: in this module the name [time] is
    the class [datetime.time], which has no attribute [sleep]. *)
Definition time_sleep (ms : Z) : db unit := raise AttributeError.

(** [SELECT interface_id, ifIndex FROM interfaces WHERE router_id = %s] *)
Definition select_interfaces (router : Z) : db unit := exchange.

Definition fetchall (router : Z) : db (list interface_row) :=
  gets (fun s => List.filter (fun row => (router_id row =? router)%Z) (interfaces s)).

Definition get_interface_id_map (router : Z) : db (int_dict Z) :=
  try_except
    (db_connection
       (execute_with_retry (select_interfaces router) 3 ;;;
        rows <- fetchall router ;;
        (* Map ifIndex to interface_id *)
        ret (fold_left (fun interface_map row =>
                          int_set (ifIndex row) (interface_id row) interface_map)
                       rows [])))
    Error
    (fun _ => ret []).

(** [int(interface.get(name, 0) or 0)] *)
Definition int_field (name : string) (interface : dict value) : result Z :=
  let v := get_default name (VInt 0) interface in
  int_of_value (if truthy v then v else VInt 0).

(** [interface.get('ifIndex')] as a key of [interface_map], whose keys are
    the integers of the [ifIndex] column: the integer the value is equal to,
    [None] for a value that equals no integer (a string, as the walks give
    it, or [None]). *)
Definition index_of (interface : dict value) : option Z :=
  match get "ifIndex" interface with
  | Some v => int_key v
  | None => None
  end.

Definition stats_row (interface_id : Z) (current_time : string) (interface : dict value)
  : result stat_row :=
  match int_field "ifAdminStatus" interface with
  | Raise e => Raise e
  | Ret a =>
  match int_field "ifOperStatus" interface with
  | Raise e => Raise e
  | Ret o =>
  match int_field "ifInOctets" interface with
  | Raise e => Raise e
  | Ret i =>
  match int_field "ifOutOctets" interface with
  | Raise e => Raise e
  | Ret u =>
  match int_field "ifHCInOctets" interface with
  | Raise e => Raise e
  | Ret hi =>
  match int_field "ifHCOutOctets" interface with
  | Raise e => Raise e
  | Ret hu =>
      Ret {| stat_interface_id := interface_id; timestamp := current_time;
             ifAdminStatus := a; ifOperStatus := o; ifInOctets := i;
             ifOutOctets := u; ifHCInOctets := hi; ifHCOutOctets := hu |}
  end end end end end end.

(** Prepare batch insert for interface stats *)
Fixpoint stats_values (interfaces_data : list (dict value)) (interface_map : int_dict Z)
         (current_time : string) (acc : list stat_row) : result (list stat_row) :=
  match interfaces_data with
  | [] => Ret acc
  | interface :: rest =>
      match index_of interface with
      | None => stats_values rest interface_map current_time acc
      | Some if_index =>
          match int_get if_index interface_map with
          | None => stats_values rest interface_map current_time acc
          | Some interface_id =>
              match stats_row interface_id current_time interface with
              | Ret row => stats_values rest interface_map current_time (acc ++ [row])
              | Raise e => Raise e
              end
          end
      end
  end.

(** [cursor.executemany(INSERT INTO interface_stats ..., stats_values)] *)
Definition executemany (rows : list stat_row) : db unit :=
  exchange ;;;
  modify (fun s => with_uncommitted (uncommitted s ++ rows) s).

(** The retry loop around the batch insert; [attempts_left] is
    [max_retries - retry_count], and the loop is left as soon as [success]
    is set. *)
Fixpoint insert_loop (rows : list stat_row) (max_retries : nat)
         (attempts_left retry_count : nat) : db bool :=
  match attempts_left with
  | O => ret false
  | S n =>
      try_except
        (executemany rows ;;; commit ;;; ret true)
        Error
        (fun e =>
           let retry_count := S retry_count in
           if max_retries <=? retry_count then raise e
           else
             time_sleep (500 * 2 ^ Z.of_nat retry_count)%Z ;;;  (* Exponential backoff *)
             insert_loop rows max_retries n retry_count)
  end.

Definition save_interface_stats_batch (interfaces_data : list (dict value)) (router : Z)
  : db bool :=
  try_except
    (db_connection
       (current_time <- gets now ;;
        (* First, get all interface IDs for this router *)
        interface_map <- get_interface_id_map router ;;
        match interface_map with
        | [] => ret false
        | _ =>
            rows <- lift (stats_values interfaces_data interface_map current_time []) ;;
            (* Insert stats in batch if we have any *)
            match rows with
            | [] => ret false
            | _ => insert_loop rows 3 3 0
            end
        end))
    Error
    (fun _ => ret false).

End interface_dao.

(** *** The utilization calculator of db/interface_dao.py *)

Module utilization.

(** A row of [interface_stats] as the calculator reads it; [timestamp] in
    seconds. *)
Record sample : Type := {
  timestamp : Z;
  ifInOctets : Z;
  ifOutOctets : Z;
  ifHCInOctets : Z;
  ifHCOutOctets : Z
}.

(** The speed columns of a row of [interfaces]; [None] for NULL. *)
Record interface : Type := {
  ifHighSpeed : option Z;
  ifSpeed : option Z
}.

Record utilization_record : Type := {
  at_time : Z;
  in_bps : Q;
  out_bps : Q;
  in_utilization : Q;
  out_utilization : Q
}.

Definition nonzero (z : Z) : bool := negb (z =? 0)%Z.

(** Calculate byte differences, prefer HC counters *)
Definition byte_difference (curr_hc prev_hc curr_std prev_std : Z) : Z :=
  if nonzero curr_hc && nonzero prev_hc
  then (curr_hc - prev_hc)%Z
  else (curr_std - prev_std)%Z.

(** Handle counter resets *)
Definition reset_value (curr_hc curr_std : Z) : Z :=
  if nonzero curr_hc then curr_hc else curr_std.

Definition octet_delta (curr_hc prev_hc curr_std prev_std : Z) : Z :=
  let bytes := byte_difference curr_hc prev_hc curr_std prev_std in
  if (bytes <? 0)%Z then reset_value curr_hc curr_std else bytes.

(** One pair of consecutive samples: the record it adds, if any. *)
Definition pair_utilization (interface_speed : Z) (prev curr : sample)
  : option utilization_record :=
  (* Calculate time difference in seconds *)
  let time_diff := (timestamp curr - timestamp prev)%Z in
  if (time_diff <=? 0)%Z then None
  else
    let in_bytes := octet_delta (ifHCInOctets curr) (ifHCInOctets prev)
                                (ifInOctets curr) (ifInOctets prev) in
    let out_bytes := octet_delta (ifHCOutOctets curr) (ifHCOutOctets prev)
                                 (ifOutOctets curr) (ifOutOctets prev) in
    (* Calculate bits per second *)
    let in_bps := (inject_Z (in_bytes * 8) / inject_Z time_diff)%Q in
    let out_bps := (inject_Z (out_bytes * 8) / inject_Z time_diff)%Q in
    (* interface_speed is in Mbps, convert to bps *)
    let speed_bps := (interface_speed * 1000000)%Z in
    let percent (bps : Q) : Q :=
      if (0 <? speed_bps)%Z then (bps / inject_Z speed_bps * inject_Z 100)%Q
      else 0%Q in
    Some {| at_time := timestamp curr;
            in_bps := in_bps; out_bps := out_bps;
            in_utilization := percent in_bps;
            out_utilization := percent out_bps |}.

(** [for i in range(1, len(stats))]: [prev] is [stats[i-1]]. *)
Fixpoint pairs_utilization (interface_speed : Z) (prev : sample) (rest : list sample)
  : list utilization_record :=
  match rest with
  | [] => []
  | curr :: rest' =>
      match pair_utilization interface_speed prev curr with
      | Some r => r :: pairs_utilization interface_speed curr rest'
      | None => pairs_utilization interface_speed curr rest'
      end
  end.

(** [interface] is what [get_interface_by_id] returned and [stats] what
    [get_interface_stats] returned.  A NULL speed makes the arithmetic raise
    [TypeError], which the function catches, returning the empty list. *)
Definition calculate_interface_utilization (interface : option interface)
           (stats : list sample) : list utilization_record :=
  match interface with
  | None => []
  | Some interface =>
      (* Use ifHighSpeed if available, otherwise ifSpeed *)
      let interface_speed :=
        match ifHighSpeed interface with
        | Some z => if nonzero z then Some z else ifSpeed interface
        | None => ifSpeed interface
        end in
      match interface_speed with
      | Some 0%Z => []
      | _ =>
          match stats with
          | [] | [_] => []
          | first :: rest =>
              match interface_speed with
              | Some speed => pairs_utilization speed first rest
              | None => []
              end
          end
      end
  end.

End utilization.

(** ** db/schema.py *)

Module schema.
Import py monad.
Local Open Scope monad_scope.

(** A partition name: [p_default], or [p_YYYYMMDD] for the day it starts.
    Days are day numbers ([TO_DAYS]); the name [p_YYYYMMDD] tells the day and
    the day tells the name. *)
Inductive partition_name : Type :=
| p_default
| p_ (start : Z).

(** A row of [information_schema.partitions]: name and [VALUES LESS THAN]
    bound. *)
Record partition : Type := {
  name : partition_name;
  less_than : Z
}.

Definition name_eqb (a b : partition_name) : bool :=
  match a, b with
  | p_default, p_default => true
  | p_ x, p_ y => (x =? y)%Z
  | _, _ => false
  end.

(** [SELECT PARTITION_NAME ... WHERE PARTITION_NAME=%s] returns a row *)
Definition partition_exists (n : partition_name) (table : list partition) : bool :=
  existsb (fun p => name_eqb (name p) n) table.

(** [ALTER TABLE interface_stats ADD PARTITION (...)], accepted by the
    server *)
Definition add_partition (n : partition_name) (bound : Z) (table : list partition)
  : list partition :=
  table ++ [{| name := n; less_than := bound |}].

(** [for i in range(num_partitions)], from [i] on *)
Fixpoint create_loop (current_date interval_days : Z) (i : Z) (count : nat)
         (table : list partition) : list partition :=
  match count with
  | O => table
  | S count' =>
      let partition_start := (current_date + i * interval_days)%Z in
      let partition_end := (current_date + (i + 1) * interval_days)%Z in
      let partition_name := p_ partition_start in
      (* Check if partition already exists before trying to create it *)
      let table' :=
        if partition_exists partition_name table then table
        else add_partition partition_name partition_end table in
      create_loop current_date interval_days (i + 1) count' table'
  end.

Definition create_time_partitions (current_date interval_days : Z) (num_partitions : nat)
           (table : list partition) : list partition :=
  create_loop current_date interval_days 0 num_partitions table.

(** [... WHERE PARTITION_NAME != 'p_default' ORDER BY PARTITION_DESCRIPTION
    DESC LIMIT 1] *)
Fixpoint latest_partition (table : list partition) : option partition :=
  match table with
  | [] => None
  | p :: rest =>
      match name p with
      | p_default => latest_partition rest
      | p_ _ =>
          match latest_partition rest with
          | Some q => if (less_than p <? less_than q)%Z then Some q else Some p
          | None => Some p
          end
      end
  end.

(** What the connector hands over for a [DATE] column: a [datetime.date],
    or [None] for the zero date. *)
Inductive date_value : Type :=
| date (day : Z)
| no_date.

(** [SELECT FROM_DAYS(n)], fetched.  The server answers the zero date for a
    day number below 366. *)
Definition from_days (n : Z) : date_value :=
  if (n <? 366)%Z then no_date else date n.

(** [datetime.strptime(x, '%Y-%m-%d').date()] for what the cursor fetched:
    [strptime] wants a [str], and raises [TypeError] for a [datetime.date]
    and for [None]. *)
Definition strptime (x : date_value) : result Z :=
  match x with
  | date _ => Raise TypeError
  | no_date => Raise TypeError
  end.

(** The partitions of [interface_stats] are the state.  The description of
    a range partition is the text of its bound, so [result[1]] is true
    whenever there is a [result]. *)
Definition maintain_partitions (current_date interval_days : Z)
  : M (list partition) unit :=
  try_except
    (result <- gets latest_partition ;;
     match result with
     | Some result =>
         let partition_desc := less_than result in
         (* Convert PARTITION_DESCRIPTION (which contains TO_DAYS value) back to date *)
         let last_partition_date_str := from_days partition_desc in
         last_partition_date <- lift (strptime last_partition_date_str) ;;
         (* how many days ahead we have partitions for *)
         let days_ahead := (last_partition_date - current_date)%Z in
         (* If we have less than 3 intervals of partitions ahead, add a new one *)
         if (days_ahead <? interval_days * 3)%Z then
           let new_partition_start := last_partition_date in
           let new_partition_end := (new_partition_start + interval_days)%Z in
           let new_partition_name := p_ new_partition_start in
           (* Make sure the partition doesn't already exist to avoid errors *)
           existing <- gets (partition_exists new_partition_name) ;;
           if existing then ret tt
           else modify (add_partition new_partition_name new_partition_end)
         else ret tt
     | None =>
         (* No existing partitions found. Creating initial partitions. *)
         modify (create_time_partitions current_date interval_days 6)
     end)
    Error
    (fun _ => ret tt).

(** How far the dated partitions reach beyond [current_date], in days. *)
Definition days_covered (current_date : Z) (table : list partition) : option Z :=
  match latest_partition table with
  | Some p => Some (less_than p - current_date)%Z
  | None => None
  end.

End schema.

(** * The vocabulary of the statements *)

Import py monad.

Section ParserTerms.

(** A non-empty run of decimal digits. *)
Definition digit_run (ds : chars) : Prop :=
  forallb is_digit ds = true /\ ds <> [].

End ParserTerms.

Section DeviceTerms.
Import client.

(** The [sys]-prefixed names among the items of a dictionary literal. *)
Definition sys_names (items : list (string * string)) : list string :=
  map fst (List.filter (fun item => sys_prefixed (fst item)) items).

(** The value [get_device_info] binds to an attribute, given what the query
    returned. *)
Definition bound (v : value) : value := if is_none v then sentinel else v.

End DeviceTerms.

(** A device that never answers: every command fails to run. *)
Definition silent : client.world (list client.spawn) :=
  {| client.network := []; client.events := [] |}.

Section ReaderTerms.
Import main.
Context `{IpAddress}.

(** The lines that, cleaned of comment and surrounding blanks, are not empty
    and pass the validation: what the device list is said to yield. *)
Definition valid_lines (lines : list string) : list chars :=
  List.filter
    (fun text => match text, ip_address text with
                 | _ :: _, Some _ => true
                 | _, _ => false
                 end)
    (map clean lines).

(** The text [read_router_ips] returns for a cleaned line. *)
Definition canonical_text (text : chars) : string :=
  match ip_address text with
  | Some ip => ip
  | None => str_of text
  end.

End ReaderTerms.

(** A device list with one malformed line, a blank line and two addresses,
    one of them followed by a comment. *)
Definition routers_txt : main.filesystem :=
  fun filename =>
    if String.eqb filename "routers.txt"
    then Some ["10.0.0.1"; "not-an-address"; "   "; "10.0.0.2   # edge router"]
    else None.

Section OrchestratorTerms.
Import main.

(** What every task keeps true of the shared tally: the counter counts the
    addresses in [counted], and [counted] and [failed_routers] together hold
    the addresses handled so far. *)
Definition tallies (handled : list string) (t : tally) : Prop :=
  successful_count t = List.length (counted t) /\
  Permutation (counted t ++ failed_routers t) handled.

End OrchestratorTerms.

Section StoreTerms.
Import connection interface_dao.

(** The state in which [db_connection] hands its connection to the body:
    after at most two failed attempts, each followed by a pause of half a
    second; [None] when the third attempt fails too. *)
Fixpoint connect_loop (max_retries attempts_left retry_count : nat) (s : store)
  : option store :=
  match attempts_left with
  | O => None
  | S n =>
      match get_connection s with
      | (Ret _, s1) => Some s1
      | (Raise _, s1) =>
          if max_retries <=? S retry_count then None
          else connect_loop max_retries n (S retry_count)
                            (snd (connection.time_sleep 500 s1))
      end
  end.

Definition connected (s : store) : option store := connect_loop 3 3 0 s.

(** The tables are what they were. *)
Definition same_tables (s s' : store) : Prop :=
  interfaces s' = interfaces s /\ interface_stats s' = interface_stats s.

(** A computation that leaves the tables as they were. *)
Definition keeps_tables {A : Type} (c : db A) : Prop :=
  forall s, same_tables s (snd (c s)).

(** The store after some exchanges and pauses. *)
Definition later (remaining : list bool) (pauses : list Z) (s : store) : store :=
  {| interfaces := interfaces s; interface_stats := interface_stats s;
     uncommitted := uncommitted s; faults := remaining;
     slept := slept s ++ pauses; now := now s |}.

(** The pauses of [execute_with_retry] after the failures number
    [first], ..., [first + count - 1]: half a second times two to the number
    of the failure. *)
Definition backoffs (first count : nat) : list Z :=
  map (fun attempt => (500 * 2 ^ Z.of_nat attempt)%Z) (seq first count).

End StoreTerms.

(** A store that knows interface 1 of router 1, and a batch of one sample
    for it. *)
Definition one_interface : connection.store :=
  {| connection.interfaces :=
       [{| connection.interface_id := 10; connection.router_id := 1;
           connection.ifIndex := 1 |}];
     connection.interface_stats := [];
     connection.uncommitted := [];
     connection.faults := [];
     connection.slept := [];
     connection.now := "2026-01-01 00:00:00" |}.

(** One sample, for interface 1. *)
Definition one_sample : list (dict value) :=
  [[("ifIndex", VInt 1); ("ifAdminStatus", VInt 1); ("ifOperStatus", VInt 1);
    ("ifInOctets", VInt 1000); ("ifOutOctets", VInt 2000);
    ("ifHCInOctets", VInt 1000); ("ifHCOutOctets", VInt 2000)]].

(** Both connections and the lookup succeed, then the insert fails once. *)
Definition insert_fails_once : connection.store :=
  connection.with_faults [false; false; false; true] one_interface.

Section PartitionTerms.
Import schema.
Local Open Scope Z_scope.

(** The names of the partitions of a table. *)
Definition names (table : list partition) : list partition_name := map name table.

(** A partition other than [p_default]. *)
Definition dated (p : partition) : Prop := name p <> p_default.

(** Every dated partition ends after the day it is named for. *)
Definition well_formed (table : list partition) : Prop :=
  forall p start, In p table -> name p = p_ start -> start < less_than p.

(** [count] consecutive integers from [i] on. *)
Fixpoint upfrom (i : Z) (count : nat) : list Z :=
  match count with
  | O => []
  | S count' => i :: upfrom (i + 1) count'
  end.

(** The partition the seed step creates for the interval number [i]. *)
Definition seeded (current_date interval_days i : Z) : partition :=
  {| name := p_ (current_date + i * interval_days);
     less_than := current_date + (i + 1) * interval_days |}.

End PartitionTerms.

Section UtilizationTerms.
Import utilization.

(** Counters are unsigned quantities. *)
Definition unsigned_counters (x : sample) : Prop :=
  (0 <= ifInOctets x /\ 0 <= ifOutOctets x /\
   0 <= ifHCInOctets x /\ 0 <= ifHCOutOctets x)%Z.

End UtilizationTerms.

(** A counter reset between two samples a minute apart. *)
Definition before_reset : utilization.sample :=
  {| utilization.timestamp := 0;
     utilization.ifInOctets := 0; utilization.ifOutOctets := 0;
     utilization.ifHCInOctets := 1800000; utilization.ifHCOutOctets := 900000 |}.

(** The sample after the reset. *)
Definition after_reset : utilization.sample :=
  {| utilization.timestamp := 60;
     utilization.ifInOctets := 0; utilization.ifOutOctets := 0;
     utilization.ifHCInOctets := 6000; utilization.ifHCOutOctets := 950000 |}.

(** * Further vocabulary *)

Section StoreTermsMore.
Import connection interface_dao.

(** The exceptions a computation can raise are among [allowed]. *)
Definition only_raises {A : Type} (allowed : exn -> bool) (c : db A) : Prop :=
  forall s e s', c s = (Raise e, s') -> allowed e = true.

(** [RuntimeError] and nothing else *)
Definition is_runtime_error (e : exn) : bool :=
  match e with RuntimeError => true | _ => false end.

Definition error_or_runtime_error (e : exn) : bool := Error e || is_runtime_error e.

(** The mapping from interface index to storage id that the rows of a router
    make, a later row winning over an earlier one with the same index. *)
Definition interface_map_of (router : Z) (s : store) : int_dict Z :=
  fold_left (fun interface_map row =>
               int_set (ifIndex row) (interface_id row) interface_map)
            (List.filter (fun row => (router_id row =? router)%Z) (interfaces s))
            [].

(** The samples of a batch whose interface index the mapping knows. *)
Definition known (interface_map : int_dict Z) (interface : dict value) : bool :=
  match index_of interface with
  | Some if_index => int_mem if_index interface_map
  | None => false
  end.

End StoreTermsMore.

Section SchemaMore.
Import schema.
Local Open Scope Z_scope.

(** [TO_DAYS('2020-01-01')], the bound of [p_default] *)
Definition default_bound : Z := 737790.

(** The part of [create_database_tables] that deals with the partitions of
    [interface_stats], every statement being accepted by the server.
    [interface_stats] is the list of its partitions, [None] while the table
    does not exist; a table created without partitioning has none.  The
    result is what the call returns or raises and the partitions it leaves:
    the statements that change partitions commit by themselves. *)
Definition create_database_tables (current_date interval_days : Z)
           (interface_stats : option (list partition)) : result bool * list partition :=
  let table :=
    match interface_stats with
    | Some table => table
    | None =>
        (* Create interface_stats table with partitioning if needed *)
        let created :=
          if 0 <? interval_days
          then [{| name := p_default; less_than := default_bound |}]
          else [] in
        (* Create partitions for current and future periods *)
        if 0 <? interval_days
        then create_time_partitions current_date interval_days 6 created
        else created
    end in
  (* Add a maintenance function to add new partitions as time progresses *)
  if 0 <? interval_days
  then
    match maintain_partitions current_date interval_days table with
    | (Ret _, table') => (Ret true, table')
    | (Raise e, table') => if Error e then (Ret false, table') else (Raise e, table')
    end
  else (Ret true, table).

End SchemaMore.

Section ParserTermsMore.

(** The markers of the types whose value [parse_snmp_value] reads as a plain
    integer. *)
Definition integer_markers : list string :=
  ["INTEGER:"; "Counter32:"; "Counter64:"; "Gauge32:"].

(** [marker digits], with any white space between the two. *)
Definition typed (marker : string) (ws ds : chars) : string :=
  str_of (chars_of marker ++ ws ++ ds).

(** A capital letter. *)
Definition is_upper (c : ascii) : bool := (65 <=? code c) && (code c <=? 90).

(** [Timeticks: (ticks) rest] *)
Definition timeticks (ws ticks rest : chars) : string :=
  str_of (chars_of "Timeticks:" ++ ws ++ "("%char :: ticks ++ ")"%char :: rest).

(** The text has no dot. *)
Definition dotless (index : string) : Prop := ~ In "."%char (chars_of index).

End ParserTermsMore.

Section ClientTermsMore.
Import client.

(** A series of queries with the same tool, one command per identifier, each
    followed by the pause between requests. *)
Definition queries (tool router_ip community : string) (port timeout retries : Z)
           (request_interval : Q) (oids : list string) : list event :=
  flat_map (fun oid => [Exec (command tool router_ip oid community port timeout retries);
                        Sleep request_interval])
           oids.

(** Every record of [interfaces] has exactly the fields [fields], in that
    order, and holds under [ifIndex] the index it is filed under. *)
Definition shaped (fields : list string) (interfaces : dict (dict value)) : Prop :=
  forall index record,
    get index interfaces = Some record ->
    keys record = fields /\ get "ifIndex" record = Some (VStr index).

(** The fields of an assembled interface, in the order in which
    [get_monitored_interfaces] binds them. *)
Definition interface_fields : list string :=
  ["ifIndex"; "ifType"; "ipAddress"; "ipAdEntIfIndex"; "ifDescr"; "ifName"; "ifMTU";
   "ifSpeed"; "ifPhysAddress"; "ifAdminStatus"; "ifOperStatus"; "ifInOctets";
   "ifOutOctets"; "ifHCInOctets"; "ifHCOutOctets"; "ifHighSpeed"; "ifAlias";
   "ipAddresses"].

(** The tables [get_monitored_interfaces] walks when it finds interfaces to
    monitor, in order. *)
Definition walked_tables : list string :=
  ["ifType"; "ipAddress"; "ipAdEntIfIndex"; "ifDescr"; "ifName"; "ifMTU"; "ifSpeed";
   "ifPhysAddress"; "ifAdminStatus"; "ifOperStatus"; "ifInOctets"; "ifOutOctets";
   "ifHCInOctets"; "ifHCOutOctets"; "ifHighSpeed"; "ifAlias"; "ipAddress";
   "ipAdEntIfIndex"].

(** The attributes the loop over [OID_CONSTANTS] walks: not [ifIndex], not
    [ifType], no system attribute. *)
Definition walked (item : string * string) : bool :=
  negb (String.eqb (fst item) "ifIndex" || String.eqb (fst item) "ifType"
        || sys_prefixed (fst item)).

End ClientTermsMore.

Section UtilizationTermsMore.
Import utilization.
Local Open Scope Z_scope.

(** Each sample is later than the one before it. *)
Fixpoint ascending (prev : sample) (rest : list sample) : Prop :=
  match rest with
  | [] => True
  | curr :: rest' => timestamp prev < timestamp curr /\ ascending curr rest'
  end.

Definition in_order (stats : list sample) : Prop :=
  match stats with
  | [] => True
  | first :: rest => ascending first rest
  end.

(** The interface reports the non-zero speed [speed]: as its high speed, or,
    where that is NULL or zero, as its speed. *)
Definition reports_speed (i : interface) (speed : Z) : Prop :=
  speed <> 0 /\
  (ifHighSpeed i = Some speed \/
   ((ifHighSpeed i = None \/ ifHighSpeed i = Some 0) /\ ifSpeed i = Some speed)).

End UtilizationTermsMore.

(** * Properties *)

(** ** Text *)

Section Text.

Lemma span_all (p : ascii -> bool) (cs : chars) :
  forallb p (fst (span p cs)) = true.
Proof.
  induction cs as [|c r IH]; simpl; [reflexivity|].
  destruct (p c) eqn:E; [|reflexivity].
  destruct (span p r); simpl in *. now rewrite E.
Qed.

Lemma digit_not_space (c : ascii) : is_digit c = true -> is_space c = false.
Proof.
  unfold is_digit, is_space. intros Hd.
  apply andb_true_iff in Hd as [H1 H2].
  apply Nat.leb_le in H1, H2.
  repeat match goal with
         | |- context [(?a <=? ?b)] => destruct (Nat.leb_spec a b)
         | |- context [(?a =? ?b)] => destruct (Nat.eqb_spec a b)
         end; simpl; try reflexivity; lia.
Qed.

Lemma lstrip_digits (cs : chars) :
  forallb is_digit cs = true -> lstrip cs = cs.
Proof.
  destruct cs as [|c r]; simpl; [reflexivity|].
  intros Hd. apply andb_true_iff in Hd as [Hc _].
  now rewrite (digit_not_space c Hc).
Qed.

Lemma forallb_rev {A : Type} (p : A -> bool) (l : list A) :
  forallb p (rev l) = forallb p l.
Proof.
  induction l as [|a l IH]; simpl; [reflexivity|].
  rewrite forallb_app, IH. simpl. rewrite andb_true_r. apply andb_comm.
Qed.

Lemma strip_digits (cs : chars) :
  forallb is_digit cs = true -> strip cs = cs.
Proof.
  intros Hd. unfold strip, rstrip.
  rewrite (lstrip_digits cs Hd).
  rewrite lstrip_digits by now rewrite forallb_rev.
  apply rev_involutive.
Qed.

Lemma digits_value_digits (cs : chars) (acc : Z) (b : bool) :
  forallb is_digit cs = true -> (cs <> [] \/ b = true) ->
  exists z, digits_value acc b cs = Some z.
Proof.
  revert acc b. induction cs as [|c r IH]; intros acc b Hd Hne; simpl.
  - destruct Hne as [Hne | ->]; [contradiction|]. eauto.
  - simpl in Hd. apply andb_true_iff in Hd as [Hc Hr].
    rewrite Hc. apply IH; [assumption | now right].
Qed.

Lemma digit_not_sign (c : ascii) :
  is_digit c = true -> ascii_eqb c "-" = false /\ ascii_eqb c "+" = false.
Proof.
  unfold is_digit, ascii_eqb. intros Hd.
  apply andb_true_iff in Hd as [H1 H2].
  apply Nat.leb_le in H1, H2.
  split.
  - destruct (Ascii.eqb_spec c "-"); [subst; vm_compute in H1; lia | reflexivity].
  - destruct (Ascii.eqb_spec c "+"); [subst; vm_compute in H1; lia | reflexivity].
Qed.

(** [int] accepts every non-empty run of digits. *)
Lemma digit_not_numeral_space (c : ascii) :
  is_digit c = true -> is_numeral_space c = false.
Proof.
  unfold is_digit, is_numeral_space. intros Hd.
  apply andb_true_iff in Hd as [H1 H2].
  apply Nat.leb_le in H1, H2.
  repeat match goal with
         | |- context [(?a <=? ?b)] => destruct (Nat.leb_spec a b)
         | |- context [(?a =? ?b)] => destruct (Nat.eqb_spec a b)
         end; simpl; try reflexivity; lia.
Qed.

Lemma lstrip_numeral_digits (cs : chars) :
  forallb is_digit cs = true -> lstrip_numeral cs = cs.
Proof.
  destruct cs as [|c r]; simpl; [reflexivity|].
  intros Hd. apply andb_true_iff in Hd as [Hc _].
  now rewrite (digit_not_numeral_space c Hc).
Qed.

Lemma strip_numeral_digits (cs : chars) :
  forallb is_digit cs = true -> strip_numeral cs = cs.
Proof.
  intros Hd. unfold strip_numeral.
  rewrite (lstrip_numeral_digits cs Hd).
  rewrite lstrip_numeral_digits by now rewrite forallb_rev.
  apply rev_involutive.
Qed.

Lemma digit_count_digits (cs : chars) :
  forallb is_digit cs = true -> digit_count cs = List.length cs.
Proof.
  unfold digit_count. induction cs as [|c r IH]; simpl; [reflexivity|].
  intros Hd. apply andb_true_iff in Hd as [Hc Hr]. rewrite Hc. simpl. now rewrite IH.
Qed.

(** What [int] makes of a run of digits: its value when the run has at most
    4300 digits, a [ValueError] when it has more. *)
Lemma int_of_str_run (cs : chars) :
  forallb is_digit cs = true -> cs <> [] ->
  exists z,
    int_of_str cs
    = if int_max_str_digits <? List.length cs then Raise ValueError else Ret z.
Proof.
  intros Hd Hne. unfold int_of_str. rewrite (strip_numeral_digits cs Hd).
  pose proof (digit_count_digits cs Hd) as Hcount.
  destruct cs as [|c r]; [contradiction|].
  assert (Hc : is_digit c = true) by (simpl in Hd; now apply andb_true_iff in Hd).
  unfold split_sign. destruct (digit_not_sign c Hc) as [-> ->].
  destruct (digits_value_digits (c :: r) 0 false Hd) as [z Hz]; [now left|].
  rewrite Hz, Hcount. exists z. reflexivity.
Qed.

Lemma int_of_str_digits (cs : chars) :
  forallb is_digit cs = true -> cs <> [] -> List.length cs <= int_max_str_digits ->
  exists z, int_of_str cs = Ret z.
Proof.
  intros Hd Hne Hlen. destruct (int_of_str_run cs Hd Hne) as [z Hz].
  exists z. rewrite Hz. destruct (Nat.ltb_spec int_max_str_digits (List.length cs)); [lia|].
  reflexivity.
Qed.

Lemma int_of_str_long (cs : chars) :
  forallb is_digit cs = true -> int_max_str_digits < List.length cs ->
  int_of_str cs = Raise ValueError.
Proof.
  intros Hd Hlen.
  assert (Hne : cs <> []) by (intros ->; simpl in Hlen; lia).
  destruct (int_of_str_run cs Hd Hne) as [z Hz]. rewrite Hz.
  destruct (Nat.ltb_spec int_max_str_digits (List.length cs)); [reflexivity | lia].
Qed.

(** [int] on a string raises nothing but [ValueError]. *)
Lemma int_of_str_value_error (cs : chars) (e : exn) :
  int_of_str cs = Raise e -> e = ValueError.
Proof.
  unfold int_of_str. destruct (split_sign _) as [neg body].
  destruct (digits_value 0 false body); [|now intros [= <-]].
  destruct (_ <? _); [now intros [= <-] | discriminate].
Qed.

End Text.

(** ** Dictionaries *)

Section Dict.
Context {V : Type}.
Implicit Types (d : dict V) (k : string) (v : V).

Lemma get_set_eq d k v : get k (set k v d) = Some v.
Proof.
  induction d as [|[k' v'] r IH]; simpl.
  - now rewrite String.eqb_refl.
  - destruct (String.eqb_spec k' k) as [->|Hne]; simpl.
    + now rewrite String.eqb_refl.
    + destruct (String.eqb_spec k' k); [contradiction | exact IH].
Qed.

Lemma get_set_ne d k k' v : k <> k' -> get k' (set k v d) = get k' d.
Proof.
  intros Hne. induction d as [|[k0 v0] r IH]; simpl.
  - destruct (String.eqb_spec k k'); [contradiction | reflexivity].
  - destruct (String.eqb_spec k0 k) as [->|Hk]; simpl.
    + destruct (String.eqb_spec k k'); [contradiction | reflexivity].
    + destruct (String.eqb_spec k0 k'); [reflexivity | exact IH].
Qed.

Lemma get_none_keys d k : get k d = None <-> ~ In k (keys d).
Proof.
  induction d as [|[k0 v0] r IH]; simpl.
  - split; [intros _ [] | reflexivity].
  - destruct (String.eqb_spec k0 k) as [->|Hk].
    + split; [discriminate | intros Hn; exfalso; apply Hn; now left].
    + rewrite IH. split; [intros Hn [?|?]; [contradiction | now apply Hn]
                         | intros Hn Hin; apply Hn; now right].
Qed.

Lemma keys_set_new d k v : get k d = None -> keys (set k v d) = keys d ++ [k].
Proof.
  induction d as [|[k0 v0] r IH]; simpl; [reflexivity|].
  destruct (String.eqb_spec k0 k) as [->|Hk]; [discriminate|].
  intros Hn. simpl. now rewrite (IH Hn).
Qed.

Lemma keys_set_old d k v : get k d <> None -> keys (set k v d) = keys d.
Proof.
  induction d as [|[k0 v0] r IH]; simpl; [contradiction|].
  destruct (String.eqb_spec k0 k) as [->|Hk]; [reflexivity|].
  intros Hn. simpl. now rewrite (IH Hn).
Qed.

End Dict.

(** ** snmp/parsers.py *)

Section Parsers.
Import parsers.
Context `{FloatOps}.

Lemma chars_str (cs : chars) : chars_of (str_of cs) = cs.
Proof. apply list_ascii_of_string_of_list_ascii. Qed.

Lemma strip_prefix_app (p r : chars) : strip_prefix p (p ++ r) = Some r.
Proof.
  induction p as [|a p IH]; simpl; [now destruct r|].
  unfold ascii_eqb. now rewrite Ascii.eqb_refl.
Qed.

Lemma lstrip_spaces (ws r : chars) :
  forallb is_space ws = true -> lstrip (ws ++ r) = lstrip r.
Proof.
  induction ws as [|c ws IH]; simpl; [reflexivity|].
  intros Hs. apply andb_true_iff in Hs as [Hc Hws]. rewrite Hc. now apply IH.
Qed.

Lemma span_digits (ds rest : chars) :
  forallb is_digit ds = true ->
  match rest with c :: _ => is_digit c = false | [] => True end ->
  span is_digit (ds ++ rest) = (ds, rest).
Proof.
  intros Hd Hrest. induction ds as [|d ds IH]; simpl.
  - destruct rest as [|c r]; [reflexivity|]. simpl. now rewrite Hrest.
  - simpl in Hd. apply andb_true_iff in Hd as [Hc Hds]. rewrite Hc, (IH Hds). reflexivity.
Qed.

Lemma search_head {A : Type} (pat : chars -> option A) (cs : chars) (a : A) :
  pat cs = Some a -> search pat cs = Some a.
Proof. intros Hp. destruct cs; simpl; now rewrite Hp. Qed.

(** A pattern that only matches text beginning with a character of a kind
    finds nothing in text without such a character. *)
Lemma search_none {A : Type} (pat : chars -> option A) (first : ascii -> bool)
      (cs : chars) :
  (forall cs' a, pat cs' = Some a -> exists c r, cs' = c :: r /\ first c = true) ->
  forallb (fun c => negb (first c)) cs = true ->
  search pat cs = None.
Proof.
  intros Hpat. induction cs as [|c r IH]; simpl.
  - intros _. destruct (pat []) as [a|] eqn:E; [|reflexivity].
    destruct (Hpat _ _ E) as (c & r & Hnil & _). discriminate.
  - intros Hall. apply andb_true_iff in Hall as [Hc Hr].
    destruct (pat (c :: r)) as [a|] eqn:E.
    + destruct (Hpat _ _ E) as (c' & r' & [= <- <-] & Hfirst).
      rewrite Hfirst in Hc. discriminate.
    + now apply IH.
Qed.

Lemma digits_after_head (marker : string) (m : ascii) (ms : chars) (cs g : chars) :
  chars_of marker = m :: ms ->
  digits_after marker cs = Some g -> exists c r, cs = c :: r /\ ascii_eqb m c = true.
Proof.
  intros Hm. unfold digits_after. rewrite Hm.
  destruct cs as [|c r]; simpl; [discriminate|].
  destruct (ascii_eqb m c) eqn:E; [|discriminate]. intros _. eauto.
Qed.

Lemma int_re_head (cs g : chars) :
  int_re cs = Some g -> exists c r, cs = c :: r /\ ascii_eqb "I" c = true.
Proof. apply (digits_after_head "INTEGER:" "I" (chars_of "NTEGER:")). reflexivity. Qed.

Lemma counter_re_head (cs g : chars) :
  counter_re cs = Some g ->
  exists c r, cs = c :: r /\ (ascii_eqb "C" c || ascii_eqb "G" c) = true.
Proof.
  unfold counter_re.
  destruct (digits_after "Counter32:" cs) as [g1|] eqn:E1.
  { intros _.
    destruct (digits_after_head "Counter32:" "C" (chars_of "ounter32:") cs g1 eq_refl E1)
      as (c & r & -> & Hc).
    exists c, r. now rewrite Hc. }
  destruct (digits_after "Counter64:" cs) as [g2|] eqn:E2.
  { intros _.
    destruct (digits_after_head "Counter64:" "C" (chars_of "ounter64:") cs g2 eq_refl E2)
      as (c & r & -> & Hc).
    exists c, r. now rewrite Hc. }
  intros E3.
  destruct (digits_after_head "Gauge32:" "G" (chars_of "auge32:") cs g eq_refl E3)
    as (c & r & -> & Hc).
  exists c, r. split; [reflexivity|]. rewrite Hc. apply orb_true_r.
Qed.

Lemma digits_after_typed (marker : string) (ws ds rest : chars) :
  forallb is_space ws = true -> digit_run ds ->
  match rest with c :: _ => is_digit c = false | [] => True end ->
  digits_after marker (chars_of marker ++ ws ++ ds ++ rest) = Some ds.
Proof.
  intros Hws [Hd Hne] Hrest. unfold digits_after.
  rewrite strip_prefix_app, (lstrip_spaces _ _ Hws).
  destruct ds as [|d ds]; [contradiction|].
  assert (Hd0 : is_digit d = true) by (simpl in Hd; now apply andb_true_iff in Hd).
  change ((d :: ds) ++ rest) with (d :: (ds ++ rest)). cbn [lstrip].
  rewrite (digit_not_space d Hd0).
  change (d :: ds ++ rest) with ((d :: ds) ++ rest).
  now rewrite (span_digits _ _ Hd Hrest).
Qed.

Lemma typed_not_special (cs : chars) :
  match cs with c :: _ => c <> "S"%char /\ c <> quote | [] => False end ->
  (String.eqb (str_of cs) "" || String.eqb (str_of cs) "STRING:") = false /\
  startswith [quote] cs = false.
Proof.
  destruct cs as [|c r]; [intros []|]. intros [HS Hq]. split.
  - destruct (String.eqb_spec (str_of (c :: r)) "") as [E|_]; [discriminate E|].
    destruct (String.eqb_spec (str_of (c :: r)) "STRING:") as [E|_]; [|reflexivity].
    injection E as E _. contradiction.
  - unfold startswith, strip_prefix, ascii_eqb.
    destruct (Ascii.eqb_spec quote c) as [E|_]; [|reflexivity]. now subst.
Qed.

Lemma search_some {A : Type} (pat : chars -> option A) (cs : chars) (a : A) :
  search pat cs = Some a -> exists suffix, pat suffix = Some a.
Proof.
  induction cs as [|c r IH]; simpl.
  - destruct (pat []) eqn:E; [|discriminate]. intros [= ->]. eauto.
  - destruct (pat (c :: r)) eqn:E.
    + intros [= ->]. eauto.
    + exact IH.
Qed.

Lemma digits_after_run (marker : string) (cs ds : chars) :
  digits_after marker cs = Some ds -> digit_run ds.
Proof.
  unfold digits_after.
  destruct (strip_prefix (chars_of marker) cs) as [r|]; [|discriminate].
  pose proof (span_all is_digit (lstrip r)) as Hall.
  destruct (fst (span is_digit (lstrip r))) as [|d ds'] eqn:E; [discriminate|].
  intros [= <-]. split; [exact Hall | discriminate].
Qed.

Lemma counter_re_run (cs ds : chars) : counter_re cs = Some ds -> digit_run ds.
Proof.
  unfold counter_re.
  destruct (digits_after "Counter32:" cs) eqn:E1.
  { intros [= <-]. eapply digits_after_run; eassumption. }
  destruct (digits_after "Counter64:" cs) eqn:E2.
  { intros [= <-]. eapply digits_after_run; eassumption. }
  apply digits_after_run.
Qed.

Lemma timeticks_re_run (cs ds : chars) : timeticks_re cs = Some ds -> digit_run ds.
Proof.
  unfold timeticks_re.
  destruct (strip_prefix (chars_of "Timeticks:") cs) as [r|]; [|discriminate].
  destruct (lstrip r) as [|c r']; [discriminate|].
  destruct (ascii_eqb c "("); [|discriminate].
  pose proof (span_all is_digit r') as Hall.
  destruct (span is_digit r') as [[|d ds'] [|c' rest]]; try discriminate.
  destruct (ascii_eqb c' ")"); [|discriminate].
  intros [= <-]. split; [exact Hall | discriminate].
Qed.

Lemma chars_length (s : string) : List.length (chars_of s) = String.length s.
Proof. induction s as [|c s IH]; simpl; [reflexivity | now rewrite IH]. Qed.

Lemma search_within {A : Type} (pat : chars -> option A) (cs : chars) (a : A) :
  search pat cs = Some a ->
  exists suffix, pat suffix = Some a /\ List.length suffix <= List.length cs.
Proof.
  induction cs as [|c r IH]; simpl.
  - destruct (pat []) eqn:E; [|discriminate]. intros [= ->]. exists []. auto.
  - destruct (pat (c :: r)) eqn:E.
    + intros [= ->]. exists (c :: r). auto.
    + intros Hs. destruct (IH Hs) as (sfx & Hp & Hl). exists sfx. split; [exact Hp | lia].
Qed.

Lemma strip_prefix_length (p cs r : chars) :
  strip_prefix p cs = Some r -> List.length r <= List.length cs.
Proof.
  revert cs. induction p as [|a p IH]; intros cs; simpl.
  - intros [= ->]. lia.
  - destruct cs as [|c cs]; [discriminate|]. destruct (ascii_eqb a c); [|discriminate].
    intros Hp. apply IH in Hp. simpl. lia.
Qed.

Lemma lstrip_length (cs : chars) : List.length (lstrip cs) <= List.length cs.
Proof.
  induction cs as [|c r IH]; simpl; [lia|]. destruct (is_space c); simpl; lia.
Qed.

Lemma span_length (p : ascii -> bool) (cs : chars) :
  List.length (fst (span p cs)) + List.length (snd (span p cs)) = List.length cs.
Proof.
  induction cs as [|c r IH]; simpl; [reflexivity|].
  destruct (p c); [|reflexivity]. destruct (span p r); simpl in *. lia.
Qed.

Lemma digits_after_length (marker : string) (cs ds : chars) :
  digits_after marker cs = Some ds -> List.length ds <= List.length cs.
Proof.
  unfold digits_after.
  destruct (strip_prefix (chars_of marker) cs) as [r|] eqn:Ep; [|discriminate].
  pose proof (strip_prefix_length _ _ _ Ep). pose proof (lstrip_length r).
  pose proof (span_length is_digit (lstrip r)).
  destruct (fst (span is_digit (lstrip r))) as [|d ds'] eqn:E; [discriminate|].
  intros [= <-]. lia.
Qed.

Lemma counter_re_length (cs ds : chars) :
  counter_re cs = Some ds -> List.length ds <= List.length cs.
Proof.
  unfold counter_re.
  destruct (digits_after "Counter32:" cs) eqn:E1.
  { intros [= <-]. eapply digits_after_length; eassumption. }
  destruct (digits_after "Counter64:" cs) eqn:E2.
  { intros [= <-]. eapply digits_after_length; eassumption. }
  apply digits_after_length.
Qed.

Lemma timeticks_re_length (cs ds : chars) :
  timeticks_re cs = Some ds -> List.length ds <= List.length cs.
Proof.
  unfold timeticks_re.
  destruct (strip_prefix (chars_of "Timeticks:") cs) as [r|] eqn:Ep; [|discriminate].
  pose proof (strip_prefix_length _ _ _ Ep). pose proof (lstrip_length r).
  destruct (lstrip r) as [|c r']; [discriminate|].
  destruct (ascii_eqb c "("); [|discriminate].
  pose proof (span_length is_digit r').
  destruct (span is_digit r') as [[|d ds'] [|c' rest]]; try discriminate.
  destruct (ascii_eqb c' ")"); [|discriminate].
  intros [= <-]. simpl in *. lia.
Qed.

(** [float] on a string raises nothing but [ValueError]. *)
Lemma float_of_str_value_error (cs : chars) (e : exn) :
  float_of_str cs = Raise e -> e = ValueError.
Proof.
  unfold float_of_str. destruct (split_sign _) as [neg body].
  destruct (_ || _); [discriminate|].
  destruct (chars_eqb _ _); [discriminate|].
  destruct (float_literal _); [discriminate | now intros [= <-]].
Qed.

(** What [parse_snmp_value] does with the digits a pattern captured. *)
Lemma captured_outcome (g : chars) :
  (exists v, match int_of_str g with Ret z => Ret (VInt z) | Raise e => Raise e end
             = Ret v /\ v <> VNone) \/
  match int_of_str g with Ret z => Ret (VInt z) | Raise e => Raise e end
  = Raise ValueError.
Proof.
  destruct (int_of_str g) as [z|e] eqn:E.
  - left. eexists. split; [reflexivity | discriminate].
  - right. now rewrite (int_of_str_value_error g e E).
Qed.

(** [parse_snmp_value] either returns a string, an integer or a float, never
    [None], or raises [ValueError]. *)
Lemma parse_snmp_value_outcome (value_str : string) :
  (exists v, parse_snmp_value value_str = Ret v /\ v <> VNone) \/
  parse_snmp_value value_str = Raise ValueError.
Proof.
  unfold parse_snmp_value.
  destruct (_ || _); [left; eexists; split; [reflexivity | discriminate]|].
  destruct (_ && _); [left; eexists; split; [reflexivity | discriminate]|].
  destruct (search int_re _) as [g|]; [apply captured_outcome|].
  destruct (search counter_re _) as [g|]; [apply captured_outcome|].
  destruct (search timeticks_re _) as [g|]; [apply captured_outcome|].
  destruct (search hex_re _) as [g|].
  { left. destruct (_ =? _); eexists; (split; [reflexivity | discriminate]). }
  destruct (search ip_re _) as [g|].
  { left. eexists; split; [reflexivity | discriminate]. }
  destruct (int_of_str _) as [z|e] eqn:Ei.
  { left. eexists; split; [reflexivity | discriminate]. }
  rewrite (int_of_str_value_error _ _ Ei).
  destruct (float_of_str _) as [f|e'] eqn:Ef.
  { left. eexists; split; [reflexivity | discriminate]. }
  rewrite (float_of_str_value_error _ _ Ef).
  left. eexists; split; [reflexivity | discriminate].
Qed.

(** On a text of at most 4300 characters [parse_snmp_value] returns. *)
Lemma parse_snmp_value_short (value_str : string) :
  String.length value_str <= int_max_str_digits ->
  exists v, parse_snmp_value value_str = Ret v /\ v <> VNone.
Proof.
  intros Hlen. rewrite <- chars_length in Hlen.
  destruct (parse_snmp_value_outcome value_str) as [Hret|Hraise]; [exact Hret|].
  exfalso. revert Hraise. unfold parse_snmp_value.
  assert (Hcaptured : forall g,
             digit_run g -> List.length g <= List.length (chars_of value_str) ->
             match int_of_str g with Ret z => Ret (VInt z) | Raise e => Raise e end
             <> Raise ValueError).
  { intros g [Hd Hne] Hg. destruct (int_of_str_digits g Hd Hne) as [z ->]; [lia|].
    discriminate. }
  destruct (_ || _); [discriminate|].
  destruct (_ && _); [discriminate|].
  destruct (search int_re _) as [g|] eqn:E1.
  { apply search_within in E1 as (sfx & E1 & Hs).
    apply Hcaptured; [eapply digits_after_run; exact E1|].
    apply digits_after_length in E1. lia. }
  destruct (search counter_re _) as [g|] eqn:E2.
  { apply search_within in E2 as (sfx & E2 & Hs).
    apply Hcaptured; [eapply counter_re_run; exact E2|].
    apply counter_re_length in E2. lia. }
  destruct (search timeticks_re _) as [g|] eqn:E3.
  { apply search_within in E3 as (sfx & E3 & Hs).
    apply Hcaptured; [eapply timeticks_re_run; exact E3|].
    apply timeticks_re_length in E3. lia. }
  destruct (search hex_re _) as [g|]; [destruct (_ =? _); discriminate|].
  destruct (search ip_re _) as [g|]; [discriminate|].
  destruct (int_of_str _) as [z|e] eqn:Ei; [discriminate|].
  rewrite (int_of_str_value_error _ _ Ei).
  destruct (float_of_str _) as [f|e'] eqn:Ef; [discriminate|].
  rewrite (float_of_str_value_error _ _ Ef). discriminate.
Qed.

(** A value marked as an integer and followed by a run of digits: what
    [parse_snmp_value] returns is what [int] makes of the digits. *)
Lemma parse_snmp_value_typed (marker : string) (ws ds : chars) :
  In marker integer_markers -> forallb is_space ws = true -> digit_run ds ->
  parse_snmp_value (typed marker ws ds)
  = match int_of_str ds with Ret z => Ret (VInt z) | Raise e => Raise e end.
Proof.
  intros Hmarker Hws Hrun.
  assert (Hplain : forallb (fun c => negb (ascii_eqb "I" c)) (ws ++ ds) = true).
  { rewrite forallb_app. apply andb_true_iff. split; apply forallb_forall; intros c Hc.
    - pose proof (proj1 (forallb_forall _ _) Hws c Hc) as Hsp.
      unfold ascii_eqb. destruct (Ascii.eqb_spec "I" c) as [<-|_]; [discriminate Hsp|].
      reflexivity.
    - pose proof (proj1 (forallb_forall _ _) (proj1 Hrun) c Hc) as Hdg.
      unfold ascii_eqb. destruct (Ascii.eqb_spec "I" c) as [<-|_]; [discriminate Hdg|].
      reflexivity. }
  assert (Hmatch : forall m, digits_after m (chars_of m ++ ws ++ ds) = Some ds).
  { intros m. rewrite <- (app_nil_r ds) at 1. now apply digits_after_typed. }
  assert (Hint : forall m,
             forallb (fun c => negb (ascii_eqb "I" c)) (chars_of m) = true ->
             search int_re (chars_of m ++ ws ++ ds) = None).
  { intros m Hm. apply (search_none int_re (ascii_eqb "I") _ int_re_head).
    now rewrite forallb_app, Hm, Hplain. }
  unfold typed, parse_snmp_value. rewrite chars_str.
  destruct Hmarker as [<-|[<-|[<-|[<-|[]]]]].
  - destruct (typed_not_special (chars_of "INTEGER:" ++ ws ++ ds)) as [-> ->];
      [split; discriminate|]. cbn [andb].
    now rewrite (search_head int_re _ ds (Hmatch "INTEGER:")).
  - destruct (typed_not_special (chars_of "Counter32:" ++ ws ++ ds)) as [-> ->];
      [split; discriminate|]. cbn [andb].
    rewrite (Hint "Counter32:" eq_refl).
    rewrite (search_head counter_re _ ds); [reflexivity|].
    unfold counter_re. now rewrite (Hmatch "Counter32:").
  - destruct (typed_not_special (chars_of "Counter64:" ++ ws ++ ds)) as [-> ->];
      [split; discriminate|]. cbn [andb].
    rewrite (Hint "Counter64:" eq_refl).
    rewrite (search_head counter_re _ ds); [reflexivity|].
    unfold counter_re.
    replace (digits_after "Counter32:" (chars_of "Counter64:" ++ ws ++ ds))
      with (@None chars) by reflexivity.
    now rewrite (Hmatch "Counter64:").
  - destruct (typed_not_special (chars_of "Gauge32:" ++ ws ++ ds)) as [-> ->];
      [split; discriminate|]. cbn [andb].
    rewrite (Hint "Gauge32:" eq_refl).
    rewrite (search_head counter_re _ ds); [reflexivity|].
    unfold counter_re.
    replace (digits_after "Counter32:" (chars_of "Gauge32:" ++ ws ++ ds))
      with (@None chars) by reflexivity.
    replace (digits_after "Counter64:" (chars_of "Gauge32:" ++ ws ++ ds))
      with (@None chars) by reflexivity.
    now rewrite (Hmatch "Gauge32:").
Qed.

(** C2.  [parse_snmp_value] is not total.  The digits a typed pattern
    captures go to [int] without a guard, and [int] refuses a numeral of more
    than 4300 digits: on a value marked [INTEGER:], [Counter32:],
    [Counter64:] or [Gauge32:] and followed by such a run of digits the parser
    raises [ValueError] instead of returning a value. *)
Theorem long_numeral_raises (marker : string) (ws ds : chars) :
  In marker integer_markers -> forallb is_space ws = true ->
  forallb is_digit ds = true -> int_max_str_digits < List.length ds ->
  parse_snmp_value (typed marker ws ds) = Raise ValueError.
Proof.
  intros Hmarker Hws Hd Hlen.
  assert (Hrun : digit_run ds).
  { split; [exact Hd|]. intros ->. simpl in Hlen. lia. }
  rewrite (parse_snmp_value_typed marker ws ds Hmarker Hws Hrun).
  now rewrite (int_of_str_long ds Hd Hlen).
Qed.

End Parsers.

(** An integer of 4301 digits. *)
Lemma long_numeral_raises_witness :
  parsers.parse_snmp_value (typed "INTEGER:" (chars_of " ") (repeat "1"%char 4301))
  = Raise ValueError.
Proof.
  apply (long_numeral_raises "INTEGER:" (chars_of " ") (repeat "1"%char 4301)).
  - now left.
  - reflexivity.
  - vm_compute. reflexivity.
  - apply Nat.ltb_lt. vm_compute. reflexivity.
Defined.

(** ** snmp/client.py *)

Section Gateway.
Import parsers client.
Context {W : Type} `{Subprocess W} `{FloatOps}.

(** What [snmp_get] returns, whatever the transport does: what it read from
    the answer, and [None] where reading the answer raised. *)
Lemma snmp_get_spec (target oid community : string) (port timeout retries : Z)
      (w : world W) :
  let cmd := command "snmpget" target oid community port timeout retries in
  let answer := create_subprocess_exec cmd (network w) in
  exists v,
    snmp_get target oid community port timeout retries w
    = (Ret v, {| network := snd answer; events := events w ++ [Exec cmd] |}) /\
    (transport_failure (fst answer) = true -> v = VNone) /\
    (forall proc out, fst answer = Spawned proc -> returncode proc = 0%Z ->
                      stdout proc = Some out ->
                      read_response out = Ret v \/
                      (v = VNone /\ exists e, read_response out = Raise e)).
Proof.
  intros cmd answer. unfold snmp_get, try_except, bind, communicate.
  fold cmd. fold answer. destruct answer as [[proc|e] n]; simpl.
  - destruct (returncode proc =? 0)%Z eqn:Erc; simpl.
    + destruct (stdout proc) as [out|] eqn:Eout; simpl.
      * unfold lift. destruct (read_response out) as [v|e] eqn:Hv.
        -- exists v. split; [reflexivity|]. split; [discriminate|].
           intros proc' out' [= <-] _. rewrite Eout. intros [= <-]. left. exact Hv.
        -- exists VNone. split; [reflexivity|]. split; [reflexivity|].
           intros proc' out' [= <-] _. rewrite Eout. intros [= <-]. right.
           split; [reflexivity | eauto].
      * exists VNone. split; [reflexivity|]. split; [reflexivity|].
        intros proc' out' [= <-] _. rewrite Eout. discriminate.
    + exists VNone. destruct (stderr proc); simpl.
      * split; [reflexivity|]. split; [reflexivity|].
        intros proc' out' [= <-] Hz. rewrite Hz in Erc. discriminate.
      * split; [reflexivity|]. split; [reflexivity|].
        intros proc' out' [= <-] Hz. rewrite Hz in Erc. discriminate.
  - exists VNone. split; [reflexivity|]. split; [reflexivity|]. discriminate.
Qed.

(** What [snmp_walk] returns, whatever the transport does. *)
Lemma snmp_walk_spec (target oid community : string) (port timeout retries : Z)
      (w : world W) :
  let cmd := command "snmpwalk" target oid community port timeout retries in
  let answer := create_subprocess_exec cmd (network w) in
  exists m,
    snmp_walk target oid community port timeout retries w
    = (Ret m, {| network := snd answer; events := events w ++ [Exec cmd] |}) /\
    (transport_failure (fst answer) = true -> m = []).
Proof.
  intros cmd answer. unfold snmp_walk, try_except, bind, communicate.
  fold cmd. fold answer. destruct answer as [[proc|e] n]; simpl.
  - destruct (returncode proc =? 0)%Z eqn:Erc; simpl.
    + destruct (stdout proc) as [out|] eqn:Eout; simpl.
      * unfold lift.
        destruct (parse_snmp_walk_response (str_of (strip (chars_of out))))
          as [m|e] eqn:Hm.
        -- exists m. split; [reflexivity | discriminate].
        -- exists []. split; [reflexivity | discriminate].
      * exists []. split; reflexivity.
    + exists []. destruct (stderr proc); simpl; split; reflexivity.
  - exists []. split; reflexivity.
Qed.

(** C8.  Neither gateway operation raises: [snmp_get] always returns, and
    returns [None] when the transport fails or the answer carries a
    "No Such Object" / "No Such Instance" marker; [snmp_walk] always returns,
    and returns the empty mapping when the transport fails. *)
Theorem gateway_never_raises (target oid community : string)
        (port timeout retries : Z) (w : world W) :
  let get := snmp_get target oid community port timeout retries w in
  let walk := snmp_walk target oid community port timeout retries w in
  let got := create_subprocess_exec
               (command "snmpget" target oid community port timeout retries)
               (network w) in
  let walked := create_subprocess_exec
                  (command "snmpwalk" target oid community port timeout retries)
                  (network w) in
  (exists v, fst get = Ret v) /\
  (exists m, fst walk = Ret m) /\
  (transport_failure (fst got) = true -> fst get = Ret VNone) /\
  (forall proc out,
      fst got = Spawned proc -> returncode proc = 0%Z -> stdout proc = Some out ->
      not_found (strip (chars_of out)) = true -> fst get = Ret VNone) /\
  (transport_failure (fst walked) = true -> fst walk = Ret []).
Proof.
  intros get walk got walked.
  destruct (snmp_get_spec target oid community port timeout retries w)
    as (v & Hget & Hfail & Hread).
  destruct (snmp_walk_spec target oid community port timeout retries w)
    as (m & Hwalk & Hwfail).
  subst get walk. rewrite Hget, Hwalk. simpl.
  split; [eauto|]. split; [eauto|]. split; [|split].
  - intros Hf. now rewrite (Hfail Hf).
  - intros proc out Hp Hrc Hout Hnf.
    specialize (Hread proc out Hp Hrc Hout).
    unfold read_response in Hread. rewrite Hnf in Hread.
    destruct Hread as [Hread|[-> _]]; [congruence | reflexivity].
  - intros Hf. now rewrite (Hwfail Hf).
Qed.

End Gateway.

Section DeviceInfo.
Import parsers client constants.
Context {W : Type} `{Subprocess W} `{FloatOps}.

Lemma bound_not_none (v : value) : bound v <> VNone.
Proof. destruct v; discriminate. Qed.

Lemma device_info_loop_spec (items : list (string * string))
      (router_ip community : string) (port timeout retries : Z) (interval : Q)
      (d : dict value) (w : world W) :
  NoDup (map fst items) ->
  (forall name, In name (map fst items) -> get name d = None) ->
  exists d' w',
    device_info_loop items router_ip community port timeout retries interval d w
    = (Ret d', w') /\
    keys d' = keys d ++ sys_names items /\
    (forall k, ~ In k (sys_names items) -> get k d' = get k d) /\
    (forall name oid, In (name, oid) items -> sys_prefixed name = true ->
       exists w1 v,
         fst (snmp_get router_ip oid community port timeout retries w1) = Ret v /\
         get name d' = Some (bound v)).
Proof.
  revert d w. induction items as [|[name oid] rest IH]; intros d w Hnd Hfresh.
  - exists d, w. simpl. rewrite app_nil_r. repeat split; try reflexivity.
    intros ? ? [].
  - simpl in Hnd. apply NoDup_cons_iff in Hnd as [Hname Hnd].
    simpl. unfold sys_names. simpl.
    destruct (sys_prefixed name) eqn:Esys.
    + destruct (snmp_get_spec router_ip oid community port timeout retries w)
        as (v & Hget & _).
      unfold bind at 1. rewrite Hget. unfold bind at 1, sleep, modify. simpl.
      match goal with
      | |- context [device_info_loop rest _ _ _ _ _ _ ?d1 ?w1] =>
          destruct (IH d1 w1 Hnd) as (d' & w' & Hrun & Hkeys & Hkeep & Hsys)
      end.
      { intros n Hn. rewrite get_set_ne.
        - apply Hfresh. now right.
        - intros ->. contradiction. }
      exists d', w'. split; [exact Hrun|]. split; [|split].
      * rewrite Hkeys, keys_set_new by (apply Hfresh; now left).
        now rewrite <- app_assoc.
      * intros k Hk. rewrite Hkeep.
        -- apply get_set_ne. intros ->. apply Hk. now left.
        -- intros Hin. apply Hk. now right.
      * intros name' oid' [[= <- <-]|Hin] Hs'.
        -- exists w, v. rewrite Hget. split; [reflexivity|].
           rewrite Hkeep; [apply get_set_eq|].
           intros Hin. apply Hname.
           unfold sys_names in Hin. apply in_map_iff in Hin as (x & <- & Hx).
           apply filter_In in Hx as [Hx _]. now apply in_map.
        -- now apply (Hsys name' oid').
    + destruct (IH d w Hnd) as (d' & w' & Hrun & Hkeys & Hkeep & Hsys).
      { intros n Hn. apply Hfresh. now right. }
      exists d', w'. split; [exact Hrun|]. split; [exact Hkeys|]. split; [exact Hkeep|].
      intros name' oid' [[= <- <-]|Hin] Hs'; [congruence|].
      now apply (Hsys name' oid').
Qed.

(** C10.  [get_device_info] never fails; the dictionary it returns has the
    key ["ip_address"], bound to the address polled, and one key for each
    [sys]-prefixed attribute of [OID_CONSTANTS], in that order, and no other
    key; each attribute is bound to what its query returned, or to the
    string ["Error retrieving value"] when the query returned [None], so no
    key is bound to [None]. *)
Theorem get_device_info_complete (router_ip community : string)
        (port timeout retries : Z) (request_interval : Q) (w : world W) :
  exists device_info w',
    get_device_info router_ip community port timeout retries request_interval w
    = (Ret device_info, w') /\
    keys device_info
    = ["ip_address"; "sysName"; "sysDescr"; "sysUpTime"; "sysLocation";
       "sysContact"; "sysObjectID"] /\
    get "ip_address" device_info = Some (VStr router_ip) /\
    (forall name v, get name device_info = Some v -> v <> VNone) /\
    (forall name oid, In (name, oid) OID_CONSTANTS -> sys_prefixed name = true ->
       exists w1 v,
         fst (snmp_get router_ip oid community port timeout retries w1) = Ret v /\
         get name device_info
         = Some (if is_none v then VStr "Error retrieving value" else v)).
Proof.
  unfold get_device_info.
  destruct (device_info_loop_spec OID_CONSTANTS router_ip community port timeout
              retries request_interval [("ip_address", VStr router_ip)] w)
    as (d & w' & Hrun & Hkeys & Hkeep & Hsys).
  { unfold OID_CONSTANTS. simpl.
    repeat (apply NoDup_cons; [simpl; intuition discriminate|]). apply NoDup_nil. }
  { intros name Hin. cbn [get].
    destruct (String.eqb_spec "ip_address" name) as [<-|]; [|reflexivity].
    exfalso. simpl in Hin. intuition discriminate. }
  exists d, w'. split; [exact Hrun|]. split; [exact Hkeys|]. split; [|split].
  - rewrite Hkeep; [reflexivity|]. simpl. intuition discriminate.
  - intros name v Hget.
    destruct (in_dec String.string_dec name (sys_names OID_CONSTANTS)) as [Hin|Hout].
    + unfold sys_names in Hin. apply in_map_iff in Hin as ([n o] & <- & Hx).
      apply filter_In in Hx as [Hx Hs]. simpl in Hs.
      destruct (Hsys n o Hx Hs) as (w1 & v1 & _ & Hb).
      simpl in Hget. rewrite Hb in Hget. injection Hget as <-. apply bound_not_none.
    + rewrite (Hkeep name Hout) in Hget. cbn [get] in Hget.
      destruct (String.eqb "ip_address" name); [|discriminate].
      injection Hget as <-. discriminate.
  - intros name oid Hin Hs. destruct (Hsys name oid Hin Hs) as (w1 & v & Hq & Hb).
    exists w1, v. split; [exact Hq | exact Hb].
Qed.

End DeviceInfo.

Lemma gateway_never_raises_witness :
  fst (client.snmp_get "192.0.2.1" "1.3.6.1.2.1.1.5.0" "public" 161 2 2 silent)
  = Ret VNone /\
  fst (client.snmp_walk "192.0.2.1" "1.3.6.1.2.1.1.5.0" "public" 161 2 2 silent)
  = Ret [].
Proof.
  destruct (gateway_never_raises (W := list client.spawn)
              "192.0.2.1" "1.3.6.1.2.1.1.5.0" "public" 161 2 2 silent)
    as (_ & _ & Hget & _ & Hwalk).
  split; [exact (Hget eq_refl) | exact (Hwalk eq_refl)].
Defined.

Lemma get_device_info_complete_witness :
  exists device_info w',
    client.get_device_info "192.0.2.1" "public" 161 2 2 (1 # 10) silent
    = (Ret device_info, w') /\
    keys device_info
    = ["ip_address"; "sysName"; "sysDescr"; "sysUpTime"; "sysLocation";
       "sysContact"; "sysObjectID"] /\
    get "sysName" device_info = Some (VStr "Error retrieving value").
Proof.
  destruct (get_device_info_complete (W := list client.spawn)
              "192.0.2.1" "public" 161 2 2 (1 # 10) silent)
    as (d & w' & Hrun & Hkeys & _).
  exists d, w'. split; [exact Hrun|]. split; [exact Hkeys|].
  vm_compute in Hrun. injection Hrun as <- _. reflexivity.
Defined.

Section Assembler.
Import parsers client constants.
Context {W : Type} `{Subprocess W} `{FloatOps}.
Variable INTERFACE_TYPES_TO_MONITOR : list (Z * string).

(** Where the type-code walk fails, or every type code converts and none is
    in the allow-list, [get_monitored_interfaces] returns the empty mapping
    after that one walk and the pause that follows it. *)
Lemma monitored_interfaces_soft_failure (router_ip community : string)
      (port timeout retries : Z) (request_interval : Q) (w : world W) :
  let cmd := command "snmpwalk" router_ip (oid "ifType") community port timeout retries in
  let walked := snmp_walk router_ip (oid "ifType") community port timeout retries w in
  (transport_failure (fst (create_subprocess_exec cmd (network w))) = true \/
   exists if_types,
     fst walked = Ret if_types /\
     monitored_loop INTERFACE_TYPES_TO_MONITOR if_types [] = Ret []) ->
  get_monitored_interfaces INTERFACE_TYPES_TO_MONITOR router_ip community port
                           timeout retries request_interval w
  = (Ret [],
     {| network := snd (create_subprocess_exec cmd (network w));
        events := events w ++ [Exec cmd; Sleep request_interval] |}).
Proof.
  intros cmd walked Hcase.
  destruct (snmp_walk_spec router_ip (oid "ifType") community port timeout retries w)
    as (m & Hwalk & Hfail).
  fold cmd in Hwalk, Hfail.
  unfold get_monitored_interfaces. unfold bind at 1. rewrite Hwalk.
  unfold bind at 1, sleep, modify. cbn [network events].
  rewrite <- app_assoc. cbn [app].
  destruct Hcase as [Hf | (if_types & Hw & Hloop)].
  - rewrite (Hfail Hf). reflexivity.
  - subst walked. rewrite Hwalk in Hw. cbn [fst] in Hw. injection Hw as ->.
    destruct if_types as [|item rest]; [reflexivity|].
    unfold bind, lift. rewrite Hloop. reflexivity.
Qed.

End Assembler.

(** C7.  A type-code walk that yields no monitored index, one of whose
    values reads as the float [inf] ([int(inf)] raises [OverflowError], which
    the loop's [except (ValueError, TypeError)] does not catch): the
    assembler raises instead of returning the empty mapping. *)
Theorem infinite_type_code_escapes :
  let w := {| client.network := [client.answers 0 ".1.3.6.1.2.1.2.2.1.3.1 = inf"];
              client.events := [] |} in
  parsers.parse_snmp_walk_response ".1.3.6.1.2.1.2.2.1.3.1 = inf"
  = Ret [("1", VFloat (FInf false))] /\
  client.monitored [(6%Z, "ethernetCsmacd")] 6 = true /\
  fst (client.get_monitored_interfaces [(6%Z, "ethernetCsmacd")]
         "192.0.2.1" "public" 161 2 2 (1 # 10) w)
  = Raise OverflowError.
Proof. vm_compute. repeat split; reflexivity. Qed.

(** ** main.py *)

Section Reader.
Import main.
Context `{IpAddress}.

Lemma read_lines_spec (lines : list string) (acc : list string) :
  read_lines lines acc = acc ++ map canonical_text (valid_lines lines).
Proof.
  revert acc. induction lines as [|line rest IH]; intros acc; simpl.
  - now rewrite app_nil_r.
  - unfold valid_lines in *. simpl.
    destruct (clean line) as [|c text] eqn:E.
    + apply IH.
    + destruct (ip_address (c :: text)) as [ip|] eqn:Eip.
      * rewrite IH. simpl. unfold canonical_text at 2. rewrite Eip.
        now rewrite <- app_assoc.
      * apply IH.
Qed.

(** C9, as amended.  [read_router_ips] returns, in the order of the file,
    one address for each line that, cleaned of its comment and surrounding
    blanks, is not empty and passes the validation, and nothing for the other
    lines; what it returns for a line is the text [str(ip)] of the validated
    address, which is the text of the line whenever the line writes the
    address the way [str] prints it.  A file that does not exist yields the
    empty list. *)
Theorem read_router_ips_valid_lines (fs : filesystem) (filename : string) :
  match fs filename with
  | Some lines =>
      read_router_ips fs filename = map canonical_text (valid_lines lines) /\
      List.length (read_router_ips fs filename) = List.length (valid_lines lines) /\
      ((forall text, In text (valid_lines lines) -> ip_address text = Some (str_of text)) ->
       read_router_ips fs filename = map str_of (valid_lines lines))
  | None => read_router_ips fs filename = []
  end.
Proof.
  unfold read_router_ips. destruct (fs filename) as [lines|]; [|reflexivity].
  rewrite read_lines_spec. simpl. split; [reflexivity|]. split.
  - apply length_map.
  - intros Hcanon. apply map_ext_in. intros text Hin.
    unfold canonical_text. now rewrite (Hcanon text Hin).
Qed.

End Reader.

Lemma read_router_ips_valid_lines_witness :
  main.read_router_ips routers_txt "routers.txt" = ["10.0.0.1"; "10.0.0.2"].
Proof.
  pose proof (read_router_ips_valid_lines routers_txt "routers.txt") as Hspec.
  change (routers_txt "routers.txt")
    with (Some ["10.0.0.1"; "not-an-address"; "   "; "10.0.0.2   # edge router"])
    in Hspec.
  destruct Hspec as (_ & _ & Hsame).
  rewrite Hsame; [reflexivity|].
  intros text Hin. vm_compute in Hin.
  destruct Hin as [<-|[<-|[]]]; reflexivity.
Defined.

(** C9, as stated, fails: an IPv6 address written in capitals passes the
    validation, and what is returned for its line is not the text of the
    line. *)
Lemma read_router_ips_not_the_lines :
  let fs : main.filesystem := fun _ => Some ["2001:DB8::1  # core"] in
  map str_of (valid_lines ["2001:DB8::1  # core"]) = ["2001:DB8::1"] /\
  main.read_router_ips fs "routers.txt" = ["2001:db8::1"] /\
  main.read_router_ips fs "routers.txt"
  <> map str_of (valid_lines ["2001:DB8::1  # core"]).
Proof. vm_compute. repeat split; try reflexivity. discriminate. Qed.

Section Orchestrator.
Import main.
Context {W : Type} `{Poller W}.

Lemma gather_tallies (semaphore : Z) (router_ips handled : list string) (t t' : tally)
      (w w' : W) :
  tallies handled t ->
  gather semaphore router_ips t w = Some (Ret t', w') ->
  tallies (handled ++ router_ips) t'.
Proof.
  revert handled t w. induction router_ips as [|ip rest IH]; intros handled t w Ht Hrun.
  - simpl in Hrun. injection Hrun as <- <-. now rewrite app_nil_r.
  - simpl in Hrun. unfold process_router_with_semaphore in Hrun.
    destruct (semaphore <=? 0)%Z; [discriminate|].
    destruct (process_router ip w) as [[[|]|e] w1] eqn:Epoll; [| |discriminate].
    + replace (handled ++ ip :: rest) with ((handled ++ [ip]) ++ rest)
        by now rewrite <- app_assoc.
      eapply IH; [|exact Hrun]. destruct Ht as [Hc Hp]. split; simpl.
      * rewrite length_app. simpl. lia.
      * rewrite <- app_assoc. simpl.
        apply Permutation_sym. eapply Permutation_trans.
        -- apply Permutation_app_tail. apply Permutation_sym. exact Hp.
        -- rewrite <- app_assoc. apply Permutation_app_head. apply Permutation_app_comm.
    + replace (handled ++ ip :: rest) with ((handled ++ [ip]) ++ rest)
        by now rewrite <- app_assoc.
      eapply IH; [|exact Hrun]. destruct Ht as [Hc Hp]. split; simpl.
      * exact Hc.
      * rewrite app_assoc. now apply Permutation_app_tail.
Qed.


(** C1, as amended.  When [process_routers] returns, the success count and
    the failure count it returns add up to the number of addresses given,
    each address of the list being counted once for each time it stands in
    the list; and when no address stands twice in the list, no address is
    both counted as a success and in the failure list. *)
Theorem process_routers_partition (max_concurrent_routers : Z)
        (router_ips : list string) (w : W)
        (successes failures : nat) (after : outcome) :
  process_routers max_concurrent_routers router_ips w
  = Some (Ret (successes, failures), after) ->
  successes + failures = List.length router_ips /\
  exists t w',
    gather max_concurrent_routers router_ips
           {| successful_count := 0; failed_routers := []; counted := [] |} w
    = Some (Ret t, w') /\
    successes = List.length (counted t) /\
    failures = List.length (failed_routers t) /\
    Permutation (counted t ++ failed_routers t) router_ips /\
    (NoDup router_ips ->
     forall ip, ~ (In ip (counted t) /\ In ip (failed_routers t))).
Proof.
  unfold process_routers, Semaphore.
  destruct (max_concurrent_routers <? 0)%Z; [discriminate|].
  destruct (gather max_concurrent_routers router_ips _ w) as [[[t|e] w']|] eqn:Erun;
    [|discriminate|discriminate].
  intros [= <- <- <-].
  assert (Hstart : tallies [] {| successful_count := 0; failed_routers := [];
                                 counted := [] |}).
  { split; [reflexivity | apply Permutation_refl]. }
  destruct (gather_tallies max_concurrent_routers router_ips [] _ t w w' Hstart Erun)
    as [Hc Hp].
  simpl in Hp. split.
  - rewrite Hc, <- length_app. now apply Permutation_length.
  - exists t, w'. repeat split; try assumption.
    intros Hnd ip [Hs Hf].
    assert (Hnd' : NoDup (counted t ++ failed_routers t)).
    { eapply Permutation_NoDup; [apply Permutation_sym; exact Hp | exact Hnd]. }
    revert Hnd' Hs Hf. generalize (failed_routers t). generalize (counted t).
    intros l1 l2 Hnd' Hs Hf. clear - Hnd' Hs Hf.
    induction l1 as [|a l1 IH]; [contradiction|].
    simpl in Hnd'. apply NoDup_cons_iff in Hnd' as [Hout Hnd'].
    destruct Hs as [->|Hs].
    + apply Hout, in_or_app. now right.
    + auto.
Qed.

End Orchestrator.

Lemma process_routers_partition_witness :
  main.process_routers 10 ["10.0.0.1"; "10.0.0.2"; "10.0.0.3"] [true; false; true]
  = Some (Ret (2, 1),
          {| main.world_after := []; main.failed_routers_file := Some ["10.0.0.2"] |}) /\
  2 + 1 = List.length ["10.0.0.1"; "10.0.0.2"; "10.0.0.3"].
Proof.
  split; [reflexivity|].
  exact (proj1 (process_routers_partition
                  (W := list bool) 10 ["10.0.0.1"; "10.0.0.2"; "10.0.0.3"]
                  [true; false; true] 2 1
                  {| main.world_after := [];
                     main.failed_routers_file := Some ["10.0.0.2"] |} eq_refl)).
Defined.

(** C1, as stated, fails: an address that stands twice in the list and is
    polled with success once and without success once is both counted as a
    success and in the failure list. *)
Lemma address_in_both_buckets :
  let router_ips := ["10.0.0.1"; "10.0.0.1"] in
  let start := {| main.successful_count := 0; main.failed_routers := [];
                  main.counted := [] |} in
  option_map fst (main.process_routers 10 router_ips [true; false])
  = Some (Ret (1, 1)) /\
  exists t after,
    main.gather 10 router_ips start [true; false] = Some (Ret t, after) /\
    In "10.0.0.1" (main.counted t) /\ In "10.0.0.1" (main.failed_routers t).
Proof.
  split; [reflexivity|].
  do 2 eexists. split; [reflexivity|]. split; left; reflexivity.
Qed.

(** ** db/connection.py and db/interface_dao.py *)

Section Store.
Import connection interface_dao.

Lemma same_tables_refl (s : store) : same_tables s s.
Proof. split; reflexivity. Qed.

Lemma same_tables_trans (s1 s2 s3 : store) :
  same_tables s1 s2 -> same_tables s2 s3 -> same_tables s1 s3.
Proof. intros [A B] [C D]. split; congruence. Qed.

Lemma exchange_keeps : keeps_tables exchange.
Proof.
  intros s. unfold exchange. destruct (faults s) as [|[|] rest]; split; reflexivity.
Qed.

Lemma time_sleep_keeps (ms : Z) : keeps_tables (connection.time_sleep ms).
Proof. intros s. split; reflexivity. Qed.

Lemma close_keeps : keeps_tables close.
Proof. intros s. split; reflexivity. Qed.

Lemma ret_keeps {A : Type} (a : A) : keeps_tables (ret (S := store) a).
Proof. intros s. split; reflexivity. Qed.

Lemma raise_keeps {A : Type} (e : exn) : keeps_tables (raise (S := store) (A := A) e).
Proof. intros s. split; reflexivity. Qed.

Lemma bind_keeps {A B : Type} (c : db A) (k : A -> db B) :
  keeps_tables c -> (forall a, keeps_tables (k a)) -> keeps_tables (bind c k).
Proof.
  intros Hc Hk s. unfold bind. specialize (Hc s).
  destruct (c s) as [[a|e] s1]; simpl in *; [|exact Hc].
  eapply same_tables_trans; [exact Hc | apply Hk].
Qed.

Lemma try_except_keeps {A : Type} (body : db A) (classes : exn -> bool)
      (handler : exn -> db A) :
  keeps_tables body -> (forall e, keeps_tables (handler e)) ->
  keeps_tables (try_except body classes handler).
Proof.
  intros Hb Hh s. unfold try_except. specialize (Hb s).
  destruct (body s) as [[a|e] s1]; simpl in *; [exact Hb|].
  destruct (classes e); [|exact Hb].
  eapply same_tables_trans; [exact Hb | apply Hh].
Qed.

Lemma execute_loop_keeps (execute : db unit) (max_retries n retry_count : nat) :
  keeps_tables execute -> keeps_tables (execute_loop execute max_retries n retry_count).
Proof.
  intros He. revert retry_count. induction n as [|n IH]; intros retry_count; simpl.
  - apply ret_keeps.
  - apply try_except_keeps.
    + apply bind_keeps; [exact He | intros; apply ret_keeps].
    + intros e. destruct (max_retries <=? S retry_count).
      * apply raise_keeps.
      * apply bind_keeps; [apply time_sleep_keeps | intros; apply IH].
Qed.

Lemma db_connection_loop_keeps {A : Type} (body : db A)
      (max_retries n retry_count : nat) (connection thrown : bool) :
  keeps_tables body ->
  keeps_tables (db_connection_loop body max_retries n retry_count connection thrown).
Proof.
  intros Hb. revert retry_count connection thrown.
  induction n as [|n IH]; intros retry_count connection thrown s; simpl.
  - split; reflexivity.
  - pose proof (exchange_keeps s) as Hx. unfold get_connection.
    destruct (exchange s) as [[[]|e] s1]; simpl in Hx.
    + destruct thrown.
      * eapply same_tables_trans; [exact Hx|].
        apply (bind_keeps close (fun _ => raise RuntimeError));
          [apply close_keeps | intros; apply raise_keeps].
      * pose proof (Hb s1) as Hbody.
        destruct (body s1) as [[a|e] s2]; simpl in Hbody.
        -- eapply same_tables_trans; [exact Hx|].
           eapply same_tables_trans; [exact Hbody|]. split; reflexivity.
        -- eapply same_tables_trans; [exact Hx|].
           eapply same_tables_trans; [exact Hbody|].
           destruct (Error e); [destruct (max_retries <=? S retry_count)|].
           ++ split; reflexivity.
           ++ apply (bind_keeps (connection.time_sleep 500)); [apply time_sleep_keeps|].
              intros _. apply (bind_keeps close); [apply close_keeps|].
              intros _. apply IH.
           ++ split; reflexivity.
    + eapply same_tables_trans; [exact Hx|].
      destruct (max_retries <=? S retry_count).
      * apply bind_keeps; [destruct connection; [apply close_keeps | apply ret_keeps]|].
        intros; apply raise_keeps.
      * apply (bind_keeps (connection.time_sleep 500)); [apply time_sleep_keeps|].
        intros _. apply bind_keeps;
          [destruct connection; [apply close_keeps | apply ret_keeps]|].
        intros _. apply IH.
Qed.

Lemma get_interface_id_map_keeps (router : Z) : keeps_tables (get_interface_id_map router).
Proof.
  unfold get_interface_id_map. apply try_except_keeps; [|intros; apply ret_keeps].
  apply db_connection_loop_keeps.
  apply bind_keeps.
  - apply execute_loop_keeps, exchange_keeps.
  - intros _. apply bind_keeps; [intros s; split; reflexivity|].
    intros; apply ret_keeps.
Qed.

Lemma connect_loop_keeps (max_retries n retry_count : nat) (s s1 : store) :
  connect_loop max_retries n retry_count s = Some s1 -> same_tables s s1.
Proof.
  revert retry_count s. induction n as [|n IH]; intros retry_count s; simpl; [discriminate|].
  pose proof (exchange_keeps s) as Hx. unfold get_connection.
  destruct (exchange s) as [[[]|e] s0]; simpl in Hx.
  - intros [= <-]. exact Hx.
  - destruct (max_retries <=? S retry_count); [discriminate|].
    intros Hc. apply IH in Hc. eapply same_tables_trans; [exact Hx | exact Hc].
Qed.

(** With a connection in hand and a body that returns, [db_connection]
    returns what the body returned and closes the connection. *)
Lemma db_connection_loop_returns {A : Type} (body : db A)
      (max_retries n retry_count : nat) (s s1 s2 : store) (a : A) :
  connect_loop max_retries n retry_count s = Some s1 ->
  body s1 = (Ret a, s2) ->
  db_connection_loop body max_retries n retry_count false false s
  = (Ret a, with_uncommitted [] s2).
Proof.
  revert retry_count s. induction n as [|n IH]; intros retry_count s; simpl; [discriminate|].
  unfold get_connection. destruct (exchange s) as [[[]|e] s0].
  - intros [= <-] Hbody. rewrite Hbody. reflexivity.
  - destruct (max_retries <=? S retry_count); [discriminate|].
    intros Hc Hbody. unfold bind at 1. simpl. unfold bind at 1. simpl.
    now apply IH.
Qed.

(** Without a connection, [db_connection] raises the pool's [Error] and the
    body does not run. *)
Lemma db_connection_loop_unconnected {A : Type} (body : db A)
      (max_retries n retry_count : nat) (s : store) :
  0 < n -> n + retry_count = max_retries ->
  connect_loop max_retries n retry_count s = None ->
  exists s', db_connection_loop body max_retries n retry_count false false s
             = (Raise DbError, s') /\ same_tables s s'.
Proof.
  revert retry_count s. induction n as [|n IH]; intros retry_count s Hn Hsum; [lia|].
  simpl.
  pose proof (exchange_keeps s) as Hx. unfold get_connection.
  unfold exchange in *.
  destruct (faults s) as [|[|] rest]; simpl in *; try discriminate.
  destruct (max_retries <=? S retry_count) eqn:Emax.
  - intros _. eexists. split; [reflexivity | exact Hx].
  - intros Hc. unfold bind at 1. simpl. unfold bind at 1. simpl.
    apply Nat.leb_gt in Emax.
    assert (Hpos : 0 < n) by lia.
    assert (Hsum' : n + S retry_count = max_retries) by lia.
    destruct (IH (S retry_count) _ Hpos Hsum' Hc) as (s' & Hrun & Hsame).
    exists s'. split; [exact Hrun|].
    eapply same_tables_trans; [exact Hx|]. exact Hsame.
Qed.

End Store.

Section Batch.
Import connection interface_dao.

Lemma later_here (s : store) : later (faults s) [] s = s.
Proof. destruct s. unfold later. simpl. now rewrite app_nil_r. Qed.

(** A statement that fails [k] times, with retries to spare, and then
    succeeds: [execute_with_retry] returns [True] after [k] pauses. *)
Lemma execute_loop_retries (max_retries n retry_count k : nat) (s : store)
      (rest : list bool) :
  n + retry_count = max_retries -> k < n ->
  faults s = repeat true k ++ false :: rest ->
  execute_loop exchange max_retries n retry_count s
  = (Ret true, later rest (backoffs (S retry_count) k) s).
Proof.
  revert n retry_count s. induction k as [|k IH]; intros n retry_count s Hsum Hk Hf.
  - destruct n as [|n]; [lia|]. simpl in *.
    unfold try_except, bind, exchange. rewrite Hf. simpl.
    unfold with_faults, later. simpl. now rewrite app_nil_r.
  - destruct n as [|n]; [lia|]. simpl in Hf. simpl.
    unfold try_except, bind at 1, exchange. rewrite Hf. simpl.
    destruct (Nat.leb_spec max_retries (S retry_count)); [lia|].
    unfold bind, connection.time_sleep, modify. simpl.
    rewrite (IH n (S retry_count)); [|lia|lia|reflexivity].
    unfold later, backoffs. simpl. now rewrite <- app_assoc.
Qed.

(** A statement that fails as often as there are attempts:
    [execute_with_retry] pauses after each failure but the last and raises
    the last [Error]. *)
Lemma execute_loop_exhausts (max_retries n retry_count : nat) (s : store)
      (rest : list bool) :
  n + retry_count = max_retries -> 0 < n ->
  faults s = repeat true n ++ rest ->
  execute_loop exchange max_retries n retry_count s
  = (Raise DbError, later rest (backoffs (S retry_count) (n - 1)) s).
Proof.
  revert retry_count s. induction n as [|n IH]; intros retry_count s Hsum Hn Hf; [lia|].
  simpl in Hf. simpl.
  unfold try_except, bind at 1, exchange. rewrite Hf. simpl.
  destruct (Nat.leb_spec max_retries (S retry_count)) as [Hle|Hgt].
  - assert (n = 0) as -> by lia. simpl in *.
    unfold raise, with_faults, later. simpl. now rewrite app_nil_r.
  - unfold bind, connection.time_sleep, modify. simpl.
    rewrite (IH (S retry_count)); [|lia|lia|reflexivity].
    unfold later, backoffs. simpl.
    replace (n - 0) with (S (n - 1)) by lia. simpl. now rewrite <- app_assoc.
Qed.

(** [execute_with_retry] with its default of three attempts: up to two
    failures are retried after pauses of 1 and 2 seconds, and the third
    failure is raised to the caller. *)
Lemma execute_with_retry_backoff (s : store) (rest : list bool) :
  (faults s = false :: rest ->
   execute_with_retry exchange 3 s = (Ret true, later rest [] s)) /\
  (faults s = true :: false :: rest ->
   execute_with_retry exchange 3 s = (Ret true, later rest [1000%Z] s)) /\
  (faults s = true :: true :: false :: rest ->
   execute_with_retry exchange 3 s = (Ret true, later rest [1000%Z; 2000%Z] s)) /\
  (faults s = true :: true :: true :: rest ->
   execute_with_retry exchange 3 s = (Raise DbError, later rest [1000%Z; 2000%Z] s)).
Proof.
  unfold execute_with_retry. repeat split; intros Hf.
  - apply (execute_loop_retries 3 3 0 0); [lia | lia | exact Hf].
  - apply (execute_loop_retries 3 3 0 1); [lia | lia | exact Hf].
  - apply (execute_loop_retries 3 3 0 2); [lia | lia | exact Hf].
  - apply (execute_loop_exhausts 3 3 0); [lia | lia | exact Hf].
Qed.

(** The lookup on a store whose next two exchanges succeed. *)
Lemma get_interface_id_map_run (router : Z) (s : store) (rest : list bool) :
  faults s = false :: false :: rest ->
  get_interface_id_map router s
  = (Ret (interface_map_of router s), with_uncommitted [] (with_faults rest s)).
Proof.
  intros Hf. destruct s as [ifs stats unc fl sl nw]. simpl in Hf. subst fl. reflexivity.
Qed.

(** C3.  The batch insert of [save_interface_stats_batch] never retries.
    When the insert fails at its first attempt, both connections and the
    lookup having succeeded and the batch holding a row to write, the pause
    before the second attempt is [time.sleep], and [time] is [datetime.time]
    in this module: [AttributeError] is raised, which neither [except Error]
    catches, so it leaves the function, without a pause, without a second
    attempt and with no row written. *)
Theorem batch_insert_never_retries (interfaces_data : list (dict value)) (router : Z)
        (s : store) (rows : list stat_row) (rest : list bool) :
  faults s = false :: false :: false :: true :: rest ->
  interface_map_of router s <> [] ->
  stats_values interfaces_data (interface_map_of router s) (now s) [] = Ret rows ->
  rows <> [] ->
  save_interface_stats_batch interfaces_data router s
  = (Raise AttributeError,
     {| interfaces := interfaces s; interface_stats := interface_stats s;
        uncommitted := []; faults := rest; slept := slept s; now := now s |}).
Proof.
  intros Hf Hmap Hrows Hne.
  unfold save_interface_stats_batch, try_except, db_connection.
  cbn [db_connection_loop]. unfold get_connection, exchange. rewrite Hf.
  unfold bind at 1, gets. unfold bind at 1.
  rewrite (get_interface_id_map_run
             router (with_faults (false :: false :: true :: rest) s) (true :: rest)
             eq_refl).
  change (interface_map_of router (with_faults (false :: false :: true :: rest) s))
    with (interface_map_of router s).
  destruct (interface_map_of router s) as [|entry more]; [contradiction|].
  unfold bind at 1, lift. cbn [now with_uncommitted with_faults]. rewrite Hrows.
  destruct rows as [|row rows]; [contradiction|].
  destruct s as [ifs stats unc fl sl nw]. reflexivity.
Qed.

(** C6.  When the engine holds its connection and the lookup of the device's
    interfaces returns the empty mapping, [save_interface_stats_batch]
    returns [False], raises nothing, and leaves [interface_stats] as it was,
    with nothing uncommitted. *)
Theorem empty_map_rejects_batch (interfaces_data : list (dict value)) (router : Z)
        (s s1 s2 : store) :
  connected s = Some s1 ->
  get_interface_id_map router s1 = (Ret [], s2) ->
  exists s',
    save_interface_stats_batch interfaces_data router s = (Ret false, s') /\
    interface_stats s' = interface_stats s /\
    uncommitted s' = [].
Proof.
  intros Hconn Hmap. unfold save_interface_stats_batch, try_except, db_connection.
  erewrite db_connection_loop_returns; [| exact Hconn |].
  2:{ unfold bind at 1, gets. unfold bind at 1. rewrite Hmap. reflexivity. }
  eexists. split; [reflexivity|]. split; [|reflexivity].
  simpl.
  pose proof (get_interface_id_map_keeps router s1) as [_ Hk]. rewrite Hmap in Hk.
  simpl in Hk. rewrite Hk.
  now destruct (connect_loop_keeps 3 3 0 s s1 Hconn).
Qed.

(** Without a connection the batch is rejected as well. *)
Lemma no_connection_rejects_batch (interfaces_data : list (dict value)) (router : Z)
      (s : store) :
  connected s = None ->
  exists s',
    save_interface_stats_batch interfaces_data router s = (Ret false, s') /\
    interface_stats s' = interface_stats s.
Proof.
  intros Hconn. unfold save_interface_stats_batch, try_except, db_connection.
  match goal with
  | |- context [db_connection_loop ?b 3 3 0 false false s] =>
      destruct (db_connection_loop_unconnected b 3 3 0 s) as (s' & Hrun & Hsame);
        [lia | lia | exact Hconn |]
  end.
  rewrite Hrun. simpl. exists s'. split; [reflexivity | apply Hsame].
Qed.

End Batch.

(** The insert of a sample for interface 1 fails once. *)
Lemma batch_insert_never_retries_witness :
  interface_dao.save_interface_stats_batch one_sample 1 insert_fails_once
  = (Raise AttributeError, one_interface).
Proof.
  refine (batch_insert_never_retries one_sample 1 insert_fails_once _ [] eq_refl _
                                     eq_refl _).
  - discriminate.
  - discriminate.
Defined.

Lemma empty_map_rejects_batch_witness :
  exists s',
    interface_dao.save_interface_stats_batch one_sample 2 one_interface = (Ret false, s') /\
    connection.interface_stats s' = [] /\ connection.uncommitted s' = [].
Proof.
  exact (empty_map_rejects_batch one_sample 2 one_interface one_interface one_interface
           eq_refl eq_refl).
Defined.

(** ** db/schema.py *)

Section Partitions.
Import schema.
Local Open Scope Z_scope.

Lemma p_inj (a b : Z) : p_ a = p_ b -> a = b.
Proof. now intros [= ->]. Qed.

Lemma name_eqb_eq (a b : partition_name) : name_eqb a b = true <-> a = b.
Proof.
  destruct a, b; simpl; try (split; [discriminate | congruence]).
  - split; reflexivity.
  - rewrite Z.eqb_eq. split; congruence.
Qed.

Lemma partition_exists_iff (n : partition_name) (table : list partition) :
  partition_exists n table = true <-> In n (names table).
Proof.
  unfold partition_exists, names. rewrite existsb_exists, in_map_iff.
  split; intros (p & H1 & H2).
  - exists p. apply name_eqb_eq in H2. auto.
  - exists p. split; [exact H2 | now apply name_eqb_eq].
Qed.

Lemma add_partition_nodup (n : partition_name) (bound : Z) (table : list partition) :
  NoDup (names table) -> partition_exists n table = false ->
  NoDup (names (add_partition n bound table)).
Proof.
  intros Hnd Hex. unfold add_partition, names. rewrite map_app. simpl.
  apply NoDup_app; [exact Hnd | apply NoDup_cons; [intros [] | apply NoDup_nil] |].
  intros x Hx [<-|[]].
  apply partition_exists_iff in Hx. congruence.
Qed.

Lemma create_loop_nodup (current_date interval_days i : Z) (count : nat)
      (table : list partition) :
  NoDup (names table) -> NoDup (names (create_loop current_date interval_days i count table)).
Proof.
  revert i table. induction count as [|count IH]; intros i table Hnd; simpl; [exact Hnd|].
  apply IH. destruct (partition_exists _ table) eqn:E; [exact Hnd|].
  now apply add_partition_nodup.
Qed.

Lemma latest_none (table : list partition) :
  latest_partition table = None <-> (forall p, In p table -> name p = p_default).
Proof.
  induction table as [|x r IH]; simpl.
  - split; [intros _ p [] | reflexivity].
  - destruct (name x) eqn:Ex.
    + rewrite IH. split.
      * intros Hr p [<-|Hp]; [exact Ex | now apply Hr].
      * intros Hall p Hp. apply Hall. now right.
    + split.
      * destruct (latest_partition r) as [q|]; [destruct (_ <? _)|]; discriminate.
      * intros Hall. specialize (Hall x (or_introl eq_refl)). congruence.
Qed.

Lemma latest_max (table : list partition) (p : partition) :
  latest_partition table = Some p ->
  In p table /\ dated p /\
  (forall q, In q table -> dated q -> less_than q <= less_than p).
Proof.
  revert p. induction table as [|x r IH]; intros p; simpl; [discriminate|].
  destruct (name x) eqn:Ex.
  - intros Hp. destruct (IH p Hp) as (Hin & Hd & Hmax).
    split; [now right|]. split; [exact Hd|].
    intros q [<-|Hq] Hdq; [contradiction | now apply Hmax].
  - destruct (latest_partition r) as [q|] eqn:Er.
    + destruct (IH q eq_refl) as (Hin & Hd & Hmax).
      destruct (Z.ltb_spec (less_than x) (less_than q)); intros [= <-].
      * split; [now right|]. split; [exact Hd|].
        intros y [<-|Hy] Hdy; [lia | now apply Hmax].
      * split; [now left|]. split; [unfold dated; congruence|].
        intros y [<-|Hy] Hdy; [lia|]. specialize (Hmax y Hy Hdy). lia.
    + intros [= <-]. split; [now left|]. split; [unfold dated; congruence|].
      intros y [<-|Hy] Hdy; [lia|].
      exfalso. apply Hdy. eapply latest_none; eassumption.
Qed.

(** A new dated partition that ends after all the others is the latest. *)
Lemma latest_app_new (table : list partition) (start bound : Z) :
  (forall q, In q table -> dated q -> less_than q < bound) ->
  latest_partition (table ++ [{| name := p_ start; less_than := bound |}])
  = Some {| name := p_ start; less_than := bound |}.
Proof.
  induction table as [|x r IH]; intros Hlt; simpl; [reflexivity|].
  rewrite IH by (intros q Hq; apply Hlt; now right).
  destruct (name x) eqn:Ex; [reflexivity|]. simpl.
  assert (less_than x < bound).
  { apply Hlt; [now left | unfold dated; congruence]. }
  destruct (Z.ltb_spec (less_than x) bound); [reflexivity | lia].
Qed.

Lemma well_formed_app (table : list partition) (start bound : Z) :
  well_formed table -> start < bound ->
  well_formed (table ++ [{| name := p_ start; less_than := bound |}]).
Proof.
  intros Hwf Hlt p s Hin Hname. apply in_app_or in Hin as [Hin|[<-|[]]].
  - now apply (Hwf p).
  - simpl in *. congruence.
Qed.

Lemma create_loop_fresh (current_date interval_days : Z) (table : list partition)
      (count : nat) (i : Z) (extra : list partition) :
  0 < interval_days -> latest_partition table = None ->
  (forall q, In q extra ->
             exists j, j < i /\ name q = p_ (current_date + j * interval_days)) ->
  create_loop current_date interval_days i count (table ++ extra)
  = table ++ extra ++ map (seeded current_date interval_days) (upfrom i count).
Proof.
  intros Hpos Hnone. revert i extra.
  induction count as [|count IH]; intros i extra Hextra; simpl.
  - now rewrite app_nil_r.
  - assert (Hfresh : partition_exists (p_ (current_date + i * interval_days))
                                      (table ++ extra) = false).
    { destruct (partition_exists _ _) eqn:E; [|reflexivity].
      exfalso. apply partition_exists_iff in E. unfold names in E.
      apply in_map_iff in E as (q & Hname & Hq). apply in_app_or in Hq as [Hq|Hq].
      - rewrite (proj1 (latest_none table) Hnone q Hq) in Hname. discriminate.
      - destruct (Hextra q Hq) as (j & Hj & Hqn). rewrite Hqn in Hname.
        apply p_inj in Hname. nia. }
    rewrite Hfresh. unfold add_partition. rewrite <- app_assoc.
    rewrite IH.
    + rewrite <- app_assoc. reflexivity.
    + intros q Hq. apply in_app_or in Hq as [Hq|[<-|[]]].
      * destruct (Hextra q Hq) as (j & Hj & Hqn). exists j. split; [lia | exact Hqn].
      * exists i. split; [lia | reflexivity].
Qed.

(** The seed step: six partitions, one interval each, from today on. *)
Lemma maintain_partitions_seed (current_date interval_days : Z) (table : list partition) :
  0 < interval_days -> latest_partition table = None ->
  maintain_partitions current_date interval_days table
  = (Ret tt, table ++ map (seeded current_date interval_days) [0; 1; 2; 3; 4; 5]).
Proof.
  intros Hpos Hnone. unfold maintain_partitions, try_except, bind, gets, modify.
  rewrite Hnone. unfold create_time_partitions.
  rewrite <- (app_nil_r table) at 1.
  rewrite (create_loop_fresh _ _ _ _ _ _ Hpos Hnone); [reflexivity|].
  intros q [].
Qed.

(** On a table with a dated partition the maintainer raises [TypeError]
    before it compares or adds anything. *)
Lemma maintain_partitions_dated (current_date interval_days : Z) (table : list partition)
      (p : partition) :
  latest_partition table = Some p ->
  maintain_partitions current_date interval_days table = (Raise TypeError, table).
Proof.
  intros Hp. unfold maintain_partitions, try_except, bind, gets, lift. rewrite Hp.
  unfold strptime. destruct (from_days (less_than p)); reflexivity.
Qed.

(** C4.  The maintainer never extends the table.  Where a dated partition
    exists it asks the server for the date of the latest bound, gets a
    [datetime.date] from the cursor and hands it to [strptime], which raises
    [TypeError]; [except Error] does not catch it.  So each run raises and
    adds nothing, and after two runs the dated partitions reach exactly as
    far as before, however short of three intervals that is. *)
Theorem maintain_partitions_never_extends (current_date interval_days : Z)
        (table : list partition) (p : partition) :
  latest_partition table = Some p ->
  let once := maintain_partitions current_date interval_days table in
  let twice := maintain_partitions current_date interval_days (snd once) in
  once = (Raise TypeError, table) /\
  twice = (Raise TypeError, table) /\
  days_covered current_date (snd twice) = Some (less_than p - current_date).
Proof.
  intros Hp once twice. subst once twice.
  rewrite (maintain_partitions_dated _ _ _ p Hp). cbn [snd].
  rewrite (maintain_partitions_dated _ _ _ p Hp). cbn [snd].
  split; [reflexivity|]. split; [reflexivity|].
  unfold days_covered. now rewrite Hp.
Qed.

End Partitions.

(** A table whose latest partition ends today, maintained with an interval
    of 30 days: no coverage before, none after. *)
Lemma maintain_partitions_never_extends_witness :
  let table := [{| schema.name := schema.p_default; schema.less_than := 737790 |};
                {| schema.name := schema.p_ 738970; schema.less_than := 739000 |}] in
  schema.maintain_partitions 739000 30 table = (Raise TypeError, table) /\
  schema.days_covered 739000
    (snd (schema.maintain_partitions 739000 30
            (snd (schema.maintain_partitions 739000 30 table))))
  = Some 0%Z.
Proof.
  intros table.
  destruct (maintain_partitions_never_extends 739000 30 table
              {| schema.name := schema.p_ 738970; schema.less_than := 739000 |} eq_refl)
    as (Honce & _ & Hcov).
  split; [exact Honce | exact Hcov].
Defined.

(** ** The utilization calculator *)

Section Utilization.
Import utilization.

Lemma octet_delta_reset (curr_hc prev_hc curr_std prev_std : Z) :
  (byte_difference curr_hc prev_hc curr_std prev_std < 0)%Z ->
  octet_delta curr_hc prev_hc curr_std prev_std
  = if nonzero curr_hc then curr_hc else curr_std.
Proof.
  intros Hneg. unfold octet_delta.
  destruct (Z.ltb_spec (byte_difference curr_hc prev_hc curr_std prev_std) 0);
    [reflexivity | lia].
Qed.

Lemma octet_delta_nonneg (curr_hc prev_hc curr_std prev_std : Z) :
  (0 <= curr_hc)%Z -> (0 <= curr_std)%Z ->
  (0 <= octet_delta curr_hc prev_hc curr_std prev_std)%Z.
Proof.
  intros Hhc Hstd. unfold octet_delta, reset_value.
  destruct (Z.ltb_spec (byte_difference curr_hc prev_hc curr_std prev_std) 0);
    [destruct (nonzero curr_hc)|]; lia.
Qed.

Lemma rate_nonneg (bytes seconds : Z) :
  (0 <= bytes)%Z -> (0 < seconds)%Z ->
  (0 <= inject_Z (bytes * 8) / inject_Z seconds)%Q.
Proof.
  intros Hb Hs. unfold Qdiv. apply Qmult_le_0_compat.
  - unfold Qle. simpl. lia.
  - apply Qinv_le_0_compat. unfold Qle. simpl. lia.
Qed.

Lemma pair_utilization_nonneg (speed : Z) (prev curr : sample) (r : utilization_record) :
  unsigned_counters curr ->
  pair_utilization speed prev curr = Some r ->
  (0 <= in_bps r)%Q /\ (0 <= out_bps r)%Q.
Proof.
  intros (Hi & Ho & Hhi & Hho). unfold pair_utilization.
  destruct (Z.leb_spec (timestamp curr - timestamp prev) 0); [discriminate|].
  intros [= <-]. simpl. split; apply rate_nonneg; try assumption;
    now apply octet_delta_nonneg.
Qed.

(** The record a pair of samples gives when the second is later than the
    first. *)
Lemma pair_utilization_later (speed : Z) (prev curr : sample) :
  (timestamp prev < timestamp curr)%Z ->
  exists r,
    pair_utilization speed prev curr = Some r /\
    at_time r = timestamp curr /\
    in_bps r
    = (inject_Z (octet_delta (ifHCInOctets curr) (ifHCInOctets prev)
                             (ifInOctets curr) (ifInOctets prev) * 8)
       / inject_Z (timestamp curr - timestamp prev))%Q /\
    out_bps r
    = (inject_Z (octet_delta (ifHCOutOctets curr) (ifHCOutOctets prev)
                             (ifOutOctets curr) (ifOutOctets prev) * 8)
       / inject_Z (timestamp curr - timestamp prev))%Q.
Proof.
  intros Hlt. unfold pair_utilization.
  destruct (Z.leb_spec (timestamp curr - timestamp prev) 0); [lia|].
  eexists. split; [reflexivity|]. cbn [at_time in_bps out_bps]. auto.
Qed.

(** The record of a pair of consecutive samples is among the records of the
    whole series. *)
Lemma pairs_utilization_pair (speed : Z) (before after : list sample)
      (first prev curr : sample) (rest : list sample) (r : utilization_record) :
  pair_utilization speed prev curr = Some r ->
  first :: rest = before ++ prev :: curr :: after ->
  In r (pairs_utilization speed first rest).
Proof.
  intros Hpair. revert first rest.
  induction before as [|b before IH]; intros first rest Heq.
  - injection Heq as -> ->. simpl. rewrite Hpair. now left.
  - injection Heq as -> ->.
    destruct (before ++ prev :: curr :: after) as [|x rest'] eqn:E.
    + destruct before; discriminate.
    + simpl. specialize (IH x rest' eq_refl).
      destruct (pair_utilization speed b x); [now right | exact IH].
Qed.

(** C5, as amended.  For an interface that reports a speed, every pair of
    consecutive samples of which the second is later than the first gives a
    record, stamped with the time of the second; where the octet difference
    of the pair is negative, the bits per second of the record are those of
    the current sample's raw counter (the wide one if it is not zero, else
    the standard one); and they are not negative when the counters of the
    current sample are not. *)
Theorem utilization_substitutes_counter (i : interface) (speed : Z)
        (before after : list sample) (prev curr : sample) :
  reports_speed i speed ->
  (timestamp prev < timestamp curr)%Z ->
  let seconds := inject_Z (timestamp curr - timestamp prev) in
  exists r,
    In r (calculate_interface_utilization (Some i) (before ++ prev :: curr :: after)) /\
    at_time r = timestamp curr /\
    ((byte_difference (ifHCInOctets curr) (ifHCInOctets prev)
                      (ifInOctets curr) (ifInOctets prev) < 0)%Z ->
     in_bps r
     = (inject_Z ((if nonzero (ifHCInOctets curr) then ifHCInOctets curr
                   else ifInOctets curr) * 8) / seconds)%Q) /\
    ((byte_difference (ifHCOutOctets curr) (ifHCOutOctets prev)
                      (ifOutOctets curr) (ifOutOctets prev) < 0)%Z ->
     out_bps r
     = (inject_Z ((if nonzero (ifHCOutOctets curr) then ifHCOutOctets curr
                   else ifOutOctets curr) * 8) / seconds)%Q) /\
    (unsigned_counters curr -> (0 <= in_bps r)%Q /\ (0 <= out_bps r)%Q).
Proof.
  intros [Hnz Hspeed] Hlt seconds.
  destruct (pair_utilization_later speed prev curr Hlt) as (r & Hpair & Hat & Hin & Hout).
  exists r. split; [|split; [exact Hat|split; [|split]]].
  - unfold calculate_interface_utilization.
    assert (Heff : match ifHighSpeed i with
                   | Some z => if nonzero z then Some z else ifSpeed i
                   | None => ifSpeed i
                   end = Some speed).
    { destruct Hspeed as [->|[[->| ->] ->]]; try reflexivity.
      unfold nonzero. destruct (Z.eqb_spec speed 0); [contradiction | reflexivity]. }
    rewrite Heff.
    destruct (before ++ prev :: curr :: after) as [|first rest] eqn:E;
      [destruct before; discriminate|].
    destruct rest as [|second rest].
    { destruct before as [|b [|b' before]]; discriminate. }
    destruct speed as [|p|p]; [contradiction| |];
      now apply (pairs_utilization_pair _ before after first prev curr).
  - intros Hneg. rewrite Hin. now rewrite octet_delta_reset.
  - intros Hneg. rewrite Hout. now rewrite octet_delta_reset.
  - intros Hcurr. eapply pair_utilization_nonneg; eassumption.
Qed.

End Utilization.

(** A counter reset on a 100 Mbit/s interface: 6000 octets in and 950000
    out stand on the counters a minute after the reset. *)
Lemma utilization_substitutes_counter_witness :
  exists r,
    In r (utilization.calculate_interface_utilization
            (Some {| utilization.ifHighSpeed := Some 100%Z;
                     utilization.ifSpeed := Some 0%Z |})
            [before_reset; after_reset]) /\
    utilization.at_time r = 60%Z /\
    utilization.in_bps r = (inject_Z (6000 * 8) / inject_Z 60)%Q /\
    (0 <= utilization.out_bps r)%Q.
Proof.
  destruct (utilization_substitutes_counter
              {| utilization.ifHighSpeed := Some 100%Z; utilization.ifSpeed := Some 0%Z |}
              100 [] [] before_reset after_reset)
    as (r & Hin & Hat & Hneg & _ & Hpos).
  - split; [discriminate | now left].
  - reflexivity.
  - exists r. split; [exact Hin|]. split; [exact Hat|]. split.
    + apply Hneg. reflexivity.
    + apply Hpos. repeat split; discriminate.
Defined.

(** C5, as stated, fails: the counters are signed columns, filled with what
    [int] makes of the device's text, and a negative counter in the current
    sample is substituted like any other, which gives negative bits per
    second. *)
Lemma negative_counter_negative_rate :
  let prev := {| utilization.timestamp := 0;
                 utilization.ifInOctets := 10; utilization.ifOutOctets := 10;
                 utilization.ifHCInOctets := 0; utilization.ifHCOutOctets := 0 |} in
  let curr := {| utilization.timestamp := 60;
                 utilization.ifInOctets := -5; utilization.ifOutOctets := 20;
                 utilization.ifHCInOctets := 0; utilization.ifHCOutOctets := 0 |} in
  parsers.parse_snmp_value "-5" = Ret (VInt (-5)) /\
  (utilization.byte_difference 0 0 (-5) 10 < 0)%Z /\
  exists r,
    utilization.calculate_interface_utilization
      (Some {| utilization.ifHighSpeed := Some 100%Z; utilization.ifSpeed := Some 0%Z |})
      [prev; curr]
    = [r] /\
    (utilization.in_bps r < 0)%Q.
Proof.
  intros prev curr. split; [vm_compute; reflexivity|]. split; [reflexivity|].
  eexists. split; [reflexivity|]. reflexivity.
Qed.

(** * Further properties *)

(** ** db/connection.py: [db_connection] *)

Section ConnectionMore.
Import connection interface_dao.

(** When the pool fails three times in a row, [db_connection] pauses half a
    second after the first and the second failure, raises the pool's [Error]
    and never runs its body. *)
Theorem db_connection_unavailable {A : Type} (body : db A) (s : store) (rest : list bool) :
  faults s = true :: true :: true :: rest ->
  db_connection body s = (Raise DbError, later rest [500%Z; 500%Z] s).
Proof.
  intros Hf. destruct s as [ifs stats unc fl sl nw]. simpl in Hf. subst fl.
  unfold db_connection, later. cbn [slept interfaces interface_stats uncommitted now].
  change (sl ++ [500%Z; 500%Z]) with (sl ++ [500%Z] ++ [500%Z]).
  rewrite app_assoc. reflexivity.
Qed.

(** A body that returns: [db_connection] returns the same value and closes
    the connection, which rolls back what the body did not commit. *)
Theorem db_connection_returns {A : Type} (body : db A) (s s1 s2 : store) (a : A) :
  connected s = Some s1 ->
  body s1 = (Ret a, s2) ->
  db_connection body s = (Ret a, with_uncommitted [] s2).
Proof. apply db_connection_loop_returns. Qed.

(** The [yield] of [db_connection] stands inside the [try] of its retry
    loop.  So when the body raises a [mysql.connector.Error] and the pool then
    hands out a connection again, the caller of the [with] block gets a
    [RuntimeError], not the [Error], after a pause of half a second. *)
Theorem db_connection_swallows_error {A : Type} (body : db A) (s s1 s2 : store)
        (rest : list bool) :
  get_connection s = (Ret tt, s1) ->
  body s1 = (Raise DbError, s2) ->
  faults s2 = false :: rest ->
  db_connection body s
  = (Raise RuntimeError, with_uncommitted [] (later rest [500%Z] s2)).
Proof.
  intros Hconn Hbody Hf. unfold db_connection. simpl.
  rewrite Hconn, Hbody. simpl.
  destruct s2 as [ifs stats unc fl sl nw]. simpl in Hf. subst fl.
  reflexivity.
Qed.

(** An exception of the body that is no [mysql.connector.Error] passes
    through [db_connection] unchanged, after the connection is closed. *)
Theorem db_connection_passes_other (A : Type) (body : db A) (s s1 s2 : store) (e : exn) :
  get_connection s = (Ret tt, s1) ->
  body s1 = (Raise e, s2) ->
  Error e = false ->
  db_connection body s = (Raise e, with_uncommitted [] s2).
Proof.
  intros Hconn Hbody He. unfold db_connection. simpl.
  rewrite Hconn, Hbody, He. reflexivity.
Qed.

End ConnectionMore.

(** ** db/interface_dao.py: [get_interface_id_map] and
    [save_interface_stats_batch] *)

Section DaoMore.
Import connection interface_dao.

Lemma find_app_first {R : Type} (f : R -> bool) (l l' : list R) :
  find f (l ++ l') = match find f l with Some x => Some x | None => find f l' end.
Proof.
  induction l as [|x l IH]; simpl; [reflexivity|]. destruct (f x); [reflexivity | exact IH].
Qed.

Lemma int_get_set_eq {V : Type} (d : int_dict V) (k : Z) (v : V) :
  int_get k (int_set k v d) = Some v.
Proof.
  induction d as [|[k' v'] r IH]; simpl.
  - now rewrite Z.eqb_refl.
  - destruct (Z.eqb_spec k' k) as [->|Hne]; simpl.
    + now rewrite Z.eqb_refl.
    + destruct (Z.eqb_spec k' k); [contradiction | exact IH].
Qed.

Lemma int_get_set_ne {V : Type} (d : int_dict V) (k k' : Z) (v : V) :
  k <> k' -> int_get k' (int_set k v d) = int_get k' d.
Proof.
  intros Hne. induction d as [|[k0 v0] r IH]; simpl.
  - destruct (Z.eqb_spec k k'); [contradiction | reflexivity].
  - destruct (Z.eqb_spec k0 k) as [->|Hk]; simpl.
    + destruct (Z.eqb_spec k k'); [contradiction | reflexivity].
    + destruct (Z.eqb_spec k0 k'); [reflexivity | exact IH].
Qed.

(** Looking up a key in a dictionary filled row by row finds the last row
    with that key. *)
Lemma fold_set_get {R V : Type} (key : R -> Z) (val : R -> V) (rows : list R)
      (acc : int_dict V) (k : Z) :
  int_get k (fold_left (fun m r => int_set (key r) (val r) m) rows acc)
  = match find (fun r => (key r =? k)%Z) (rev rows) with
    | Some r => Some (val r)
    | None => int_get k acc
    end.
Proof.
  revert acc. induction rows as [|r rs IH]; intros acc; simpl; [reflexivity|].
  rewrite IH, find_app_first.
  destruct (find _ (rev rs)); [reflexivity|]. simpl.
  destruct (Z.eqb_spec (key r) k) as [<-|Hne].
  - apply int_get_set_eq.
  - now apply int_get_set_ne.
Qed.

(** On a store that does not fail, [get_interface_id_map] returns the
    mapping of the router's rows. *)
Lemma get_interface_id_map_healthy (router : Z) (s : store) :
  faults s = [] ->
  get_interface_id_map router s = (Ret (interface_map_of router s), with_uncommitted [] s).
Proof.
  intros Hf. destruct s as [ifs stats unc fl sl nw]. simpl in Hf. subst fl. reflexivity.
Qed.

(** On a store that does not fail, the mapping [get_interface_id_map]
    returns knows exactly the interface indices of the router's rows, and
    maps an index that only one storage id goes with to that id. *)
Theorem interface_map_lookup (router : Z) (s : store) :
  faults s = [] ->
  exists interface_map s',
    get_interface_id_map router s = (Ret interface_map, s') /\
    (forall k, int_mem k interface_map = true <->
               exists row, In row (interfaces s) /\ router_id row = router /\
                           ifIndex row = k) /\
    (forall row, In row (interfaces s) -> router_id row = router ->
       (forall row', In row' (interfaces s) -> router_id row' = router ->
                     ifIndex row' = ifIndex row -> interface_id row' = interface_id row) ->
       int_get (ifIndex row) interface_map = Some (interface_id row)).
Proof.
  intros Hf. exists (interface_map_of router s), (with_uncommitted [] s).
  split; [now apply get_interface_id_map_healthy|].
  unfold interface_map_of, int_mem.
  set (rows := List.filter (fun row => (router_id row =? router)%Z) (interfaces s)).
  assert (Hrows : forall row, In row rows <-> In row (interfaces s) /\ router_id row = router).
  { intros row. unfold rows. rewrite filter_In, Z.eqb_eq. reflexivity. }
  split.
  - intros k. rewrite fold_set_get. simpl. split.
    + destruct (find _ (rev rows)) as [r|] eqn:E; [|discriminate]. intros _.
      apply find_some in E as [Hin Hk]. apply in_rev, Hrows in Hin as [Hin Hr].
      apply Z.eqb_eq in Hk. exists r. auto.
    + intros (row & Hin & Hr & Hk).
      destruct (find _ (rev rows)) as [r|] eqn:E; [reflexivity|]. exfalso.
      assert (Hrow : In row (rev rows)) by (apply in_rev; rewrite rev_involutive; apply Hrows; auto).
      pose proof (find_none _ _ E row Hrow) as Hfalse. cbv beta in Hfalse.
      apply Z.eqb_eq in Hk. congruence.
  - intros row Hin Hr Huniq. rewrite fold_set_get. simpl.
    destruct (find _ (rev rows)) as [r|] eqn:E.
    + apply find_some in E as [Hin' Hk]. apply in_rev, Hrows in Hin' as [Hin' Hr'].
      apply Z.eqb_eq in Hk. f_equal. now apply Huniq.
    + exfalso.
      assert (Hrow : In row (rev rows)) by (apply in_rev; rewrite rev_involutive; apply Hrows; auto).
      pose proof (find_none _ _ E row Hrow) as Hfalse. cbv beta in Hfalse.
      rewrite Z.eqb_refl in Hfalse. discriminate.
Qed.

Lemma only_raises_bind {A B : Type} (allowed : exn -> bool) (c : db A) (k : A -> db B) :
  only_raises allowed c -> (forall a, only_raises allowed (k a)) ->
  only_raises allowed (bind c k).
Proof.
  intros Hc Hk s e s'. unfold bind. destruct (c s) as [[a|e0] s1] eqn:E.
  - apply Hk.
  - intros [= <- <-]. eapply Hc. exact E.
Qed.

Lemma only_raises_ret {A : Type} (allowed : exn -> bool) (a : A) :
  only_raises allowed (ret (S := store) a).
Proof. intros s e s'. discriminate. Qed.

Lemma only_raises_exchange : only_raises Error exchange.
Proof.
  intros s e s'. unfold exchange. destruct (faults s) as [|[|] rest]; try discriminate.
  now intros [= <- <-].
Qed.

Lemma only_raises_execute_loop (max_retries n retry_count : nat) :
  only_raises Error (execute_loop exchange max_retries n retry_count).
Proof.
  revert retry_count. induction n as [|n IH]; intros retry_count s e s'; simpl.
  - discriminate.
  - unfold try_except.
    destruct ((exchange ;;; ret true)%monad s) as [[b|e0] s1] eqn:E; [discriminate|].
    assert (He0 : Error e0 = true).
    { eapply (only_raises_bind Error exchange (fun _ => ret true));
        [apply only_raises_exchange | intros; apply only_raises_ret | exact E]. }
    rewrite He0. destruct (max_retries <=? S retry_count).
    + now intros [= <- <-].
    + unfold bind, connection.time_sleep, modify. apply IH.
Qed.

Lemma only_raises_db_connection_loop {A : Type} (body : db A)
      (max_retries n retry_count : nat) (connection thrown : bool) :
  only_raises Error body ->
  only_raises error_or_runtime_error
              (db_connection_loop body max_retries n retry_count connection thrown).
Proof.
  intros Hb. revert retry_count connection thrown.
  induction n as [|n IH]; intros retry_count connection thrown s e s'; simpl.
  - now intros [= <- <-].
  - unfold get_connection. destruct (exchange s) as [[[]|e0] s1] eqn:Ex.
    + destruct thrown.
      * now intros [= <- <-].
      * destruct (body s1) as [[a|e1] s2] eqn:Eb; [discriminate|].
        pose proof (Hb _ _ _ Eb) as He1. rewrite He1.
        destruct (max_retries <=? S retry_count).
        -- intros [= <- <-]. unfold error_or_runtime_error. now rewrite He1.
        -- unfold bind, connection.time_sleep, close, modify. apply IH.
    + pose proof (only_raises_exchange _ _ _ Ex) as He0.
      destruct (max_retries <=? S retry_count).
      * unfold bind. destruct connection; simpl; intros [= <- <-];
          unfold error_or_runtime_error; now rewrite He0.
      * unfold bind, connection.time_sleep, modify.
        destruct connection; simpl; apply IH.
Qed.

(** Whatever the store does, [get_interface_id_map] leaves the tables as
    they were, and the only exception it can raise is the [RuntimeError] of
    [db_connection]: a [mysql.connector.Error] never leaves it. *)
Theorem get_interface_id_map_raises_only_runtime_error (router : Z) (s : store) :
  same_tables s (snd (get_interface_id_map router s)) /\
  forall e, fst (get_interface_id_map router s) = Raise e -> e = RuntimeError.
Proof.
  split; [apply get_interface_id_map_keeps|].
  unfold get_interface_id_map, try_except, db_connection.
  match goal with
  | |- context [db_connection_loop ?b 3 3 0 false false s] =>
      pose proof (only_raises_db_connection_loop b 3 3 0 false false) as Hloop;
        destruct (db_connection_loop b 3 3 0 false false s) as [[m|e0] s1] eqn:E
  end.
  - discriminate.
  - intros e. assert (He0 : error_or_runtime_error e0 = true).
    { eapply Hloop; [|exact E].
      apply only_raises_bind; [apply only_raises_execute_loop|].
      intros _. apply only_raises_bind; [intros ? ? ?; discriminate|].
      intros; apply only_raises_ret. }
    destruct e0; simpl in *; try discriminate; congruence.
Qed.

(** The rows [stats_values] prepares: one for each sample whose interface
    index the mapping knows, in order, stamped with the current time and
    carrying the storage id the mapping gives for the index; the other samples
    are dropped. *)
Lemma stats_values_spec (interfaces_data : list (dict value)) (interface_map : int_dict Z)
      (current_time : string) (acc rows : list stat_row) :
  stats_values interfaces_data interface_map current_time acc = Ret rows ->
  exists rows',
    rows = acc ++ rows' /\
    List.length rows' = List.length (List.filter (known interface_map) interfaces_data) /\
    (forall row, In row rows' ->
       timestamp row = current_time /\
       exists interface if_index,
         In interface interfaces_data /\ index_of interface = Some if_index /\
         int_get if_index interface_map = Some (stat_interface_id row)).
Proof.
  revert acc. induction interfaces_data as [|interface rest IH]; intros acc; simpl.
  - intros [= <-]. exists []. rewrite app_nil_r.
    split; [reflexivity|]. split; [reflexivity|]. intros row [].
  - unfold known at 1. unfold int_mem.
    destruct (index_of interface) as [if_index|] eqn:Ei.
    + destruct (int_get if_index interface_map) as [id|] eqn:Eg.
      * destruct (stats_row id current_time interface) as [row|e] eqn:Er; [|discriminate].
        intros Hrun. destruct (IH _ Hrun) as (rows' & -> & Hlen & Hrows).
        exists (row :: rows'). rewrite <- app_assoc. split; [reflexivity|].
        split; [simpl; now rewrite Hlen|].
        intros row' [<-|Hin].
        -- assert (Hrow : timestamp row = current_time /\ stat_interface_id row = id).
           { unfold stats_row in Er.
             repeat match type of Er with
                    | match ?x with Ret _ => _ | Raise _ => _ end = _ =>
                        destruct x; [|discriminate]
                    end.
             injection Er as <-. split; reflexivity. }
           destruct Hrow as [Ht Hid]. split; [exact Ht|].
           exists interface, if_index. rewrite Hid. auto.
        -- destruct (Hrows row' Hin) as (Ht & i & k & Hi & Hk & Hg).
           split; [exact Ht|]. exists i, k. auto.
      * intros Hrun. destruct (IH _ Hrun) as (rows' & -> & Hlen & Hrows).
        exists rows'. split; [reflexivity|]. split; [exact Hlen|].
        intros row' Hin. destruct (Hrows row' Hin) as (Ht & i & k & Hi & Hk & Hg).
        split; [exact Ht|]. exists i, k. auto.
    + intros Hrun. destruct (IH _ Hrun) as (rows' & -> & Hlen & Hrows).
      exists rows'. split; [reflexivity|]. split; [exact Hlen|].
      intros row' Hin. destruct (Hrows row' Hin) as (Ht & i & k & Hi & Hk & Hg).
      split; [exact Ht|]. exists i, k. auto.
Qed.

End DaoMore.

Section BatchMore.
Import connection interface_dao.

Ltac run_healthy Hf :=
  unfold save_interface_stats_batch, try_except, db_connection;
  cbn [db_connection_loop]; unfold get_connection, exchange; rewrite Hf;
  unfold bind at 1, gets; unfold bind at 1;
  rewrite (get_interface_id_map_healthy _ _ Hf).

(** On a store that does not fail and knows interfaces of the router,
    [save_interface_stats_batch] appends to [interface_stats] one row for each
    sample whose interface index is known, commits them and returns [True];
    the samples with an unknown index are dropped. *)
Theorem batch_saved (interfaces_data : list (dict value)) (router : Z) (s : store)
        (rows : list stat_row) :
  faults s = [] ->
  interface_map_of router s <> [] ->
  stats_values interfaces_data (interface_map_of router s) (now s) [] = Ret rows ->
  rows <> [] ->
  save_interface_stats_batch interfaces_data router s
  = (Ret true,
     {| interfaces := interfaces s;
        interface_stats := interface_stats s ++ rows;
        uncommitted := []; faults := []; slept := slept s; now := now s |}) /\
  List.length rows
  = List.length (List.filter (known (interface_map_of router s)) interfaces_data).
Proof.
  intros Hf Hmap Hrows Hne. split.
  - run_healthy Hf.
    destruct (interface_map_of router s) as [|entry more]; [contradiction|].
    unfold bind at 1, lift. cbn [now with_uncommitted]. rewrite Hrows.
    destruct rows as [|row rows]; [contradiction|].
    destruct s as [ifs stats unc fl sl nw]. simpl in Hf. subst fl. reflexivity.
  - destruct (stats_values_spec _ _ _ _ _ Hrows) as (rows' & -> & Hlen & _).
    exact Hlen.
Qed.

(** A batch none of whose samples has a known interface index is rejected:
    [False], nothing written. *)
Theorem batch_without_known_sample (interfaces_data : list (dict value)) (router : Z)
        (s : store) :
  faults s = [] ->
  List.filter (known (interface_map_of router s)) interfaces_data = [] ->
  save_interface_stats_batch interfaces_data router s
  = (Ret false, with_uncommitted [] s).
Proof.
  intros Hf Hnone. run_healthy Hf.
  destruct (interface_map_of router s) as [|entry more]; [reflexivity|].
  assert (Hrows : stats_values interfaces_data (entry :: more) (now s) [] = Ret []).
  { revert Hnone. generalize (entry :: more). intros m.
    induction interfaces_data as [|interface rest IH]; simpl; [reflexivity|].
    unfold known at 1, int_mem.
    destruct (index_of interface) as [k|]; [destruct (int_get k m)|];
      try discriminate; exact IH. }
  unfold bind at 1, lift. cbn [now with_uncommitted]. rewrite Hrows. reflexivity.
Qed.

(** A sample whose counter does not convert to an integer makes
    [save_interface_stats_batch] raise what [int] raised (a [ValueError] for
    text that is no number): the exception is no [mysql.connector.Error], so
    nothing catches it, and no row is written. *)
Theorem batch_conversion_error (interfaces_data : list (dict value)) (router : Z)
        (s : store) (e : exn) :
  faults s = [] ->
  interface_map_of router s <> [] ->
  stats_values interfaces_data (interface_map_of router s) (now s) [] = Raise e ->
  Error e = false ->
  save_interface_stats_batch interfaces_data router s = (Raise e, with_uncommitted [] s).
Proof.
  intros Hf Hmap Hrows He. run_healthy Hf.
  destruct (interface_map_of router s) as [|entry more]; [contradiction|].
  unfold bind at 1, lift. cbn [now with_uncommitted]. rewrite Hrows.
  unfold bind, raise, close, modify. rewrite He. unfold raise. rewrite He. reflexivity.
Qed.

End BatchMore.

(** A batch with a sample for an interface the store does not know and a
    sample for interface 1. *)
Lemma batch_saved_witness :
  interface_dao.save_interface_stats_batch
    ([("ifIndex", VInt 7); ("ifInOctets", VInt 5)] :: one_sample) 1 one_interface
  = (Ret true,
     {| connection.interfaces := connection.interfaces one_interface;
        connection.interface_stats :=
          [{| connection.stat_interface_id := 10;
              connection.timestamp := "2026-01-01 00:00:00";
              connection.ifAdminStatus := 1; connection.ifOperStatus := 1;
              connection.ifInOctets := 1000; connection.ifOutOctets := 2000;
              connection.ifHCInOctets := 1000; connection.ifHCOutOctets := 2000 |}];
        connection.uncommitted := []; connection.faults := [];
        connection.slept := []; connection.now := "2026-01-01 00:00:00" |}).
Proof.
  refine (proj1 (batch_saved
                   ([("ifIndex", VInt 7); ("ifInOctets", VInt 5)] :: one_sample)
                   1 one_interface _ eq_refl _ eq_refl _)).
  - discriminate.
  - discriminate.
Defined.

(** A sample for an interface the store does not know, a sample without an
    index, and a sample for interface 1 whose index is the string the walk
    gives. *)
Lemma batch_without_known_sample_witness :
  interface_dao.save_interface_stats_batch
    [[("ifIndex", VInt 7); ("ifInOctets", VInt 5)]; [("ifInOctets", VInt 9)];
     [("ifIndex", VStr "1"); ("ifInOctets", VInt 1000)]]
    1 one_interface
  = (Ret false, one_interface).
Proof.
  exact (batch_without_known_sample
           [[("ifIndex", VInt 7); ("ifInOctets", VInt 5)]; [("ifInOctets", VInt 9)];
            [("ifIndex", VStr "1"); ("ifInOctets", VInt 1000)]]
           1 one_interface eq_refl eq_refl).
Defined.

(** A sample whose operational status is the text net-snmp prints by
    default. *)
Lemma batch_conversion_error_witness :
  interface_dao.save_interface_stats_batch
    [[("ifIndex", VInt 1); ("ifOperStatus", VStr "up(1)")]] 1 one_interface
  = (Raise ValueError, one_interface).
Proof.
  refine (batch_conversion_error
            [[("ifIndex", VInt 1); ("ifOperStatus", VStr "up(1)")]] 1 one_interface
            ValueError eq_refl _ eq_refl eq_refl).
  discriminate.
Defined.

Lemma interface_map_lookup_witness :
  exists interface_map s',
    interface_dao.get_interface_id_map 1 one_interface = (Ret interface_map, s') /\
    int_get 1 interface_map = Some 10%Z /\ int_mem 2 interface_map = false.
Proof.
  destruct (interface_map_lookup 1 one_interface eq_refl) as (m & s' & Hrun & _ & _).
  exists m, s'. split; [exact Hrun|].
  vm_compute in Hrun. injection Hrun as <- _. split; reflexivity.
Defined.

(** The lookup's statement fails three times, then the pool hands out a
    connection again: the caller gets the [RuntimeError]. *)
Lemma get_interface_id_map_raises_only_runtime_error_witness :
  same_tables
    (connection.with_faults [false; true; true; true; false] one_interface)
    (snd (interface_dao.get_interface_id_map 1
            (connection.with_faults [false; true; true; true; false] one_interface))) /\
  fst (interface_dao.get_interface_id_map 1
         (connection.with_faults [false; true; true; true; false] one_interface))
  = Raise RuntimeError.
Proof.
  split.
  - exact (proj1 (get_interface_id_map_raises_only_runtime_error 1
                    (connection.with_faults [false; true; true; true; false]
                                            one_interface))).
  - reflexivity.
Defined.

Lemma db_connection_unavailable_witness :
  connection.db_connection (monad.ret true)
    (connection.with_faults [true; true; true; false] one_interface)
  = (Raise DbError, later [false] [500%Z; 500%Z] one_interface).
Proof.
  exact (db_connection_unavailable (monad.ret true)
           (connection.with_faults [true; true; true; false] one_interface)
           [false] eq_refl).
Defined.

Lemma db_connection_returns_witness :
  connection.db_connection (monad.ret true) one_interface = (Ret true, one_interface).
Proof.
  exact (db_connection_returns (monad.ret true) one_interface one_interface one_interface
           true eq_refl eq_refl).
Defined.

(** The lookup's statement fails three times, then the pool hands out a
    connection again. *)
Lemma db_connection_swallows_error_witness :
  connection.db_connection
    (connection.execute_with_retry connection.exchange 3)
    (connection.with_faults [false; true; true; true; false] one_interface)
  = (Raise RuntimeError, later [] [1000%Z; 2000%Z; 500%Z] one_interface).
Proof.
  exact (db_connection_swallows_error
           (connection.execute_with_retry connection.exchange 3)
           (connection.with_faults [false; true; true; true; false] one_interface)
           (connection.with_faults [true; true; true; false] one_interface)
           (later [false] [1000%Z; 2000%Z] one_interface)
           [] eq_refl eq_refl eq_refl).
Defined.

Lemma db_connection_passes_other_witness :
  connection.db_connection (monad.raise (A := bool) ValueError) one_interface
  = (Raise ValueError, one_interface).
Proof.
  exact (db_connection_passes_other bool (monad.raise ValueError) one_interface
           one_interface one_interface ValueError eq_refl eq_refl eq_refl).
Defined.

Lemma execute_with_retry_backoff_witness :
  connection.execute_with_retry connection.exchange 3
    (connection.with_faults [true; true; false; true] one_interface)
  = (Ret true, later [true] [1000%Z; 2000%Z] one_interface) /\
  connection.execute_with_retry connection.exchange 3
    (connection.with_faults [true; true; true; false] one_interface)
  = (Raise DbError, later [false] [1000%Z; 2000%Z] one_interface).
Proof.
  split.
  - exact (proj1 (proj2 (proj2 (execute_with_retry_backoff
             (connection.with_faults [true; true; false; true] one_interface) [true])))
             eq_refl).
  - exact (proj2 (proj2 (proj2 (execute_with_retry_backoff
             (connection.with_faults [true; true; true; false] one_interface) [false])))
             eq_refl).
Defined.

Lemma no_connection_rejects_batch_witness :
  exists s',
    interface_dao.save_interface_stats_batch one_sample 1
      (connection.with_faults [true; true; true] one_interface) = (Ret false, s') /\
    connection.interface_stats s' = [].
Proof.
  exact (no_connection_rejects_batch one_sample 1
           (connection.with_faults [true; true; true] one_interface) eq_refl).
Defined.

(** ** main.py: [process_routers] *)

Section OrchestratorMore.
Import main.
Context {W : Type} `{Poller W}.


End OrchestratorMore.


(** ** db/schema.py, further *)

Section PartitionsMore.
Import schema.
Local Open Scope Z_scope.

Lemma partition_exists_app (n : partition_name) (table extra : list partition) :
  partition_exists n (table ++ extra)
  = partition_exists n table || partition_exists n extra.
Proof. unfold partition_exists. apply existsb_app. Qed.

Lemma create_loop_keeps_existing (current_date interval_days i : Z) (count : nat)
      (table : list partition) (n : partition_name) :
  partition_exists n table = true ->
  partition_exists n (create_loop current_date interval_days i count table) = true.
Proof.
  revert i table. induction count as [|count IH]; intros i table Hex; simpl; [exact Hex|].
  apply IH.
  destruct (partition_exists (p_ (current_date + i * interval_days)) table) eqn:E;
    [exact Hex|].
  unfold add_partition. rewrite partition_exists_app, Hex. reflexivity.
Qed.

Lemma create_loop_creates (current_date interval_days i : Z) (count : nat)
      (table : list partition) (j : Z) :
  i <= j < i + Z.of_nat count ->
  partition_exists (p_ (current_date + j * interval_days))
                   (create_loop current_date interval_days i count table) = true.
Proof.
  revert i table. induction count as [|count IH]; intros i table Hj; [lia|]. simpl.
  destruct (Z.eq_dec j i) as [->|Hne].
  - apply create_loop_keeps_existing.
    destruct (partition_exists (p_ (current_date + i * interval_days)) table) eqn:E;
      [exact E|].
    unfold add_partition. rewrite partition_exists_app, E.
    unfold partition_exists. cbn [existsb name name_eqb]. now rewrite Z.eqb_refl.
  - apply IH. lia.
Qed.

Lemma create_loop_noop (current_date interval_days i : Z) (count : nat)
      (table : list partition) :
  (forall j, i <= j < i + Z.of_nat count ->
             partition_exists (p_ (current_date + j * interval_days)) table = true) ->
  create_loop current_date interval_days i count table = table.
Proof.
  revert i. induction count as [|count IH]; intros i Hall; simpl; [reflexivity|].
  rewrite (Hall i) by lia. apply IH. intros j Hj. apply Hall. lia.
Qed.

(** [create_time_partitions] is idempotent: run again on the same day with
    the same interval, it creates nothing, whatever the table held before the
    first run. *)
Theorem create_time_partitions_idempotent (current_date interval_days : Z)
        (num_partitions : nat) (table : list partition) :
  let once := create_time_partitions current_date interval_days num_partitions table in
  create_time_partitions current_date interval_days num_partitions once = once /\
  (forall n, partition_exists n table = true -> partition_exists n once = true) /\
  (NoDup (names table) -> NoDup (names once)).
Proof.
  intros once. split; [|split].
  - unfold create_time_partitions. apply create_loop_noop.
    intros j Hj. subst once. unfold create_time_partitions.
    now apply create_loop_creates.
  - intros n. apply create_loop_keeps_existing.
  - apply create_loop_nodup.
Qed.

Lemma seeded_table (current_date interval_days : Z) (table : list partition) :
  0 < interval_days -> latest_partition table = None -> well_formed table ->
  let seeded_table :=
    table ++ map (seeded current_date interval_days) [0; 1; 2; 3; 4; 5] in
  well_formed seeded_table /\
  days_covered current_date seeded_table = Some (interval_days * 6).
Proof.
  intros Hpos Hnone Hwf seeded_table. split.
  - intros p s Hin Hname. apply in_app_or in Hin as [Hin|Hin].
    + now apply (Hwf p).
    + cbn [map In] in Hin.
      repeat (destruct Hin as [<-|Hin];
              [unfold seeded in *; cbn [less_than name] in *;
               apply p_inj in Hname; lia|]).
      destruct Hin.
  - unfold days_covered. subst seeded_table.
    change (map (seeded current_date interval_days) [0; 1; 2; 3; 4; 5])
      with (map (seeded current_date interval_days) [0; 1; 2; 3; 4]
            ++ [{| name := p_ (current_date + 5 * interval_days);
                   less_than := current_date + (5 + 1) * interval_days |}]).
    rewrite app_assoc, latest_app_new.
    + cbn [less_than]. f_equal. lia.
    + intros q Hq Hdq. apply in_app_or in Hq as [Hq|Hq].
      * exfalso. apply Hdq. now apply (proj1 (latest_none table) Hnone).
      * cbn [map In] in Hq.
        repeat (destruct Hq as [<-|Hq]; [unfold seeded; cbn [less_than]; lia|]).
        destruct Hq.
Qed.

(** The first [create_database_tables] on a database without
    [interface_stats], with a positive interval, leaves [p_default] and six
    consecutive dated partitions, six intervals of coverage from today; a
    second call on the same day changes nothing.  Both calls end in the
    maintenance step, which finds a dated partition and raises
    [TypeError]. *)
Theorem create_database_tables_bootstrap (current_date interval_days : Z) :
  0 < interval_days ->
  let fresh := snd (create_database_tables current_date interval_days None) in
  fresh = {| name := p_default; less_than := default_bound |}
          :: map (seeded current_date interval_days) [0; 1; 2; 3; 4; 5] /\
  days_covered current_date fresh = Some (interval_days * 6) /\
  snd (create_database_tables current_date interval_days (Some fresh)) = fresh /\
  fst (create_database_tables current_date interval_days None) = Raise TypeError /\
  fst (create_database_tables current_date interval_days (Some fresh)) = Raise TypeError.
Proof.
  intros Hpos.
  set (base := [{| name := p_default; less_than := default_bound |}]).
  assert (Hnone : latest_partition base = None) by reflexivity.
  assert (Hwf : well_formed base).
  { intros p s [<-|[]] Hname. discriminate. }
  destruct (seeded_table current_date interval_days base Hpos Hnone Hwf) as [Hwf1 Hcov].
  assert (Hcreate : create_time_partitions current_date interval_days 6 base
                    = base ++ map (seeded current_date interval_days) [0; 1; 2; 3; 4; 5]).
  { unfold create_time_partitions. rewrite <- (app_nil_r base) at 1.
    rewrite (create_loop_fresh _ _ _ _ _ _ Hpos Hnone); [reflexivity|]. intros q []. }
  assert (Hlatest : exists p,
             latest_partition
               (base ++ map (seeded current_date interval_days) [0; 1; 2; 3; 4; 5])
             = Some p).
  { destruct (latest_partition
                (base ++ map (seeded current_date interval_days) [0; 1; 2; 3; 4; 5]))
      as [p|] eqn:E; [eauto|].
    exfalso. unfold days_covered in Hcov. cbv zeta in Hcov. rewrite E in Hcov.
    discriminate. }
  destruct Hlatest as [p Hp].
  assert (Hfresh : create_database_tables current_date interval_days None
                   = (Raise TypeError,
                      base ++ map (seeded current_date interval_days) [0; 1; 2; 3; 4; 5])).
  { unfold create_database_tables.
    destruct (Z.ltb_spec 0 interval_days); [|lia].
    fold base. rewrite Hcreate.
    now rewrite (maintain_partitions_dated _ _ _ p Hp). }
  intros fresh. subst fresh. rewrite Hfresh. cbn [fst snd].
  assert (Hagain : create_database_tables current_date interval_days
                     (Some (base ++ map (seeded current_date interval_days)
                                        [0; 1; 2; 3; 4; 5]))
                   = (Raise TypeError,
                      base ++ map (seeded current_date interval_days) [0; 1; 2; 3; 4; 5])).
  { unfold create_database_tables.
    destruct (Z.ltb_spec 0 interval_days); [|lia].
    now rewrite (maintain_partitions_dated _ _ _ p Hp). }
  rewrite Hagain. cbn [fst snd].
  split; [reflexivity|]. split; [exact Hcov|]. repeat split.
Qed.

End PartitionsMore.

Lemma create_time_partitions_idempotent_witness :
  let table := [{| schema.name := schema.p_default; schema.less_than := default_bound |};
                {| schema.name := schema.p_ 739000; schema.less_than := 739030 |}] in
  let once := schema.create_time_partitions 739000 30 6 table in
  NoDup (names once) /\ List.length once = 7 /\
  schema.create_time_partitions 739000 30 6 once = once.
Proof.
  intros table once.
  destruct (create_time_partitions_idempotent 739000 30 6 table) as (Hsame & _ & Hnd).
  split; [|split; [reflexivity | exact Hsame]].
  apply Hnd. apply NoDup_cons; [intros [H|[]]; discriminate H|].
  apply NoDup_cons; [intros [] | apply NoDup_nil].
Defined.

Lemma create_database_tables_bootstrap_witness :
  snd (create_database_tables 739000 30
         (Some (snd (create_database_tables 739000 30 None))))
  = snd (create_database_tables 739000 30 None) /\
  fst (create_database_tables 739000 30 None) = Raise TypeError.
Proof.
  destruct (create_database_tables_bootstrap 739000 30 eq_refl)
    as (_ & _ & Hsame & Hraise & _).
  split; [exact Hsame | exact Hraise].
Defined.

(** ** snmp/client.py, further *)

Section ClientMore.
Import parsers client constants.
Context {W : Type} `{Subprocess W} `{FloatOps}.

Lemma device_info_loop_events (items : list (string * string))
      (router_ip community : string) (port timeout retries : Z) (interval : Q)
      (d : dict value) (w : world W) :
  exists d' w',
    device_info_loop items router_ip community port timeout retries interval d w
    = (Ret d', w') /\
    events w'
    = events w
      ++ queries "snmpget" router_ip community port timeout retries interval
                 (map snd (List.filter (fun item => sys_prefixed (fst item)) items)).
Proof.
  revert d w. induction items as [|[name oid] rest IH]; intros d w; simpl.
  - exists d, w. split; [reflexivity | now rewrite app_nil_r].
  - destruct (sys_prefixed name) eqn:Esys.
    + destruct (snmp_get_spec router_ip oid community port timeout retries w)
        as (v & Hget & _).
      unfold bind at 1. rewrite Hget. unfold bind at 1, sleep, modify.
      cbn [network events].
      match goal with
      | |- context [device_info_loop rest _ _ _ _ _ _ ?d1 ?w1] =>
          destruct (IH d1 w1) as (d' & w' & Hrun & Hev)
      end.
      exists d', w'. split; [exact Hrun|]. rewrite Hev. cbn [events map snd].
      unfold queries. cbn [flat_map]. now rewrite <- !app_assoc.
    + apply IH.
Qed.

(** [get_device_info] runs six [snmpget] commands, for the six system
    attributes in the order of [OID_CONSTANTS], pauses for the request
    interval after each of them, and does nothing else to the outside. *)
Theorem get_device_info_trace (router_ip community : string)
        (port timeout retries : Z) (request_interval : Q) (w : world W) :
  exists device_info w',
    get_device_info router_ip community port timeout retries request_interval w
    = (Ret device_info, w') /\
    events w'
    = events w
      ++ queries "snmpget" router_ip community port timeout retries request_interval
                 ["1.3.6.1.2.1.1.5.0"; "1.3.6.1.2.1.1.1.0"; "1.3.6.1.2.1.1.3.0";
                  "1.3.6.1.2.1.1.6.0"; "1.3.6.1.2.1.1.4.0"; "1.3.6.1.2.1.1.2.0"].
Proof.
  unfold get_device_info.
  destruct (device_info_loop_events OID_CONSTANTS router_ip community port timeout
              retries request_interval [("ip_address", VStr router_ip)] w)
    as (d & w' & Hrun & Hev).
  exists d, w'. split; [exact Hrun | exact Hev].
Qed.

Lemma fold_left_no_index (ip_addresses : dict value) (mapping : dict (list string)) :
  fold_left
    (fun mapping '(idx, address) =>
       match get idx ([] : dict value) with
       | Some v => setdefault_append (str_of_value v) (str_of_value address) mapping
       | None => mapping
       end)
    ip_addresses mapping
  = mapping.
Proof.
  revert mapping. induction ip_addresses as [|[idx address] rest IH]; intros mapping;
    simpl; [reflexivity | apply IH].
Qed.

(** [get_ip_to_interface_mapping] never raises; it walks the address table
    and then the address-to-index table, pausing after each, and returns the
    empty mapping when either walk fails. *)
Theorem ip_mapping_soft_failure (router_ip community : string)
        (port timeout retries : Z) (request_interval : Q) (w : world W) :
  let first := command "snmpwalk" router_ip (oid "ipAddress") community port timeout
                       retries in
  let second := command "snmpwalk" router_ip (oid "ipAdEntIfIndex") community port
                        timeout retries in
  let answer1 := create_subprocess_exec first (network w) in
  let answer2 := create_subprocess_exec second (snd answer1) in
  exists mapping,
    get_ip_to_interface_mapping router_ip community port timeout retries
                                request_interval w
    = (Ret mapping,
       {| network := snd answer2;
          events := events w ++ [Exec first; Sleep request_interval;
                                 Exec second; Sleep request_interval] |}) /\
    (transport_failure (fst answer1) = true -> mapping = []) /\
    (transport_failure (fst answer2) = true -> mapping = []).
Proof.
  intros first second answer1 answer2. unfold get_ip_to_interface_mapping.
  destruct (snmp_walk_spec router_ip (oid "ipAddress") community port timeout retries w)
    as (m1 & Hw1 & Hf1).
  fold first in Hw1, Hf1. fold answer1 in Hw1, Hf1.
  unfold bind at 1. rewrite Hw1. unfold bind at 1, sleep, modify. cbn [network events].
  match goal with
  | |- context [bind _ _ ?w1] =>
      destruct (snmp_walk_spec router_ip (oid "ipAdEntIfIndex") community port timeout
                  retries w1) as (m2 & Hw2 & Hf2)
  end.
  cbn [network events] in Hw2, Hf2. fold second in Hw2, Hf2. fold answer2 in Hw2, Hf2.
  unfold bind at 1. rewrite Hw2. unfold bind at 1, sleep, modify, ret.
  cbn [network events].
  eexists. split.
  - f_equal. f_equal. rewrite <- !app_assoc. reflexivity.
  - split.
    + intros Hfail. rewrite (Hf1 Hfail). reflexivity.
    + intros Hfail. rewrite (Hf2 Hfail). apply fold_left_no_index.
Qed.

End ClientMore.

Lemma get_device_info_trace_witness :
  exists device_info w',
    client.get_device_info "192.0.2.1" "public" 161 2 2 (1 # 10) silent
    = (Ret device_info, w') /\
    List.length (client.events w') = 12.
Proof.
  destruct (get_device_info_trace (W := list client.spawn)
              "192.0.2.1" "public" 161 2 2 (1 # 10) silent)
    as (d & w' & Hrun & Hev).
  exists d, w'. split; [exact Hrun|]. rewrite Hev. reflexivity.
Defined.

Lemma ip_mapping_soft_failure_witness :
  fst (client.get_ip_to_interface_mapping "192.0.2.1" "public" 161 2 2 (1 # 10) silent)
  = Ret [].
Proof.
  destruct (ip_mapping_soft_failure (W := list client.spawn)
              "192.0.2.1" "public" 161 2 2 (1 # 10) silent)
    as (m & Hrun & Hfail & _).
  rewrite Hrun. cbn [fst]. now rewrite (Hfail eq_refl).
Defined.

Lemma monitored_interfaces_soft_failure_witness :
  fst (client.get_monitored_interfaces [(6%Z, "ethernetCsmacd")]
         "192.0.2.1" "public" 161 2 2 (1 # 10) silent)
  = Ret [] /\
  fst (client.get_monitored_interfaces [(6%Z, "ethernetCsmacd")]
         "192.0.2.1" "public" 161 2 2 (1 # 10)
         {| client.network := [client.answers 0 ".1.3.6.1.2.1.2.2.1.3.1 = INTEGER: 24"];
            client.events := [] |})
  = Ret [].
Proof.
  split.
  - rewrite (monitored_interfaces_soft_failure (W := list client.spawn)
               [(6%Z, "ethernetCsmacd")] "192.0.2.1" "public" 161 2 2 (1 # 10) silent);
      [reflexivity|].
    left. reflexivity.
  - rewrite (monitored_interfaces_soft_failure (W := list client.spawn)
               [(6%Z, "ethernetCsmacd")] "192.0.2.1" "public" 161 2 2 (1 # 10));
      [reflexivity|].
    right. eexists. split; reflexivity.
Defined.

(** ** snmp/client.py: the assembled interfaces *)

Section Runs.
Context {S A B : Type}.

Lemma bind_run (c : M S A) (k : A -> M S B) (s s' : S) (a : A) :
  c s = (Ret a, s') -> bind c k s = k a s'.
Proof. intros Hc. unfold bind. now rewrite Hc. Qed.

End Runs.

Section DictMore.
Context {V : Type}.
Implicit Types (d : dict V) (k : string) (v : V).

Lemma set_keys_nodup d k v : NoDup (keys d) -> NoDup (keys (set k v d)).
Proof.
  intros Hnd. destruct (get k d) eqn:E.
  - rewrite keys_set_old; [exact Hnd | congruence].
  - rewrite (keys_set_new _ _ _ E).
    apply NoDup_app; [exact Hnd | apply NoDup_cons; [intros [] | apply NoDup_nil] |].
    intros x Hx [<-|[]]. now apply (proj1 (get_none_keys d k) E).
Qed.

Lemma get_in_nodup d k v : NoDup (keys d) -> In (k, v) d -> get k d = Some v.
Proof.
  induction d as [|[k0 v0] r IH]; simpl; [intros _ []|].
  intros Hnd [[= -> ->]|Hin].
  - now rewrite String.eqb_refl.
  - inversion Hnd as [|? ? Hk0 Hr]; subst.
    destruct (String.eqb_spec k0 k) as [->|Hne].
    + exfalso. apply Hk0. unfold keys. now apply (in_map fst _ (k, v)).
    + now apply IH.
Qed.

Lemma get_some_in_keys d k v : get k d = Some v -> In k (keys d).
Proof.
  intros Hg. destruct (in_dec string_dec k (keys d)) as [Hin|Hout]; [exact Hin|].
  apply get_none_keys in Hout. congruence.
Qed.

End DictMore.

Section AssemblerMore.
Import parsers client constants.
Context {W : Type} `{Subprocess W} `{FloatOps}.
Variable INTERFACE_TYPES_TO_MONITOR : list (Z * string).

Lemma parse_walk_lines_nodup (lines : list chars) (acc m : dict value) :
  NoDup (keys acc) -> parse_walk_lines lines acc = Ret m -> NoDup (keys m).
Proof.
  revert acc. induction lines as [|line rest IH]; intros acc Hnd; simpl.
  - now intros [= <-].
  - destruct (parse_walk_line line) as [[[index v]|]|e]; [| |discriminate].
    + apply IH. now apply set_keys_nodup.
    + now apply IH.
Qed.

(** The indices of a walk are distinct. *)
Lemma snmp_walk_nodup (target oid community : string) (port timeout retries : Z)
      (w : world W) (m : dict value) :
  fst (snmp_walk target oid community port timeout retries w) = Ret m -> NoDup (keys m).
Proof.
  unfold snmp_walk, try_except, bind, communicate.
  destruct (create_subprocess_exec _ (network w)) as [[proc|e] n]; simpl.
  - destruct (returncode proc =? 0)%Z; simpl.
    + destruct (stdout proc) as [out|]; simpl.
      * unfold lift, parse_snmp_walk_response.
        destruct (parse_walk_lines _ []) as [m'|e] eqn:E; simpl.
        -- intros [= <-]. apply (parse_walk_lines_nodup _ [] m' (NoDup_nil _) E).
        -- intros [= <-]. apply NoDup_nil.
      * intros [= <-]. apply NoDup_nil.
    + destruct (stderr proc); simpl; intros [= <-]; apply NoDup_nil.
  - intros [= <-]. apply NoDup_nil.
Qed.


Lemma monitored_loop_in (items : list (string * value)) (acc r : list string) :
  monitored_loop INTERFACE_TYPES_TO_MONITOR items acc = Ret r ->
  forall index, In index r ->
    In index acc \/ exists v n, In (index, v) items /\ int_of_value v = Ret n.
Proof.
  revert acc. induction items as [|[i v] rest IH]; intros acc; simpl.
  - intros [= <-] index Hin. now left.
  - assert (Hskip : monitored_loop INTERFACE_TYPES_TO_MONITOR rest acc = Ret r ->
                    forall index, In index r ->
                      In index acc \/
                      exists v0 n, ((i, v) = (index, v0) \/ In (index, v0) rest) /\
                                   int_of_value v0 = Ret n).
    { intros Hrun index Hin.
      destruct (IH _ Hrun index Hin) as [Ha|(v' & n' & Hi & Hn)]; [now left|].
      right. exists v', n'. split; [now right | exact Hn]. }
    destruct (int_of_value v) as [n|e] eqn:En.
    + destruct (monitored INTERFACE_TYPES_TO_MONITOR n); [|exact Hskip].
      intros Hrun index Hin.
      destruct (IH _ Hrun index Hin) as [Ha|(v' & n' & Hi & Hn)].
      * apply in_app_or in Ha as [Ha|[<-|[]]]; [now left|].
        right. exists v, n. split; [now left | exact En].
      * right. exists v', n'. split; [now right | exact Hn].
    + destruct e; try discriminate; exact Hskip.
Qed.

Lemma monitored_loop_nodup (items : list (string * value)) (acc r : list string) :
  NoDup (acc ++ keys items) ->
  monitored_loop INTERFACE_TYPES_TO_MONITOR items acc = Ret r -> NoDup r.
Proof.
  revert acc. induction items as [|[i v] rest IH]; intros acc Hnd; simpl.
  - rewrite app_nil_r in Hnd. now intros [= <-].
  - simpl in Hnd.
    assert (Hskip : NoDup (acc ++ keys rest)) by now apply NoDup_remove_1 in Hnd.
    destruct (int_of_value v) as [n|e].
    + destruct (monitored INTERFACE_TYPES_TO_MONITOR n); [|now apply IH].
      apply IH. rewrite <- app_assoc. exact Hnd.
    + destruct e; try discriminate; now apply IH.
Qed.

Lemma if_type_label_returns (if_types : dict value) (index : string) (v : value) (n : Z) :
  NoDup (keys if_types) -> In (index, v) if_types -> int_of_value v = Ret n ->
  exists label, if_type_label INTERFACE_TYPES_TO_MONITOR index if_types = Ret label.
Proof.
  intros Hnd Hin Hn. unfold if_type_label, item.
  rewrite (get_in_nodup _ _ _ Hnd Hin), Hn. eauto.
Qed.

Lemma build_records (xs : list string) (if_types : dict value)
      (acc : dict (dict value)) (w : world W) :
  NoDup (keys if_types) ->
  (forall index, In index xs ->
                 exists v n, In (index, v) if_types /\ int_of_value v = Ret n) ->
  NoDup (keys acc ++ xs) -> shaped ["ifIndex"; "ifType"] acc ->
  exists interfaces,
    for_each xs
      (fun index interfaces =>
         label <- lift (if_type_label INTERFACE_TYPES_TO_MONITOR index if_types) ;;
         ret (set index [("ifIndex", VStr index); ("ifType", VStr label)] interfaces))%monad
      acc w
    = (Ret interfaces, w) /\
    keys interfaces = keys acc ++ xs /\
    shaped ["ifIndex"; "ifType"] interfaces.
Proof.
  intros Hnd. revert acc.
  induction xs as [|x rest IH]; intros acc Hall Hfresh Hshape; cbn [for_each].
  - exists acc. rewrite app_nil_r. split; [reflexivity|]. split; [reflexivity | exact Hshape].
  - destruct (Hall x (or_introl eq_refl)) as (v & n & Hin & Hn).
    destruct (if_type_label_returns if_types x v n Hnd Hin Hn) as [label Hlabel].
    erewrite bind_run by (unfold bind, lift, ret; rewrite Hlabel; reflexivity).
    assert (Hnew : get x acc = None).
    { apply get_none_keys. intros Hx. apply NoDup_remove_2 in Hfresh.
      apply Hfresh. apply in_or_app. now left. }
    destruct (IH (set x [("ifIndex", VStr x); ("ifType", VStr label)] acc))
      as (interfaces & Hrun & Hkeys & Hshaped).
    + intros index Hi. apply Hall. now right.
    + rewrite (keys_set_new _ _ _ Hnew), <- app_assoc. exact Hfresh.
    + intros index record. destruct (String.eqb_spec x index) as [<-|Hne].
      * rewrite get_set_eq. intros [= <-]. split; reflexivity.
      * rewrite (get_set_ne _ _ _ _ Hne). apply Hshape.
    + exists interfaces. split; [exact Hrun|]. split; [|exact Hshaped].
      rewrite Hkeys, (keys_set_new _ _ _ Hnew), <- app_assoc. reflexivity.
Qed.

Lemma set_attribute_loop (name : string) (g : string -> value) (xs : list string)
      (interfaces : dict (dict value)) (w : world W) :
  NoDup xs -> (forall x, In x xs -> In x (keys interfaces)) ->
  exists interfaces',
    for_each xs
      (fun index interfaces => lift (set_attribute index name (g index) interfaces))
      interfaces w
    = (Ret interfaces', w) /\
    keys interfaces' = keys interfaces /\
    forall index,
      get index interfaces'
      = match get index interfaces with
        | Some record =>
            Some (if in_dec string_dec index xs then set name (g index) record else record)
        | None => None
        end.
Proof.
  revert interfaces. induction xs as [|x rest IH]; intros interfaces Hnd Hin; cbn [for_each].
  - exists interfaces. split; [reflexivity|]. split; [reflexivity|].
    intros index. now destruct (get index interfaces).
  - destruct (get x interfaces) as [record|] eqn:Eg;
      [|exfalso; apply get_none_keys in Eg; apply Eg, Hin; now left].
    erewrite bind_run by (unfold lift, set_attribute, item; rewrite Eg; reflexivity).
    assert (Hkeys1 : keys (set x (set name (g x) record) interfaces) = keys interfaces).
    { apply keys_set_old. congruence. }
    inversion Hnd as [|? ? Hx Hrest]; subst.
    destruct (IH (set x (set name (g x) record) interfaces) Hrest)
      as (interfaces' & Hrun & Hkeys & Hget).
    + intros y Hy. rewrite Hkeys1. apply Hin. now right.
    + exists interfaces'. split; [exact Hrun|]. split; [now rewrite Hkeys|].
      intros index. rewrite Hget.
      destruct (String.eqb_spec x index) as [<-|Hne].
      * rewrite get_set_eq, Eg.
        destruct (in_dec string_dec x rest); [contradiction|].
        destruct (in_dec string_dec x (x :: rest)) as [_|Hout]; [reflexivity|].
        exfalso. apply Hout. now left.
      * rewrite (get_set_ne _ _ _ _ Hne).
        destruct (get index interfaces) as [r|]; [|reflexivity].
        destruct (in_dec string_dec index rest) as [Hi|Ho];
          destruct (in_dec string_dec index (x :: rest)) as [Hi'|Ho']; try reflexivity.
        -- exfalso. apply Ho'. now right.
        -- destruct Hi' as [Hx'|Hi']; [contradiction | contradiction].
Qed.

Lemma attribute_round (name : string) (g : string -> value) (xs fields : list string)
      (interfaces : dict (dict value)) (w : world W) :
  NoDup xs -> keys interfaces = xs -> shaped fields interfaces ->
  ~ In name fields -> name <> "ifIndex" ->
  exists interfaces',
    for_each xs
      (fun index interfaces => lift (set_attribute index name (g index) interfaces))
      interfaces w
    = (Ret interfaces', w) /\
    keys interfaces' = xs /\
    shaped (fields ++ [name]) interfaces'.
Proof.
  intros Hnd Hkeys Hshape Hfresh Hname.
  destruct (set_attribute_loop name g xs interfaces w Hnd)
    as (interfaces' & Hrun & Hkeys' & Hget).
  { intros x Hx. now rewrite Hkeys. }
  exists interfaces'. split; [exact Hrun|]. split; [congruence|].
  intros index record'. rewrite Hget.
  destruct (get index interfaces) as [record|] eqn:Eg; [|discriminate].
  destruct (Hshape index record Eg) as [Hfields Hindex].
  destruct (in_dec string_dec index xs) as [_|Hout].
  - intros [= <-]. split.
    + rewrite keys_set_new; [now rewrite Hfields|].
      apply get_none_keys. now rewrite Hfields.
    + rewrite (get_set_ne _ _ _ _ Hname). exact Hindex.
  - exfalso. apply Hout. rewrite <- Hkeys. eapply get_some_in_keys. exact Eg.
Qed.

Lemma queries_app (tool router_ip community : string) (port timeout retries : Z)
      (interval : Q) (a b : list string) :
  queries tool router_ip community port timeout retries interval (a ++ b)
  = queries tool router_ip community port timeout retries interval a
    ++ queries tool router_ip community port timeout retries interval b.
Proof. unfold queries. apply flat_map_app. Qed.

Lemma attributes_loop (router_ip community : string) (port timeout retries : Z)
      (request_interval : Q) (monitored_indices : list string)
      (items : list (string * string)) (fields : list string)
      (interfaces : dict (dict value)) (w : world W) :
  NoDup monitored_indices -> keys interfaces = monitored_indices ->
  shaped fields interfaces ->
  NoDup (fields ++ map fst (List.filter walked items)) ->
  exists interfaces' w',
    for_each items
      (fun '(name, oid) interfaces =>
         if String.eqb name "ifIndex" || String.eqb name "ifType"
            || sys_prefixed name
         then ret interfaces
         else
           values <- snmp_walk router_ip oid community port timeout retries ;;
           sleep request_interval ;;;
           for_each monitored_indices
             (fun index interfaces =>
                lift (set_attribute index name
                        (get_default index VNone values) interfaces))
             interfaces)%monad
      interfaces w
    = (Ret interfaces', w') /\
    keys interfaces' = monitored_indices /\
    shaped (fields ++ map fst (List.filter walked items)) interfaces' /\
    events w'
    = events w
      ++ queries "snmpwalk" router_ip community port timeout retries request_interval
                 (map snd (List.filter walked items)).
Proof.
  intros Hnd. revert fields interfaces w.
  induction items as [|[name oid] rest IH]; intros fields interfaces w Hkeys Hshape Hfields;
    cbn [for_each List.filter] in Hfields |- *.
  - exists interfaces, w. cbn [map]. rewrite !app_nil_r.
    split; [reflexivity|]. split; [exact Hkeys|]. split; [exact Hshape | reflexivity].
  - change (walked (name, oid))
      with (negb (String.eqb name "ifIndex" || String.eqb name "ifType"
                  || sys_prefixed name)) in *.
    destruct (String.eqb name "ifIndex" || String.eqb name "ifType" || sys_prefixed name)
      eqn:Eskip; cbn [negb] in Hfields |- *.
    + rewrite (bind_run (ret interfaces) _ w w interfaces eq_refl). now apply IH.
    + cbn [map fst snd] in Hfields |- *.
      destruct (snmp_walk_spec router_ip oid community port timeout retries w)
        as (values & Hwalk & _).
      assert (Hfresh : ~ In name fields).
      { intros Hin. apply NoDup_remove_2 in Hfields. apply Hfields.
        apply in_or_app. now left. }
      assert (Hname : name <> "ifIndex").
      { intros ->. discriminate Eskip. }
      pose (w1 := {| network :=
                       snd (create_subprocess_exec
                              (command "snmpwalk" router_ip oid community port timeout
                                       retries) (network w));
                     events := (events w
                                ++ [Exec (command "snmpwalk" router_ip oid community port
                                                  timeout retries)])
                               ++ [Sleep request_interval] |}).
      destruct (attribute_round name (fun index => get_default index VNone values)
                  monitored_indices fields interfaces w1 Hnd Hkeys Hshape Hfresh Hname)
        as (interfaces1 & Hround & Hkeys1 & Hshape1).
      erewrite bind_run
        by (erewrite bind_run by exact Hwalk;
            erewrite bind_run by reflexivity;
            exact Hround).
      destruct (IH (fields ++ [name]) interfaces1 w1 Hkeys1 Hshape1)
        as (interfaces' & w' & Hrun & Hkeys' & Hshape' & Hev).
      { rewrite <- app_assoc. exact Hfields. }
      exists interfaces', w'. split; [exact Hrun|]. split; [exact Hkeys'|].
      split.
      * rewrite <- app_assoc in Hshape'. exact Hshape'.
      * rewrite Hev. unfold w1. cbn [events]. unfold queries. cbn [flat_map].
        rewrite <- !app_assoc. reflexivity.
Qed.

Lemma ip_mapping_run (router_ip community : string) (port timeout retries : Z)
      (request_interval : Q) (w : world W) :
  exists mapping w',
    get_ip_to_interface_mapping router_ip community port timeout retries
                                request_interval w
    = (Ret mapping, w') /\
    events w'
    = events w
      ++ queries "snmpwalk" router_ip community port timeout retries request_interval
                 [oid "ipAddress"; oid "ipAdEntIfIndex"].
Proof.
  unfold get_ip_to_interface_mapping.
  destruct (snmp_walk_spec router_ip (oid "ipAddress") community port timeout retries w)
    as (m1 & Hw1 & _).
  erewrite bind_run by exact Hw1. erewrite bind_run by reflexivity.
  match goal with
  | |- context [bind _ _ ?w1] =>
      destruct (snmp_walk_spec router_ip (oid "ipAdEntIfIndex") community port timeout
                  retries w1) as (m2 & Hw2 & _)
  end.
  erewrite bind_run by exact Hw2. erewrite bind_run by reflexivity.
  do 2 eexists. split; [reflexivity|].
  cbn [events network]. unfold queries. cbn [flat_map].
  rewrite <- !app_assoc. reflexivity.
Qed.

(** When the type-code walk returns and the loop over its type codes runs to
    its end (no type code makes [int] raise what the loop does not catch) with
    at least one interface to monitor, [get_monitored_interfaces] returns one
    record for each of them, in the order of the walk; every record has the
    same eighteen fields and holds its own index.  To get there it walks
    eighteen tables, one after the other with a pause after each, the two
    address tables twice. *)
Theorem monitored_interfaces_assembled (router_ip community : string)
        (port timeout retries : Z) (request_interval : Q) (w : world W)
        (if_types : dict value) (monitored_indices : list string) :
  fst (snmp_walk router_ip (oid "ifType") community port timeout retries w)
  = Ret if_types ->
  monitored_loop INTERFACE_TYPES_TO_MONITOR if_types [] = Ret monitored_indices ->
  monitored_indices <> [] ->
  exists interfaces w',
    get_monitored_interfaces INTERFACE_TYPES_TO_MONITOR router_ip community port
                             timeout retries request_interval w
    = (Ret interfaces, w') /\
    keys interfaces = monitored_indices /\
    shaped interface_fields interfaces /\
    events w'
    = events w
      ++ queries "snmpwalk" router_ip community port timeout retries request_interval
                 (map oid walked_tables).
Proof.
  intros Hwalked Hloop Hsome.
  assert (Hnd : NoDup (keys if_types)) by (eapply snmp_walk_nodup; exact Hwalked).
  assert (Hmon : NoDup monitored_indices).
  { eapply monitored_loop_nodup; [|exact Hloop]. exact Hnd. }
  assert (Hin : forall index, In index monitored_indices ->
                  exists v n, In (index, v) if_types /\ int_of_value v = Ret n).
  { intros index Hi.
    destruct (monitored_loop_in _ _ _ Hloop index Hi) as [[]|Hv]. exact Hv. }
  destruct (snmp_walk_spec router_ip (oid "ifType") community port timeout retries w)
    as (m & Hwalk & _).
  rewrite Hwalk in Hwalked. cbn [fst] in Hwalked. injection Hwalked as ->.
  unfold get_monitored_interfaces.
  erewrite bind_run by exact Hwalk. erewrite bind_run by reflexivity.
  destruct if_types as [|entry more] eqn:Etypes.
  { simpl in Hloop. injection Hloop as <-. contradiction. }
  rewrite <- Etypes in *. clear Etypes entry more.
  erewrite bind_run by (unfold lift; rewrite Hloop; reflexivity).
  destruct monitored_indices as [|first others] eqn:Eindices; [contradiction|].
  rewrite <- Eindices in *. clear Hsome.
  match goal with
  | |- context [bind _ _ ?w1] =>
      destruct (build_records monitored_indices if_types [] w1 Hnd Hin Hmon)
        as (interfaces0 & Hbuild & Hkeys0 & Hshape0)
  end.
  { intros index record. discriminate. }
  erewrite bind_run by exact Hbuild.
  match goal with
  | |- context [bind _ _ ?w1] =>
      destruct (attributes_loop router_ip community port timeout retries request_interval
                  monitored_indices OID_CONSTANTS ["ifIndex"; "ifType"] interfaces0 w1
                  Hmon Hkeys0 Hshape0)
        as (interfaces1 & w2 & Hattrs & Hkeys1 & Hshape1 & Hev1)
  end.
  { vm_compute.
    repeat (apply NoDup_cons;
            [intros Hx; repeat (destruct Hx as [Hx|Hx]; [discriminate Hx|]); exact Hx|]).
    apply NoDup_nil. }
  erewrite bind_run by exact Hattrs.
  destruct (ip_mapping_run router_ip community port timeout retries request_interval w2)
    as (mapping & w3 & Hmap & Hev3).
  erewrite bind_run by exact Hmap.
  destruct (attribute_round "ipAddresses"
              (fun index => VStr (join_str ", " (get_default index [] mapping)))
              (keys interfaces1) _ interfaces1 w3
              ltac:(rewrite Hkeys1; exact Hmon) eq_refl Hshape1)
    as (interfaces & Hlast & Hkeys & Hshape).
  { vm_compute. intros Hx. repeat (destruct Hx as [Hx|Hx]; [discriminate Hx|]). exact Hx. }
  { discriminate. }
  exists interfaces, w3. split; [exact Hlast|]. split; [congruence|].
  split; [exact Hshape|].
  rewrite Hev3, Hev1. cbn [events].
  rewrite <- !app_assoc. reflexivity.
Qed.

End AssemblerMore.

(** One Ethernet interface answers the type-code walk; every later walk
    fails. *)
Lemma monitored_interfaces_assembled_witness :
  exists interfaces w',
    client.get_monitored_interfaces [(6%Z, "ethernetCsmacd")]
      "192.0.2.1" "public" 161 2 2 (1 # 10)
      {| client.network := [client.answers 0 ".1.3.6.1.2.1.2.2.1.3.1 = INTEGER: 6"];
         client.events := [] |}
    = (Ret interfaces, w') /\
    keys interfaces = ["1"] /\
    get "1" interfaces
    = Some [("ifIndex", VStr "1"); ("ifType", VStr "6 (ethernetCsmacd)");
            ("ipAddress", VNone); ("ipAdEntIfIndex", VNone); ("ifDescr", VNone);
            ("ifName", VNone); ("ifMTU", VNone); ("ifSpeed", VNone);
            ("ifPhysAddress", VNone); ("ifAdminStatus", VNone); ("ifOperStatus", VNone);
            ("ifInOctets", VNone); ("ifOutOctets", VNone); ("ifHCInOctets", VNone);
            ("ifHCOutOctets", VNone); ("ifHighSpeed", VNone); ("ifAlias", VNone);
            ("ipAddresses", VStr "")] /\
    List.length (client.events w') = 36.
Proof.
  destruct (monitored_interfaces_assembled (W := list client.spawn)
              [(6%Z, "ethernetCsmacd")] "192.0.2.1" "public" 161 2 2 (1 # 10)
              {| client.network :=
                   [client.answers 0 ".1.3.6.1.2.1.2.2.1.3.1 = INTEGER: 6"];
                 client.events := [] |}
              [("1", VInt 6)] ["1"])
    as (interfaces & w' & Hrun & Hkeys & _ & Hev).
  - vm_compute. reflexivity.
  - reflexivity.
  - discriminate.
  - exists interfaces, w'. split; [exact Hrun|]. split; [exact Hkeys|].
    split; [|rewrite Hev; reflexivity].
    vm_compute in Hrun. injection Hrun as <- _. reflexivity.
Defined.

(** ** snmp/parsers.py, further *)

Section ParsersMore.
Import parsers.
Context `{FloatOps}.

(** A value in double quotes is returned without the quotes, whatever stands
    between them. *)
Theorem parse_snmp_value_quoted (body : chars) :
  parse_snmp_value (str_of (quote :: body ++ [quote])) = Ret (VStr (str_of body)).
Proof.
  unfold parse_snmp_value. rewrite chars_str.
  destruct (String.eqb_spec (str_of (quote :: body ++ [quote])) "") as [E|_];
    [discriminate E|].
  destruct (String.eqb_spec (str_of (quote :: body ++ [quote])) "STRING:") as [E|_];
    [discriminate E|].
  cbn [orb].
  assert (Hstart : startswith [quote] (quote :: body ++ [quote]) = true) by reflexivity.
  assert (Hend : endswith [quote] (quote :: body ++ [quote]) = true).
  { unfold endswith. cbn [rev app]. rewrite rev_app_distr. reflexivity. }
  rewrite Hstart, Hend. cbn [andb tl]. now rewrite removelast_last.
Qed.

(** A value marked [INTEGER:], [Counter32:], [Counter64:] or [Gauge32:] and
    followed by a run of at most 4300 digits is returned as the integer the
    digits denote. *)
Theorem parse_snmp_value_integer (marker : string) (ws ds : chars) :
  In marker integer_markers -> forallb is_space ws = true -> digit_run ds ->
  List.length ds <= int_max_str_digits ->
  exists z, int_of_str ds = Ret z /\
            parse_snmp_value (typed marker ws ds) = Ret (VInt z).
Proof.
  intros Hmarker Hws Hrun Hlen.
  destruct (int_of_str_digits ds (proj1 Hrun) (proj2 Hrun) Hlen) as [z Hz].
  exists z. split; [exact Hz|].
  rewrite (parse_snmp_value_typed marker ws ds Hmarker Hws Hrun). now rewrite Hz.
Qed.

Lemma forallb_impl {A : Type} (p q : A -> bool) (l : list A) :
  (forall a, p a = true -> q a = true) -> forallb p l = true -> forallb q l = true.
Proof.
  intros Hpq Hp. apply forallb_forall. intros a Ha.
  apply Hpq. exact (proj1 (forallb_forall _ _) Hp a Ha).
Qed.

(** A [Timeticks] value with at most 4300 digits in its parentheses is
    returned as the number of ticks they hold; the readable duration after
    them is dropped. *)
Theorem parse_snmp_value_timeticks (ws ticks rest : chars) :
  forallb is_space ws = true -> digit_run ticks ->
  List.length ticks <= int_max_str_digits ->
  forallb (fun c => negb (is_upper c)) rest = true ->
  exists z, int_of_str ticks = Ret z /\
            parse_snmp_value (timeticks ws ticks rest) = Ret (VInt z).
Proof.
  intros Hws Hrun Hlen Hrest.
  destruct (int_of_str_digits ticks (proj1 Hrun) (proj2 Hrun) Hlen) as [z Hz].
  exists z. split; [exact Hz|].
  set (plain := fun c => negb (ascii_eqb "I" c || ascii_eqb "C" c || ascii_eqb "G" c)).
  assert (Hcase : forall (p : ascii -> bool),
             p "I"%char = false -> p "C"%char = false -> p "G"%char = false ->
             forall c, p c = true -> plain c = true).
  { intros p HI HC HG c Hp. unfold plain, ascii_eqb.
    destruct (Ascii.eqb_spec "I" c) as [<-|_]; [congruence|].
    destruct (Ascii.eqb_spec "C" c) as [<-|_]; [congruence|].
    destruct (Ascii.eqb_spec "G" c) as [<-|_]; [congruence|]. reflexivity. }
  assert (Hplain : forallb plain
                     (chars_of "Timeticks:" ++ ws ++ "("%char :: ticks ++ ")"%char :: rest)
                   = true).
  { rewrite !forallb_app. cbn [forallb]. rewrite forallb_app. cbn [forallb].
    rewrite (forallb_impl is_space plain ws (Hcase _ eq_refl eq_refl eq_refl) Hws).
    rewrite (forallb_impl is_digit plain ticks (Hcase _ eq_refl eq_refl eq_refl)
                          (proj1 Hrun)).
    rewrite (forallb_impl _ plain rest
               (Hcase (fun c => negb (is_upper c)) eq_refl eq_refl eq_refl) Hrest).
    reflexivity. }
  unfold timeticks, parse_snmp_value. rewrite chars_str.
  destruct (typed_not_special
              (chars_of "Timeticks:" ++ ws ++ "("%char :: ticks ++ ")"%char :: rest))
    as [-> ->]; [split; discriminate|]. cbn [andb].
  rewrite (search_none int_re (ascii_eqb "I") _ int_re_head).
  2:{ apply (forallb_impl plain); [|exact Hplain]. intros c. unfold plain.
      destruct (ascii_eqb "I" c); [discriminate | reflexivity]. }
  rewrite (search_none counter_re (fun c => ascii_eqb "C" c || ascii_eqb "G" c) _
                       counter_re_head).
  2:{ apply (forallb_impl plain); [|exact Hplain]. intros c. unfold plain.
      destruct (ascii_eqb "I" c); [discriminate|]. cbn [orb]. trivial. }
  rewrite (search_head timeticks_re _ ticks); [now rewrite Hz|].
  unfold timeticks_re. rewrite strip_prefix_app, (lstrip_spaces _ _ Hws).
  cbn [lstrip]. change (is_space "("%char) with false. cbv iota.
  change (ascii_eqb "("%char "("%char) with true. cbv iota.
  rewrite (span_digits ticks (")"%char :: rest) (proj1 Hrun) eq_refl).
  destruct ticks as [|d ds]; [now destruct Hrun|]. reflexivity.
Qed.

Lemma split_on_no_sep (sep : ascii) (cs w : chars) :
  In w (split_on sep cs) -> ~ In sep w.
Proof.
  revert w. induction cs as [|c r IH]; intros w; simpl.
  - intros [<-|[]] [].
  - unfold ascii_eqb. destruct (Ascii.eqb_spec c sep) as [->|Hne].
    + intros [<-|Hin]; [intros [] | now apply IH].
    + destruct (split_on sep r) as [|w0 ws] eqn:E.
      * intros [<-|[]] [Hc|[]]. contradiction.
      * intros [<-|Hin].
        -- intros [Hc|Hin]; [contradiction|]. apply (IH w0); [now left | exact Hin].
        -- apply IH. now right.
Qed.

Lemma last_in_or_default {A : Type} (l : list A) (d : A) :
  List.last l d = d \/ In (List.last l d) l.
Proof.
  induction l as [|a l IH]; [now left|].
  destruct l as [|b l]; [right; now left|].
  destruct IH as [Hd|Hin]; [left; exact Hd | right; right; exact Hin].
Qed.

Lemma keys_set_in {V : Type} (d : dict V) (k k' : string) (v : V) :
  In k' (keys (set k v d)) -> k' = k \/ In k' (keys d).
Proof.
  destruct (get k d) eqn:E.
  - rewrite keys_set_old by congruence. now right.
  - rewrite (keys_set_new _ _ _ E). intros Hin.
    apply in_app_or in Hin as [Hin|[<-|[]]]; [now right | now left].
Qed.

Lemma split_on_length (sep : ascii) (cs w : chars) :
  In w (split_on sep cs) -> List.length w <= List.length cs.
Proof.
  revert w. induction cs as [|c r IH]; intros w; simpl.
  - intros [<-|[]]. simpl. lia.
  - destruct (ascii_eqb c sep).
    + intros [<-|Hin]; [simpl; lia|]. apply IH in Hin. lia.
    + destruct (split_on sep r) as [|w0 ws] eqn:E.
      * intros [<-|[]]. simpl. lia.
      * intros [<-|Hin].
        -- assert (List.length w0 <= List.length r) by (apply IH; now left).
           simpl. lia.
        -- assert (List.length w <= List.length r) by (apply IH; now right). lia.
Qed.

Lemma split_once_length (sep : ascii) (cs w : chars) :
  In w (split_once sep cs) -> List.length w <= List.length cs.
Proof.
  revert w. induction cs as [|c r IH]; intros w; simpl.
  - intros [<-|[]]. simpl. lia.
  - destruct (ascii_eqb c sep).
    + intros [<-|[<-|[]]]; simpl; lia.
    + destruct (split_once sep r) as [|w0 ws] eqn:E.
      * intros [<-|[]]. simpl. lia.
      * intros [<-|Hin].
        -- assert (List.length w0 <= List.length r) by (apply IH; now left).
           simpl. lia.
        -- assert (List.length w <= List.length r) by (apply IH; now right). lia.
Qed.

Lemma strip_length (cs : chars) : List.length (strip cs) <= List.length cs.
Proof.
  unfold strip, rstrip. rewrite length_rev.
  pose proof (lstrip_length (rev (lstrip cs))). rewrite length_rev in *.
  pose proof (lstrip_length cs). lia.
Qed.

(** What a line of a walk dump adds: the value of the text right of its
    first [=], filed under the last component of the text left of it. *)
Lemma parse_walk_line_entry (line : chars) (index : string) (v : value) :
  parse_walk_line line = Ret (Some (index, v)) ->
  exists l r,
    split_once "=" line = [l; r] /\
    index = str_of (List.last (split_on "." (strip l)) []) /\
    parse_snmp_value (str_of (strip r)) = Ret v.
Proof.
  unfold parse_walk_line.
  destruct (strip line); [discriminate|].
  destruct (split_once "=" line) as [|l [|r [|x xs]]]; try discriminate.
  destruct (parse_snmp_value _) as [v'|e] eqn:E; [|discriminate].
  intros [= <- <-]. exists l, r. auto.
Qed.

Lemma parse_walk_line_index (line : chars) (index : string) (v : value) :
  parse_walk_line line = Ret (Some (index, v)) -> dotless index.
Proof.
  intros Hline. destruct (parse_walk_line_entry line index v Hline) as (l & r & _ & -> & _).
  unfold dotless. rewrite chars_str.
  destruct (last_in_or_default (split_on "." (strip l)) []) as [->|Hin]; [intros []|].
  now apply (split_on_no_sep "." (strip l)).
Qed.

Lemma parse_walk_line_outcome (line : chars) :
  (exists entry, parse_walk_line line = Ret entry) \/
  parse_walk_line line = Raise ValueError.
Proof.
  unfold parse_walk_line.
  destruct (strip line); [left; eexists; reflexivity|].
  destruct (split_once "=" line) as [|l [|r [|x xs]]];
    try (left; eexists; reflexivity).
  destruct (parse_snmp_value_outcome (str_of (strip r))) as [(v & -> & _)| ->];
    [left; eexists; reflexivity | now right].
Qed.

Lemma parse_walk_line_short (line : chars) :
  List.length line <= int_max_str_digits ->
  exists entry, parse_walk_line line = Ret entry.
Proof.
  intros Hlen. unfold parse_walk_line.
  destruct (strip line); [eexists; reflexivity|].
  destruct (split_once "=" line) as [|l [|r [|x xs]]] eqn:E;
    try (eexists; reflexivity).
  destruct (parse_snmp_value_short (str_of (strip r))) as (v & -> & _);
    [|eexists; reflexivity].
  rewrite <- chars_length, chars_str.
  pose proof (strip_length r).
  assert (List.length r <= List.length line).
  { apply (split_once_length "="). rewrite E. right. now left. }
  lia.
Qed.

Lemma parse_walk_lines_dotless (lines : list chars) (acc m : dict value) :
  (forall index, In index (keys acc) -> dotless index) ->
  parse_walk_lines lines acc = Ret m ->
  forall index, In index (keys m) -> dotless index.
Proof.
  revert acc. induction lines as [|line rest IH]; intros acc Hacc; simpl.
  - now intros [= <-].
  - destruct (parse_walk_line line) as [[[index v]|]|e] eqn:E; [| |discriminate].
    + apply IH. intros k Hk. apply keys_set_in in Hk as [->|Hk]; [|now apply Hacc].
      now apply (parse_walk_line_index line index v).
    + now apply IH.
Qed.

Lemma parse_walk_lines_entries (lines : list chars) (acc m : dict value)
      (known : string -> Prop) :
  (forall index, In index (keys acc) -> known index) ->
  (forall line index v, In line lines -> parse_walk_line line = Ret (Some (index, v)) ->
                        known index) ->
  parse_walk_lines lines acc = Ret m ->
  forall index, In index (keys m) -> known index.
Proof.
  revert acc. induction lines as [|line rest IH]; intros acc Hacc Hlines; simpl.
  - now intros [= <-].
  - destruct (parse_walk_line line) as [[[index v]|]|e] eqn:E; [| |discriminate].
    + apply IH.
      * intros k Hk. apply keys_set_in in Hk as [->|Hk]; [|now apply Hacc].
        apply (Hlines line index v); [now left | exact E].
      * intros l i v' Hl. apply Hlines. now right.
    + apply IH; [exact Hacc|]. intros l i v' Hl. apply Hlines. now right.
Qed.

Lemma parse_walk_lines_outcome (lines : list chars) (acc : dict value) :
  (exists m, parse_walk_lines lines acc = Ret m) \/
  parse_walk_lines lines acc = Raise ValueError.
Proof.
  revert acc. induction lines as [|line rest IH]; intros acc; simpl; [left; eauto|].
  destruct (parse_walk_line_outcome line) as [[[[index v]|] ->]| ->];
    [apply IH | apply IH | now right].
Qed.

Lemma parse_walk_lines_short (lines : list chars) (acc : dict value) :
  (forall line, In line lines -> List.length line <= int_max_str_digits) ->
  exists m, parse_walk_lines lines acc = Ret m.
Proof.
  revert acc. induction lines as [|line rest IH]; intros acc Hshort; simpl; [eauto|].
  destruct (parse_walk_line_short line) as [[[index v]|] ->];
    [apply Hshort; now left | |]; apply IH; intros l Hl; apply Hshort; now right.
Qed.

(** [parse_snmp_walk_response] raises nothing but [ValueError], and returns
    on every text of at most 4300 characters.  When it returns, the indices of
    its result are distinct, and each of them is the last dot-separated
    component of the text left of the first [=] of one of the lines, so that
    none holds a dot. *)
Theorem parse_snmp_walk_response_indices (output : string) :
  (forall e, parse_snmp_walk_response output = Raise e -> e = ValueError) /\
  (String.length output <= int_max_str_digits ->
   exists m, parse_snmp_walk_response output = Ret m) /\
  (forall m, parse_snmp_walk_response output = Ret m ->
     NoDup (keys m) /\
     forall index, In index (keys m) ->
       dotless index /\
       exists line l r,
         In line (split_on newline (chars_of output)) /\
         split_once "=" line = [l; r] /\
         index = str_of (List.last (split_on "." (strip l)) [])).
Proof.
  unfold parse_snmp_walk_response. split; [|split].
  - intros e He.
    destruct (parse_walk_lines_outcome (split_on newline (chars_of output)) [])
      as [[m Hm]|Hraise]; congruence.
  - intros Hlen. apply parse_walk_lines_short. intros line Hline.
    apply split_on_length in Hline. rewrite chars_length in Hline. lia.
  - intros m Hm. split.
    + apply (parse_walk_lines_nodup (split_on newline (chars_of output)) [] m);
        [apply NoDup_nil | exact Hm].
    + intros index Hin. split.
      * apply (parse_walk_lines_dotless (split_on newline (chars_of output)) [] m);
          [intros i [] | exact Hm | exact Hin].
      * revert index Hin.
        apply (parse_walk_lines_entries (split_on newline (chars_of output)) [] m);
          [intros i [] | | exact Hm].
        intros line index v Hline Hentry.
        destruct (parse_walk_line_entry line index v Hentry) as (l & r & Hsplit & Hi & _).
        exists line, l, r. auto.
Qed.

End ParsersMore.

Lemma parse_snmp_value_integer_witness :
  parsers.parse_snmp_value "Counter64: 18446744073709551615"
  = Ret (VInt 18446744073709551615) /\
  parsers.parse_snmp_value "Gauge32:1000000000" = Ret (VInt 1000000000).
Proof.
  split.
  - destruct (parse_snmp_value_integer "Counter64:" (chars_of " ")
                (chars_of "18446744073709551615"))
      as (z & Hz & Hparse).
    + right. right. now left.
    + reflexivity.
    + split; [reflexivity | discriminate].
    + apply Nat.leb_le. vm_compute. reflexivity.
    + vm_compute in Hz. injection Hz as <-. exact Hparse.
  - destruct (parse_snmp_value_integer "Gauge32:" [] (chars_of "1000000000"))
      as (z & Hz & Hparse).
    + right. right. right. now left.
    + reflexivity.
    + split; [reflexivity | discriminate].
    + apply Nat.leb_le. vm_compute. reflexivity.
    + vm_compute in Hz. injection Hz as <-. exact Hparse.
Defined.

Lemma parse_snmp_value_timeticks_witness :
  parsers.parse_snmp_value "Timeticks: (8640000) 1 day, 0:00:00.00" = Ret (VInt 8640000).
Proof.
  destruct (parse_snmp_value_timeticks (chars_of " ") (chars_of "8640000")
              (chars_of " 1 day, 0:00:00.00"))
    as (z & Hz & Hparse).
  - reflexivity.
  - split; [reflexivity | discriminate].
  - apply Nat.leb_le. vm_compute. reflexivity.
  - reflexivity.
  - vm_compute in Hz. injection Hz as <-. exact Hparse.
Defined.

Lemma parse_snmp_value_quoted_witness :
  parsers.parse_snmp_value
    (str_of (parsers.quote :: chars_of "INTEGER: 5" ++ [parsers.quote]))
  = Ret (VStr "INTEGER: 5").
Proof. exact (parse_snmp_value_quoted (chars_of "INTEGER: 5")). Defined.

(** Two lines for the same index, and a line without [=]. *)
Lemma parse_snmp_walk_response_indices_witness :
  exists m,
    parsers.parse_snmp_walk_response
      (str_of (chars_of "IF-MIB::ifType.7 = INTEGER: 6" ++ parsers.newline
               :: chars_of "no entry here" ++ parsers.newline
               :: chars_of "IF-MIB::ifType.7 = INTEGER: 24"))
    = Ret m /\
    keys m = ["7"].
Proof.
  destruct (parse_snmp_walk_response_indices
              (str_of (chars_of "IF-MIB::ifType.7 = INTEGER: 6" ++ parsers.newline
                       :: chars_of "no entry here" ++ parsers.newline
                       :: chars_of "IF-MIB::ifType.7 = INTEGER: 24")))
    as (_ & Hshort & _).
  destruct Hshort as [m Hm]; [apply Nat.leb_le; vm_compute; reflexivity|].
  exists m. split; [exact Hm|].
  vm_compute in Hm. injection Hm as <-. reflexivity.
Defined.

(** ** db/interface_dao.py: [calculate_interface_utilization], further *)

Section UtilizationMore.
Import utilization.
Local Open Scope Z_scope.

Lemma pairs_utilization_ascending (speed : Z) (prev : sample) (rest : list sample) :
  ascending prev rest ->
  map at_time (pairs_utilization speed prev rest) = map timestamp rest.
Proof.
  revert prev. induction rest as [|curr rest IH]; intros prev; simpl; [reflexivity|].
  intros [Hlt Hrest]. unfold pair_utilization.
  destruct (Z.leb_spec (timestamp curr - timestamp prev) 0); [lia|].
  simpl. f_equal. now apply IH.
Qed.

Lemma pairs_utilization_from_samples (speed : Z) (prev : sample) (rest : list sample) :
  (List.length (pairs_utilization speed prev rest) <= List.length rest)%nat /\
  forall r, In r (pairs_utilization speed prev rest) ->
            exists before curr, In curr rest /\ at_time r = timestamp curr /\
                                timestamp before < timestamp curr /\
                                In before (prev :: rest).
Proof.
  revert prev. induction rest as [|curr rest IH]; intros prev; simpl.
  - split; [lia | intros r []].
  - destruct (IH curr) as [Hlen Hin].
    assert (Hrest : forall r, In r (pairs_utilization speed curr rest) ->
                      exists before curr0,
                        (curr = curr0 \/ In curr0 rest) /\ at_time r = timestamp curr0 /\
                        timestamp before < timestamp curr0 /\
                        (prev = before \/ curr = before \/ In before rest)).
    { intros r Hr. destruct (Hin r Hr) as (b & c & Hc & Ht & Hlt & Hb).
      exists b, c. split; [now right|]. split; [exact Ht|]. split; [exact Hlt|].
      right. exact Hb. }
    unfold pair_utilization.
    destruct (Z.leb_spec (timestamp curr - timestamp prev) 0) as [Hle|Hgt].
    + split; [lia | exact Hrest].
    + split; [simpl; lia|]. intros r [<-|Hr]; [|now apply Hrest].
      exists prev, curr. cbn [at_time]. split; [now left|]. split; [reflexivity|].
      split; [lia | now left].
Qed.

(** Every record [calculate_interface_utilization] returns belongs to a
    sample that is later than some other sample of the range, and never to
    the first one; so [n] samples give at most [n - 1] records. *)
Theorem utilization_records_from_samples (i : option interface) (stats : list sample) :
  (List.length (calculate_interface_utilization i stats) <= List.length stats - 1)%nat /\
  forall r, In r (calculate_interface_utilization i stats) ->
            exists before curr, In curr (tl stats) /\ at_time r = timestamp curr /\
                                timestamp before < timestamp curr /\ In before stats.
Proof.
  assert (Hempty : (List.length (@nil utilization_record) <= List.length stats - 1)%nat /\
                   forall r, In r (@nil utilization_record) ->
                     exists before curr, In curr (tl stats) /\ at_time r = timestamp curr /\
                                         timestamp before < timestamp curr /\
                                         In before stats).
  { split; [simpl; lia | intros r []]. }
  unfold calculate_interface_utilization.
  destruct i as [i|]; [|exact Hempty].
  assert (Hspeed : forall speed : option Z,
             (List.length
                (match speed with
                 | Some 0%Z => []
                 | _ => match stats with
                        | [] | [_] => []
                        | first :: rest =>
                            match speed with
                            | Some speed => pairs_utilization speed first rest
                            | None => []
                            end
                        end
                 end) <= List.length stats - 1)%nat /\
             forall r,
               In r (match speed with
                     | Some 0%Z => []
                     | _ => match stats with
                            | [] | [_] => []
                            | first :: rest =>
                                match speed with
                                | Some speed => pairs_utilization speed first rest
                                | None => []
                                end
                            end
                     end) ->
               exists before curr, In curr (tl stats) /\ at_time r = timestamp curr /\
                                   timestamp before < timestamp curr /\ In before stats).
  { intros [speed|]; [|destruct stats as [|first [|second rest]]; exact Hempty].
    assert (Hrun : (List.length
                      (match stats with
                       | [] | [_] => []
                       | first :: rest => pairs_utilization speed first rest
                       end) <= List.length stats - 1)%nat /\
                   forall r,
                     In r (match stats with
                           | [] | [_] => []
                           | first :: rest => pairs_utilization speed first rest
                           end) ->
                     exists before curr,
                       In curr (tl stats) /\ at_time r = timestamp curr /\
                       timestamp before < timestamp curr /\ In before stats).
    { destruct stats as [|first [|second rest]]; try exact Hempty.
      destruct (pairs_utilization_from_samples speed first (second :: rest)) as [Hlen Hin].
      split; [simpl in *; lia | exact Hin]. }
    destruct speed; [exact Hempty | exact Hrun | exact Hrun]. }
  apply Hspeed.
Qed.

(** With a speed reported and samples in order of time,
    [calculate_interface_utilization] returns one record for every sample but
    the first, stamped with that sample's time. *)
Theorem utilization_one_record_per_pair (i : interface) (speed : Z) (stats : list sample) :
  reports_speed i speed -> in_order stats ->
  map at_time (calculate_interface_utilization (Some i) stats) = map timestamp (tl stats).
Proof.
  intros [Hnz Hspeed] Horder. unfold calculate_interface_utilization.
  assert (Heff : match ifHighSpeed i with
                 | Some z => if nonzero z then Some z else ifSpeed i
                 | None => ifSpeed i
                 end = Some speed).
  { destruct Hspeed as [->|[[->| ->] ->]]; try reflexivity.
    unfold nonzero. destruct (Z.eqb_spec speed 0); [contradiction | reflexivity]. }
  rewrite Heff.
  destruct speed as [|p|p]; [contradiction| |];
    (destruct stats as [|first [|second rest]]; [reflexivity | reflexivity |];
     now apply pairs_utilization_ascending).
Qed.

End UtilizationMore.

(** Three samples a minute apart on a gigabit interface. *)
Lemma utilization_one_record_per_pair_witness :
  map utilization.at_time
      (utilization.calculate_interface_utilization
         (Some {| utilization.ifHighSpeed := Some 0%Z; utilization.ifSpeed := Some 1000%Z |})
         [{| utilization.timestamp := 0; utilization.ifInOctets := 10;
             utilization.ifOutOctets := 10; utilization.ifHCInOctets := 10;
             utilization.ifHCOutOctets := 10 |};
          {| utilization.timestamp := 60; utilization.ifInOctets := 20;
             utilization.ifOutOctets := 20; utilization.ifHCInOctets := 20;
             utilization.ifHCOutOctets := 20 |};
          {| utilization.timestamp := 120; utilization.ifInOctets := 5;
             utilization.ifOutOctets := 30; utilization.ifHCInOctets := 5;
             utilization.ifHCOutOctets := 30 |}])
  = [60%Z; 120%Z].
Proof.
  refine (utilization_one_record_per_pair _ 1000 _ _ _).
  - split; [discriminate|]. right. split; [now right | reflexivity].
  - simpl. repeat split; reflexivity.
Defined.
